(** * EGRET: DC optimal power flow with losses

    A shallow embedding of the parts of EGRET that formulate, solve and
    read back the DCOPF-with-losses models:

    - [egret/data/data_utils.py]           (sensitivity dictionaries),
    - [egret/model_library/decl.py]        (variable declaration helper),
    - [egret/common/solver_interface.py]   (solver driver),
    - [egret/models/dcopf_losses.py]       (the two builders and the solve),
    - [egret/model_library/unit_commitment/uc_utils.py] (model tagging
      and the time mapping of attributes).

    Python floats are IEEE binary64 numbers and are embedded as Rocq's
    primitive floats, so that [!=], [+] and [*] are the operations the
    interpreter performs.  Python dictionaries keep insertion order and
    are embedded as association lists with unique-key operations.
    Exceptions are values of [exn]; in-place updates of a snapshot go
    through an explicit heap of snapshots. *)

From Stdlib Require Import Floats.PrimFloat Floats.FloatOps Floats.SpecFloat.
From stdpp Require Import gmap strings list.

Set Default Proof Using "Type".
Local Open Scope string_scope.
Local Open Scope list_scope.

(** ** Python dictionaries *)

Module PyDict.

Definition dict (V : Type) : Type := list (string * V).

Section Ops.
Context {V : Type}.

(** [d.get(k)]: [None] when the key is absent. *)
Fixpoint dget (k : string) (d : dict V) : option V :=
  match d with
  | [] => None
  | (k', v) :: d' => if String.eqb k k' then Some v else dget k d'
  end.

(** [k in d] *)
Definition dhas (k : string) (d : dict V) : bool :=
  match dget k d with Some _ => true | None => false end.

(** [d[k] = v]: an existing key keeps its position, a new key is
    appended. *)
Fixpoint dset (k : string) (v : V) (d : dict V) : dict V :=
  match d with
  | [] => [(k, v)]
  | (k', v') :: d' =>
      if String.eqb k k' then (k', v) :: d' else (k', v') :: dset k v d'
  end.

(** [d.pop(k, None)] with the popped value dropped. *)
Fixpoint dpop (k : string) (d : dict V) : dict V :=
  match d with
  | [] => []
  | (k', v') :: d' =>
      if String.eqb k k' then dpop k d' else (k', v') :: dpop k d'
  end.

(** [list(d.keys())] *)
Definition dkeys (d : dict V) : list string := map fst d.

(** [{k: v for (k, v) in kvs}]: later bindings of a key win. *)
Definition dict_of (kvs : list (string * V)) : dict V :=
  fold_left (fun d kv => dset (fst kv) (snd kv) d) kvs [].

End Ops.

End PyDict.

Import PyDict.

(** ** Exceptions and fallible computations *)

Inductive exn : Type :=
| KeyError (key : string)
| IndexError
| NameError (name : string)
| AttributeError (attr : string)
| TypeError (msg : string)
| ValueError (msg : string)
| RuntimeError (msg : string)
| Exception (msg : string).

Inductive result (A : Type) : Type :=
| Ok (a : A)
| Raise (e : exn).
Arguments Ok {A} a.
Arguments Raise {A} e.

#[global] Instance result_ret : MRet result := fun A a => Ok a.
#[global] Instance result_bind : MBind result :=
  fun A B f m => match m with Ok a => f a | Raise e => Raise e end.

Definition is_ok {A} (r : result A) : bool :=
  match r with Ok _ => true | Raise _ => false end.

(** [d[k]] on a dictionary: a missing key raises [KeyError]. *)
Definition ditem {V} (k : string) (d : dict V) : result V :=
  match dget k d with Some v => Ok v | None => Raise (KeyError k) end.

(** [for a in l: s = f(s, a)] where the body may raise. *)
Fixpoint for_each {A S} (f : S -> A -> result S) (l : list A) (s : S)
  : result S :=
  match l with
  | [] => Ok s
  | a :: l' => s' ← f s a; for_each f l' s'
  end.

(** [for k, e in d.items(): <update e in place>] where the body may raise:
    every entry is visited once, in order, and keeps its key. *)
Fixpoint for_items {V} (f : string -> V -> result V) (d : dict V)
  : result (dict V) :=
  match d with
  | [] => Ok []
  | (k, v) :: d' => v' ← f k v; d'' ← for_items f d'; Ok ((k, v') :: d'')
  end.

(** [list(enumerate(l))] *)
Definition enumerate {A} (l : list A) : list (nat * A) :=
  combine (seq 0 (length l)) l.

(** ** Floating-point numbers *)

Module Py.
Local Open Scope float_scope.

(** [math.pi] *)
Definition pi : float := 0x1.921fb54442d18p+1.

(** [math.radians(x)], which CPython computes as [x * (pi / 180)]. *)
Definition radians (x : float) : float := x * (pi / 180).

(** [x != 0.] *)
Definition ne_zero (x : float) : bool := negb (x =? 0).
End Py.

(** ** The network snapshot ([egret.data.model_data.ModelData]) *)

(** Attribute values met in a snapshot. *)
Inductive value : Type :=
| VFloat (x : float)
| VStr (s : string)
| VBool (b : bool)
| VRow (r : dict float)
| VCostCurve (cost_curve_type : string) (values : list (Z * float)).

Definition elem : Type := dict value.

Inductive element_type : Type := bus | branch | generator | load | shunt.

(** [md.data]: [system] is [md.data['system']], the other fields are the
    categories of [md.data['elements']]. *)
Record ModelData : Type := mkModelData {
  system : dict value;
  buses : dict elem;
  branches : dict elem;
  generators : dict elem;
  loads : dict elem;
  shunts : dict elem
}.

(** Modelled from the spec: [ModelData.elements] is absent from the
    sources; it is "element iteration by category", in the order of the
    category's dictionary. *)
Definition elements (md : ModelData) (t : element_type) : dict elem :=
  match t with
  | bus => buses md
  | branch => branches md
  | generator => generators md
  | load => loads md
  | shunt => shunts md
  end.

Definition with_elements (t : element_type) (d : dict elem) (md : ModelData)
  : ModelData :=
  match t with
  | bus => mkModelData (system md) d (branches md) (generators md) (loads md) (shunts md)
  | branch => mkModelData (system md) (buses md) d (generators md) (loads md) (shunts md)
  | generator => mkModelData (system md) (buses md) (branches md) d (loads md) (shunts md)
  | load => mkModelData (system md) (buses md) (branches md) (generators md) d (shunts md)
  | shunt => mkModelData (system md) (buses md) (branches md) (generators md) (loads md) d
  end.

Definition with_system (s : dict value) (md : ModelData) : ModelData :=
  mkModelData s (buses md) (branches md) (generators md) (loads md) (shunts md).

#[global] Instance element_type_eq_dec : EqDecision element_type.
Proof. solve_decision. Defined.

(** Modelled from the spec: [ModelData.attributes] is absent from the
    sources; it is "per-category attribute lookup by name".
    [attributes(element_type=t)['names']] lists the element names. *)
Definition attribute_names (md : ModelData) (t : element_type) : list string :=
  dkeys (elements md t).

(** [attributes(element_type=t)[a]] maps the name of every element that
    has attribute [a] to its value; the key [a] is missing (a [KeyError])
    when no element has it. *)
Definition attribute (md : ModelData) (t : element_type) (a : string)
  : result (dict value) :=
  match omap (fun ne => v ← dget a (snd ne); Some (fst ne, v)) (elements md t) with
  | [] => Raise (KeyError a)
  | kvs => Ok (dict_of kvs)
  end.

(** [d[a] = v] on the dictionary of the element [name] of category [t]. *)
Definition set_attr (t : element_type) (name a : string) (v : value)
  (md : ModelData) : result ModelData :=
  e ← ditem name (elements md t);
  Ok (with_elements t (dset name (dset a v e) (elements md t)) md).

(** ** [egret/data/data_utils.py]: sensitivity dictionaries *)

Inductive BasePointType : Type := FLATSTART | SOLUTION.
Inductive ApproximationType : Type := BTHETA | BTHETA_LOSSES | PTDF | PTDF_LOSSES.

(** A two-dimensional numpy array; [M[i, j]] out of range raises. *)
Definition matrix : Type := list (list float).

Definition mget (M : matrix) (i j : nat) : result float :=
  match M !! i with
  | Some row => match row !! j with Some x => Ok x | None => Raise IndexError end
  | None => Raise IndexError
  end.

Definition vget (v : list float) (i : nat) : result float :=
  match v !! i with Some x => Ok x | None => Raise IndexError end.

(** The sensitivity-factor engine [egret.model_library.transmission.tx_calc]
    is not part of the sources: its four entry points used here are taken
    as parameters.  Each receives the branch and bus dictionaries, the two
    name lists and the reference bus or approximation type, as in the
    calls of [data_utils]. *)
Class TxCalc : Type := {
  calculate_ptdf :
    dict elem -> dict elem -> list string -> list string -> value ->
    BasePointType -> result matrix;
  calculate_ptdf_ldf :
    dict elem -> dict elem -> list string -> list string -> value ->
    BasePointType -> result (matrix * matrix * list float);
  calculate_phi_constant :
    dict elem -> list string -> list string -> ApproximationType ->
    result (matrix * matrix);
  calculate_phi_loss_constant :
    dict elem -> list string -> list string -> ApproximationType ->
    result (matrix * matrix)
}.

(** [{names[i]: M[idx, i] for i in list(range(0, len(names)))}] *)
Definition row_dict (names : list string) (M : matrix) (idx : nat)
  : result (dict float) :=
  kvs ← mapM (fun ik => x ← mget M idx (fst ik); Ok (snd ik, x)) (enumerate names);
  Ok (dict_of kvs).

(** [{names[i]: M[idx, i] for i in list(range(0, len(names)))
      if M[idx, i] != 0.}] *)
Definition row_dict_nonzero (names : list string) (M : matrix) (idx : nat)
  : result (dict float) :=
  kvs ← mapM (fun ik => x ← mget M idx (fst ik);
                        Ok (if Py.ne_zero x then Some (snd ik, x) else None))
             (enumerate names);
  Ok (dict_of (omap id kvs)).

Section DataUtils.
Context `{TxCalc}.

Definition create_dicts_of_ptdf (md : ModelData) (base_point : BasePointType)
  : result ModelData :=
  let branches := elements md branch in
  let buses := elements md bus in
  let branch_names := attribute_names md branch in
  let bus_names := attribute_names md bus in
  reference_bus ← ditem "reference_bus" (system md);
  ptdf ← calculate_ptdf branches buses branch_names bus_names reference_bus base_point;
  phis ← calculate_phi_constant branches branch_names bus_names PTDF;
  let phi_from := fst phis in
  let phi_to := snd phis in
  md ← for_each (fun md ib =>
          let idx := fst ib in
          let branch_name := snd ib in
          _ ← ditem branch_name (elements md branch);
          _row_ptdf ← row_dict bus_names ptdf idx;
          set_attr branch branch_name "ptdf" (VRow _row_ptdf) md)
        (enumerate branch_names) md;
  for_each (fun md ib =>
      let idx := fst ib in
      let bus_name := snd ib in
      _ ← ditem bus_name (elements md bus);
      _row_phi_from ← row_dict_nonzero branch_names phi_from idx;
      md ← set_attr bus bus_name "phi_from" (VRow _row_phi_from) md;
      _row_phi_to ← row_dict_nonzero branch_names phi_to idx;
      set_attr bus bus_name "phi_to" (VRow _row_phi_to) md)
    (enumerate bus_names) md.

Definition create_dicts_of_ptdf_losses (md : ModelData) (base_point : BasePointType)
  : result ModelData :=
  let branches := elements md branch in
  let buses := elements md bus in
  let branch_names := attribute_names md branch in
  let bus_names := attribute_names md bus in
  reference_bus ← ditem "reference_bus" (system md);
  pl ← calculate_ptdf_ldf branches buses branch_names bus_names reference_bus base_point;
  let ptdf_r := fst (fst pl) in
  let ldf := snd (fst pl) in
  let ldf_c := snd pl in
  phis ← calculate_phi_constant branches branch_names bus_names PTDF_LOSSES;
  let phi_from := fst phis in
  let phi_to := snd phis in
  phi_losses ← calculate_phi_loss_constant branches branch_names bus_names PTDF_LOSSES;
  let phi_loss_from := fst phi_losses in
  let phi_loss_to := snd phi_losses in
  md ← for_each (fun md ib =>
          let idx := fst ib in
          let branch_name := snd ib in
          _ ← ditem branch_name (elements md branch);
          _row_ptdf_r ← row_dict bus_names ptdf_r idx;
          md ← set_attr branch branch_name "ptdf_r" (VRow _row_ptdf_r) md;
          _row_ldf ← row_dict bus_names ldf idx;
          md ← set_attr branch branch_name "ldf" (VRow _row_ldf) md;
          c ← vget ldf_c idx;
          set_attr branch branch_name "ldf_c" (VFloat c) md)
        (enumerate branch_names) md;
  for_each (fun md ib =>
      let idx := fst ib in
      let bus_name := snd ib in
      _ ← ditem bus_name (elements md bus);
      _row_phi_from ← row_dict_nonzero branch_names phi_from idx;
      md ← set_attr bus bus_name "phi_from" (VRow _row_phi_from) md;
      _row_phi_to ← row_dict_nonzero branch_names phi_to idx;
      md ← set_attr bus bus_name "phi_to" (VRow _row_phi_to) md;
      _row_phi_loss_from ← row_dict_nonzero branch_names phi_loss_from idx;
      md ← set_attr bus bus_name "phi_loss_from" (VRow _row_phi_loss_from) md;
      _row_phi_loss_to ← row_dict_nonzero branch_names phi_loss_to idx;
      set_attr bus bus_name "phi_loss_to" (VRow _row_phi_loss_to) md)
    (enumerate bus_names) md.

End DataUtils.

(** ** Pyomo models, as far as EGRET looks into them *)

(** One member of a variable: value ([None] while uninitialised), bounds
    and the [fixed] flag. *)
Record VarData : Type := mkVarData {
  var_value : option value;
  var_lb : option float;
  var_ub : option float;
  var_fixed : bool
}.

(** A constraint member is named by its component and, for an indexed
    constraint, its index; this is the key of the [dual] suffix. *)
Definition constraint_key : Type := (string * option string)%type.

Inductive Component : Type :=
| CSet (members : list string)
| CVar (data : dict VarData)
| CScalarVar (data : VarData)
| CConstraint (index : option (list string))
| CObjective (current_value : option value)
| CSuffix (entries : list (constraint_key * float))
| COther (kind : string).

(** A block: its components by attribute name, in declaration order. *)
Definition PyomoModel : Type := dict Component.

(** [pe.ConcreteModel()] *)
Definition ConcreteModel : PyomoModel := [].

(** [model.add_component(name, c)]: a name can be declared only once. *)
Definition add_component (name : string) (c : Component) (model : PyomoModel)
  : result PyomoModel :=
  if dhas name model
  then Raise (RuntimeError ("Cannot add component '" +:+ name +:+ "': a component by that name is already defined."))
  else Ok (dset name c model).

Definition add_components (cs : list (string * Component)) (model : PyomoModel)
  : result PyomoModel :=
  for_each (fun m nc => add_component (fst nc) (snd nc) m) cs model.

(** [model.name = c] for a component [c]: declares or replaces. *)
Definition setattr_component (name : string) (c : Component) (model : PyomoModel)
  : PyomoModel := dset name c model.

(** [model.name] *)
Definition getattr_component (name : string) (model : PyomoModel)
  : result Component :=
  match dget name model with
  | Some c => Ok c
  | None => Raise (AttributeError name)
  end.

(** [model.name[k]] for an indexed variable. *)
Definition var_item (name k : string) (model : PyomoModel) : result VarData :=
  c ← getattr_component name model;
  match c with
  | CVar data => ditem k data
  | _ => Raise (TypeError ("'" +:+ name +:+ "' is not subscriptable"))
  end.

(** [value(model.name[k])] *)
Definition var_item_value (name k : string) (model : PyomoModel) : result value :=
  vd ← var_item name k model;
  match var_value vd with
  | Some v => Ok v
  | None => Raise (ValueError "No value for uninitialized NumericValue object")
  end.

(** [value(model.name)] for an objective. *)
Definition objective_value (name : string) (model : PyomoModel) : result value :=
  c ← getattr_component name model;
  match c with
  | CObjective (Some v) => Ok v
  | CObjective None => Raise (ValueError "No value for uninitialized NumericValue object")
  | _ => Raise (TypeError ("cannot evaluate '" +:+ name +:+ "'"))
  end.

Definition constraint_key_eqb (a b : constraint_key) : bool :=
  String.eqb (fst a) (fst b) &&
  match snd a, snd b with
  | None, None => true
  | Some i, Some j => String.eqb i j
  | _, _ => false
  end.

Fixpoint suffix_get (key : constraint_key) (entries : list (constraint_key * float))
  : option float :=
  match entries with
  | [] => None
  | (k, x) :: rest => if constraint_key_eqb key k then Some x else suffix_get key rest
  end.

(** [value(model.dual[model.cname])]: the suffix entry of a constraint
    taken as a whole. *)
Definition dual_of_scalar (cname : string) (model : PyomoModel) : result float :=
  suffix ← getattr_component "dual" model;
  _ ← getattr_component cname model;
  match suffix with
  | CSuffix entries =>
      match suffix_get (cname, None) entries with
      | Some x => Ok x
      | None => Raise (KeyError cname)
      end
  | _ => Raise (TypeError "'dual' is not subscriptable")
  end.

(** [value(model.dual[model.cname[k]])]: the suffix entry of member [k]
    of an indexed constraint. *)
Definition dual_of_member (cname k : string) (model : PyomoModel) : result float :=
  suffix ← getattr_component "dual" model;
  c ← getattr_component cname model;
  _ ← match c with
      | CConstraint (Some index) =>
          if existsb (String.eqb k) index then Ok tt else Raise (KeyError k)
      | _ => Raise (TypeError ("'" +:+ cname +:+ "' is not subscriptable"))
      end;
  match suffix with
  | CSuffix entries =>
      match suffix_get (cname, Some k) entries with
      | Some x => Ok x
      | None => Raise (KeyError (cname +:+ "[" +:+ k +:+ "]"))
      end
  | _ => Raise (TypeError "'dual' is not subscriptable")
  end.

(** ** [egret/model_library/decl.py] *)

(** The members of [pe.Set(initialize=index_set, ordered=True)]: the
    indices in the order given, a repeated index counted once. *)
Fixpoint ordered_set (index_set : list string) : list string :=
  match index_set with
  | [] => []
  | k :: rest => k :: List.filter (fun k' => negb (String.eqb k' k)) (ordered_set rest)
  end.

(** What [v.lb] and [v.ub] read for a bound given as [x]: minus
    infinity as a lower bound, and plus infinity as an upper bound, read
    as no bound.  (Reading a bound that is infinite in the other
    direction, or not a number, raises; the model keeps such a bound as
    given.) *)
Definition stored_lb (x : float) : option float :=
  if PrimFloat.eqb x neg_infinity then None else Some x.

Definition stored_ub (x : float) : option float :=
  if PrimFloat.eqb x infinity then None else Some x.

(** [x] is a number: neither an infinity nor a NaN. *)
Definition finite (x : float) : bool :=
  PrimFloat.eqb x x && negb (PrimFloat.eqb x infinity)
  && negb (PrimFloat.eqb x neg_infinity).

(** One member of [pe.Var(index_set, initialize=..., bounds=...)]: the
    bounds rule is called on the index, and an index missing from the
    [initialize] dictionary stays without a value. *)
Definition construct_member (initialize : option (dict value))
  (bounds_rule : option (string -> result (float * float))) (k : string)
  : result (string * VarData) :=
  b ← match bounds_rule with
      | Some rule => lu ← rule k; Ok (stored_lb (fst lu), stored_ub (snd lu))
      | None => Ok (None, None)
      end;
  let v := match initialize with
           | Some init => dget k init
           | None => None
           end in
  Ok (k, mkVarData v (fst b) (snd b) false).

(** [pe.Var(index_set, initialize=..., bounds=...)] when it is
    constructed: the keys of the [initialize] dictionary are visited
    first, and one that is no member of the index set is a [KeyError];
    then every member of the index set gets its variable. *)
Definition construct_indexed_var (index_set : list string)
  (initialize : option (dict value))
  (bounds_rule : option (string -> result (float * float)))
  : result (dict VarData) :=
  let members := ordered_set index_set in
  _ ← mapM (fun k =>
          if existsb (String.eqb k) members
          then construct_member initialize bounds_rule k
          else Raise (KeyError k))
        (match initialize with Some init => dkeys init | None => [] end);
  kvs ← mapM (construct_member initialize bounds_rule) members;
  Ok (dict_of kvs).

(** [pe.Var(initialize=..., bounds=...)] without index set: a key of the
    [initialize] dictionary is no index of a scalar variable, and the
    bounds rule is called with the index [None]. *)
Definition construct_scalar_var (initialize : option (dict value))
  (bounds_rule : option (string -> result (float * float)))
  : result VarData :=
  match initialize with
  | Some ((k, _) :: _) => Raise (KeyError k)
  | _ =>
      match bounds_rule with
      | Some _ => Raise (KeyError "None")
      | None => Ok (mkVarData None None None false)
      end
  end.

(** [model.add_component(name, c)] for a component that is constructed
    when it is attached: the name is checked before the construction
    runs. *)
Definition add_component_constructing (name : string)
  (construct : result Component) (model : PyomoModel) : result PyomoModel :=
  if dhas name model
  then Raise (RuntimeError ("Cannot add component '" +:+ name +:+ "': a component by that name is already defined."))
  else c ← construct; Ok (dset name c model).

(** [declare_var(varname, model, index_set, **kwargs)] with the keyword
    arguments used by the callers: [initialize] and [bounds], both given
    as dictionaries.  A dictionary of bounds becomes the rule
    [lambda m, k: (d[k][0], d[k][1])]. *)
Definition declare_var (varname : string) (model : PyomoModel)
  (index_set : option (list string))
  (initialize : option (dict value)) (bounds : option (dict (float * float)))
  : result PyomoModel :=
  let bounds_rule :=
    match bounds with
    | Some d => Some (fun k => lu ← ditem k d; Ok (fst lu, snd lu))
    | None => None
    end in
  match index_set with
  | None =>
      add_component_constructing varname
        (vd ← construct_scalar_var initialize bounds_rule; Ok (CScalarVar vd)) model
  | Some index_set =>
      let pyomo_index_set := CSet (ordered_set index_set) in
      model ← add_component ("_var_" +:+ varname +:+ "_index_set") pyomo_index_set model;
      add_component_constructing varname
        (data ← construct_indexed_var index_set initialize bounds_rule;
         Ok (CVar data)) model
  end.

(** [declare_set(setname, model, index_set, **kwargs)]: the index set
    becomes a Pyomo [Set] (ordered unless the caller says otherwise),
    attached under [setname] and returned. *)
Definition declare_set (setname : string) (model : PyomoModel)
  (index_set : list string) : result (PyomoModel * Component) :=
  let pyomo_index_set := CSet (ordered_set index_set) in
  model ← add_component setname pyomo_index_set model;
  Ok (model, pyomo_index_set).

(** [model.name.fix()]: every member is fixed at its current value. *)
Definition fix_all (name : string) (model : PyomoModel) : result PyomoModel :=
  c ← getattr_component name model;
  match c with
  | CVar data =>
      Ok (dset name (CVar (map (fun kv =>
            (fst kv, mkVarData (var_value (snd kv)) (var_lb (snd kv))
                               (var_ub (snd kv)) true)) data)) model)
  | CScalarVar vd =>
      Ok (dset name (CScalarVar (mkVarData (var_value vd) (var_lb vd) (var_ub vd) true)) model)
  | _ => Raise (AttributeError "fix")
  end.

(** [model.name[k].fix(x)]: the member takes the value [x] and is fixed. *)
Definition fix_item (name k : string) (x : value) (model : PyomoModel)
  : result PyomoModel :=
  vd ← var_item name k model;
  match dget name model with
  | Some (CVar data) =>
      Ok (dset name (CVar (dset k (mkVarData (Some x) (var_lb vd) (var_ub vd) true) data)) model)
  | _ => Raise (AttributeError name)
  end.

(** ** The world a call runs in *)

(** [pyomo.opt.TerminationCondition] belongs to Pyomo, not to EGRET; its
    members are listed as Pyomo declares them. *)
Module TerminationCondition.
Inductive t : Type :=
| unknown | maxTimeLimit | maxIterations | minFunctionValue | minStepLength
| globallyOptimal | locallyOptimal | feasible | optimal | maxEvaluations
| other | unbounded | infeasible | infeasibleOrUnbounded | invalidProblem
| intermediateNonInteger | noSolution | solverFailure | internalSolverError
| error | userInterrupt | resourceInterrupt | licensingProblems.

#[global] Instance eq_dec : EqDecision t.
Proof. solve_decision. Defined.

(** [str(tc)] *)
Definition name (tc : t) : string :=
  match tc with
  | unknown => "unknown" | maxTimeLimit => "maxTimeLimit"
  | maxIterations => "maxIterations" | minFunctionValue => "minFunctionValue"
  | minStepLength => "minStepLength" | globallyOptimal => "globallyOptimal"
  | locallyOptimal => "locallyOptimal" | feasible => "feasible"
  | optimal => "optimal" | maxEvaluations => "maxEvaluations"
  | other => "other" | unbounded => "unbounded" | infeasible => "infeasible"
  | infeasibleOrUnbounded => "infeasibleOrUnbounded"
  | invalidProblem => "invalidProblem"
  | intermediateNonInteger => "intermediateNonInteger"
  | noSolution => "noSolution" | solverFailure => "solverFailure"
  | internalSolverError => "internalSolverError" | error => "error"
  | userInterrupt => "userInterrupt" | resourceInterrupt => "resourceInterrupt"
  | licensingProblems => "licensingProblems"
  end.
End TerminationCondition.

(** An instantiated Pyomo solver: its [name], its [options] and whether
    it is a [PersistentSolver]. *)
Record Solver : Type := mkSolver {
  solver_name : string;
  solver_options : dict value;
  solver_persistent : bool
}.

(** What a caller may pass as [solver]. *)
Inductive solver_arg : Type :=
| SolverName (name : string)
| SolverObject (s : Solver)
| SolverOther (v : value).

(** [results.solver] of a Pyomo results object. *)
Record SolverResults : Type := mkSolverResults {
  termination_condition : TerminationCondition.t;
  termination_message : string
}.

(** The external solver: [SolverFactory(name)], the
    [set_instance(model, symbolic_solver_labels=...)] of a persistent
    solver, and a blocking [solver.solve(model, tee=...,
    symbolic_solver_labels=...)] (the last keyword is optional), which
    loads the solution into the model and returns the results object, or
    raises. *)
Class SolverBackend : Type := {
  SolverFactory : string -> result Solver;
  solver_set_instance : Solver -> PyomoModel -> bool -> result Solver;
  solver_solve :
    Solver -> PyomoModel -> bool -> option bool -> result (PyomoModel * SolverResults)
}.

Definition addr : Type := positive.

(** Snapshots live in a heap and are passed by reference; every
    [solver.solve] call is logged. *)
Record world : Type := mkWorld {
  heap : gmap addr ModelData;
  solver_log : list Solver
}.

Definition eff (A : Type) : Type := world -> world * result A.

#[global] Instance eff_ret : MRet eff := fun A a w => (w, Ok a).
#[global] Instance eff_bind : MBind eff :=
  fun A B f m w =>
    match m w with
    | (w', Ok a) => f a w'
    | (w', Raise e) => (w', Raise e)
    end.

Definition raise {A} (e : exn) : eff A := fun w => (w, Raise e).
Definition lift {A} (r : result A) : eff A := fun w => (w, r).

(** A new snapshot object. *)
Definition alloc (md : ModelData) : eff addr :=
  fun w =>
    let a := fresh (dom (heap w)) in
    (mkWorld (<[a := md]> (heap w)) (solver_log w), Ok a).

(** Reading the snapshot behind a reference. *)
Definition load_md (a : addr) : eff ModelData :=
  fun w =>
    match heap w !! a with
    | Some md => (w, Ok md)
    | None => (w, Raise (RuntimeError "dangling reference"))
    end.

(** Running an in-place update [f] on the snapshot behind a reference.
    When [f] raises, the exception propagates; the snapshots touched in
    this development are then local to the raising call, and are left
    as they were before [f]. *)
Definition update_md (a : addr) (f : ModelData -> result ModelData) : eff unit :=
  fun w =>
    match heap w !! a with
    | Some md =>
        match f md with
        | Ok md' => (mkWorld (<[a := md']> (heap w)) (solver_log w), Ok tt)
        | Raise e => (w, Raise e)
        end
    | None => (w, Raise (RuntimeError "dangling reference"))
    end.

(** ** [egret/common/solver_interface.py] *)

(** [needle in hay] on strings. *)
Fixpoint contains (needle hay : string) : bool :=
  String.prefix needle hay ||
  match hay with
  | EmptyString => false
  | String _ hay' => contains needle hay'
  end.

Definition set_option (k : string) (v : value) (solver : Solver) : Solver :=
  mkSolver (solver_name solver) (dset k v (solver_options solver))
           (solver_persistent solver).

Definition set_option_if_given (k : string) (v : option float) (solver : Solver)
  : Solver :=
  match v with
  | Some x => set_option k (VFloat x) solver
  | None => solver
  end.

Definition _set_options (solver : Solver) (mipgap timelimit : option float)
  (other_options : option (dict value)) : Solver :=
  let solver_name := solver_name solver in
  let solver :=
    if contains "gurobi" solver_name then
      set_option_if_given "TimeLimit" timelimit
        (set_option_if_given "MIPGap" mipgap solver)
    else if contains "cplex" solver_name then
      set_option_if_given "timelimit" timelimit
        (set_option_if_given "mip_tolerances_mipgap" mipgap solver)
    else if contains "glpk" solver_name then
      set_option_if_given "tmlim" timelimit
        (set_option_if_given "mipgap" mipgap solver)
    else if contains "cbc" solver_name then
      set_option_if_given "sec" timelimit
        (set_option_if_given "ratioGap" mipgap solver)
    else solver in
  match other_options with
  | Some other_options =>
      fold_left (fun s kv => set_option (fst kv) (snd kv) s) other_options solver
  | None => solver
  end.

(** The names bound in the module [solver_interface]: its two [from ...
    import] lines and its two functions.  Any other global name raises
    [NameError] when evaluated. *)
Definition module_globals : list string :=
  ["SolverFactory"; "TerminationCondition"; "PersistentSolver";
   "_set_options"; "_solve_model"].

Definition global_name (n : string) : result unit :=
  if existsb (String.eqb n) module_globals then Ok tt else Raise (NameError n).

(** [getattr(results.solver, a)]: Pyomo's container raises
    [AttributeError] for an attribute it does not declare. *)
Definition solver_results_getattr (r : SolverResults) (a : string)
  : result string :=
  if String.eqb a "termination_condition"
  then Ok (TerminationCondition.name (termination_condition r))
  else if String.eqb a "termination_message" then Ok (termination_message r)
  else Raise (AttributeError a).

Definition safe_termination_conditions : list TerminationCondition.t :=
  [TerminationCondition.maxTimeLimit;
   TerminationCondition.maxIterations;
   TerminationCondition.minFunctionValue;
   TerminationCondition.minStepLength;
   TerminationCondition.globallyOptimal;
   TerminationCondition.locallyOptimal;
   TerminationCondition.feasible;
   TerminationCondition.optimal;
   TerminationCondition.maxEvaluations;
   TerminationCondition.other].

Section SolverInterface.
Context `{SolverBackend}.

(** [solver.solve(model, ...)], logged. *)
Definition solve_call (solver : Solver) (model : PyomoModel)
  (tee : bool) (symbolic_solver_labels : option bool)
  : eff (PyomoModel * SolverResults) :=
  fun w =>
    (mkWorld (heap w) (solver_log w ++ [solver]),
     solver_solve solver model tee symbolic_solver_labels).

Definition _solve_model (model : PyomoModel) (solver : solver_arg)
  (mipgap timelimit : option float) (solver_tee symbolic_solver_labels : bool)
  (options : option (dict value)) : eff (PyomoModel * SolverResults) :=
  solver ← match solver with
           | SolverName name => lift (SolverFactory name)
           | _ =>
               (* [isinstance(solver, pyomo.opt.base.OptSolver)] *)
               _ ← lift (global_name "pyomo");
               match solver with
               | SolverObject s => mret s
               | _ => raise (Exception "solver must be string or an instanciated pyomo solver")
               end
           end;
  let solver := _set_options solver mipgap timelimit options in
  mr ← (if solver_persistent solver then
          solver ← lift (solver_set_instance solver model symbolic_solver_labels);
          solve_call solver model solver_tee None
        else
          solve_call solver model solver_tee (Some symbolic_solver_labels));
  let model := fst mr in
  let results := snd mr in
  if negb (bool_decide (termination_condition results ∈ safe_termination_conditions))
  then
    reported ← lift (solver_results_getattr results "terminataion_condition");
    raise (Exception ("Problem encountered during solve, termination_condition " +:+ reported))
  else mret (model, results).

End SolverInterface.

(** ** [egret/models/dcopf_losses.py] *)

Inductive RelaxationType : Type := SOC | RelaxationOther (name : string).

(** The modules of EGRET these functions call and that are not part of
    the sources ([egret.data.model_data], [tx_utils], the [bus], [branch]
    and [gen] libraries, and the two slack helpers) are taken as
    parameters.  The declaration helpers are registration helpers: each
    is given the snapshot and the model built so far and returns the
    named components it attaches, which the builder adds with
    [add_component]; like [decl.declare_var], they declare new names
    and leave the components already on the model alone. *)
Class EgretLibrary : Type := {
  (** the content [clone_in_service] copies *)
  in_service : ModelData -> ModelData;
  (** [tx_utils.scale_ModelData_to_pu(md, inplace=True)] *)
  scale_ModelData_to_pu : ModelData -> result ModelData;
  (** [tx_utils.unscale_ModelData_to_pu(md, inplace=True)] *)
  unscale_ModelData_to_pu : ModelData -> result ModelData;
  inlet_outlet_branches_by_bus :
    dict elem -> dict elem -> result (dict (list string) * dict (list string));
  gens_by_bus : dict elem -> dict elem -> result (dict (list string));
  dict_of_bus_loads : dict elem -> dict elem -> result (dict value * dict value);
  dict_of_bus_fixed_shunts : dict elem -> dict elem -> result (dict value * dict value);
  (** [libgen.declare_var_pg] with its initial values and bounds
      (lines 87-91 and 219-223) *)
  declare_generation : ModelData -> PyomoModel -> result (list (string * Component));
  (** [egret.models.dcopf._include_feasibility_slack] *)
  _include_feasibility_slack :
    ModelData -> PyomoModel -> dict value -> result (list (string * Component));
  (** [egret.models.copperplate_dispatch._include_system_feasibility_slack] *)
  _include_system_feasibility_slack :
    ModelData -> PyomoModel -> dict value -> result (list (string * Component));
  (** branch variables, constraints and objective of the angle-based
      model (lines 93-181) *)
  declare_btheta_losses :
    ModelData -> PyomoModel -> RelaxationType -> bool -> bool ->
    result (list (string * Component));
  (** branch variables, constraints and objective of the PTDF-based
      model (lines 230-309) *)
  declare_ptdf_losses :
    ModelData -> PyomoModel -> bool -> result (list (string * Component))
}.

(** Modelled from the spec: [libbus.declare_var_pl], [libbus.declare_var_va]
    and [libbranch.declare_var_dva] are absent from the sources; they are
    registration helpers that attach the named array through
    [decl.declare_var]. *)
Definition declare_var_pl (model : PyomoModel) (index_set : list string)
  (initialize : dict value) : result PyomoModel :=
  declare_var "pl" model (Some index_set) (Some initialize) None.

Definition declare_var_va (model : PyomoModel) (index_set : list string)
  (initialize : dict value) (bounds : dict (float * float)) : result PyomoModel :=
  declare_var "va" model (Some index_set) (Some initialize) (Some bounds).

Definition declare_var_dva (model : PyomoModel) (index_set : list string)
  (initialize : dict value) : result PyomoModel :=
  declare_var "dva" model (Some index_set) (Some initialize) None.

(** [model.va[ref_bus].fix(radians(ref_angle))] *)
Definition fix_reference_angle (ref_bus ref_angle : value) (model : PyomoModel)
  : result PyomoModel :=
  match ref_bus with
  | VStr b =>
      _ ← var_item "va" b model;
      match ref_angle with
      | VFloat x => fix_item "va" b (VFloat (Py.radians x)) model
      | _ => Raise (TypeError "must be real number")
      end
  | _ => Raise (KeyError "reference_bus")
  end.

Section DcopfLosses.
Context `{TxCalc} `{EgretLibrary} `{SolverBackend}.

(** Modelled from the spec: [ModelData.clone_in_service] is absent from
    the sources; "the Network Snapshot is cloned before model formulation
    (formulation never mutates the caller's original)": a new snapshot
    object that shares nothing with the original. *)
Definition clone_in_service (model_data : addr) : eff addr :=
  md ← load_md model_data;
  alloc (in_service md).

(** Lines 38-181 of [create_btheta_losses_dcopf_model]: the formulation,
    which reads the scaled clone. *)
Definition btheta_losses_formulation (md : ModelData)
  (relaxation_type : RelaxationType)
  (include_angle_diff_limits include_feasibility_slack : bool)
  : result PyomoModel :=
  let gens := elements md generator in
  let buses := elements md bus in
  let branches := elements md branch in
  let loads := elements md load in
  let shunts := elements md shunt in
  let bus_names := attribute_names md bus in
  let branch_names := attribute_names md branch in
  _ ← inlet_outlet_branches_by_bus branches buses;
  _ ← gens_by_bus buses gens;
  let model := ConcreteModel in
  bus_loads ← dict_of_bus_loads buses loads;
  let bus_p_loads := fst bus_loads in
  model ← declare_var_pl model bus_names bus_p_loads;
  model ← fix_all "pl" model;
  _ ← dict_of_bus_fixed_shunts buses shunts;
  bus_va ← attribute md bus "va";
  let va_bounds := dict_of (map (fun k => (k, (- Py.pi, Py.pi)%float)) (dkeys bus_va)) in
  model ← declare_var_va model bus_names bus_va va_bounds;
  let dva_initialize := dict_of (map (fun k => (k, VFloat 0)) branch_names) in
  model ← declare_var_dva model branch_names dva_initialize;
  model ← (if include_feasibility_slack then
             cs ← _include_feasibility_slack md model bus_p_loads;
             add_components cs model
           else Ok model);
  ref_bus ← ditem "reference_bus" (system md);
  ref_angle ← ditem "reference_bus_angle" (system md);
  model ← fix_reference_angle ref_bus ref_angle model;
  cs ← declare_generation md model;
  model ← add_components cs model;
  cs ← declare_btheta_losses md model relaxation_type include_angle_diff_limits
         include_feasibility_slack;
  add_components cs model.

Definition create_btheta_losses_dcopf_model (model_data : addr)
  (relaxation_type : RelaxationType)
  (include_angle_diff_limits include_feasibility_slack : bool)
  : eff (PyomoModel * addr) :=
  md ← clone_in_service model_data;
  _ ← update_md md scale_ModelData_to_pu;
  snapshot ← load_md md;
  model ← lift (btheta_losses_formulation snapshot relaxation_type
                  include_angle_diff_limits include_feasibility_slack);
  mret (model, md).

(** Lines 192-309 of [create_ptdf_losses_dcopf_model]. *)
Definition ptdf_losses_formulation (md : ModelData)
  (include_feasibility_slack : bool) : result PyomoModel :=
  let gens := elements md generator in
  let buses := elements md bus in
  let branches := elements md branch in
  let loads := elements md load in
  let shunts := elements md shunt in
  let bus_names := attribute_names md bus in
  _ ← inlet_outlet_branches_by_bus branches buses;
  _ ← gens_by_bus buses gens;
  let model := ConcreteModel in
  bus_loads ← dict_of_bus_loads buses loads;
  let bus_p_loads := fst bus_loads in
  model ← declare_var_pl model bus_names bus_p_loads;
  model ← fix_all "pl" model;
  _ ← dict_of_bus_fixed_shunts buses shunts;
  cs ← declare_generation md model;
  model ← add_components cs model;
  model ← (if include_feasibility_slack then
             cs ← _include_system_feasibility_slack md model bus_p_loads;
             add_components cs model
           else Ok model);
  cs ← declare_ptdf_losses md model include_feasibility_slack;
  add_components cs model.

Definition create_ptdf_losses_dcopf_model (model_data : addr)
  (include_feasibility_slack : bool) : eff (PyomoModel * addr) :=
  md ← clone_in_service model_data;
  _ ← update_md md scale_ModelData_to_pu;
  _ ← update_md md (fun md => create_dicts_of_ptdf_losses md SOLUTION);
  snapshot ← load_md md;
  model ← lift (ptdf_losses_formulation snapshot include_feasibility_slack);
  mret (model, md).

(** The function passed as [dcopf_losses_model_generator]: one of the
    two builders of this module, or any other callable. *)
Inductive model_generator : Type :=
| btheta_generator
| ptdf_generator
| other_generator (f : addr -> eff (PyomoModel * addr)).

Definition is_btheta (g : model_generator) : bool :=
  match g with btheta_generator => true | _ => false end.

Definition is_ptdf (g : model_generator) : bool :=
  match g with ptdf_generator => true | _ => false end.

(** [**kwargs] of [solve_dcopf_losses], handed to the generator. *)
Record builder_kwargs : Type := mkKwargs {
  kw_relaxation_type : option RelaxationType;
  kw_include_angle_diff_limits : option bool;
  kw_include_feasibility_slack : option bool
}.

(** [dcopf_losses_model_generator(model_data, **kwargs)] *)
Definition call_generator (g : model_generator) (model_data : addr)
  (kwargs : builder_kwargs) : eff (PyomoModel * addr) :=
  match g with
  | btheta_generator =>
      create_btheta_losses_dcopf_model model_data
        (default SOC (kw_relaxation_type kwargs))
        (default false (kw_include_angle_diff_limits kwargs))
        (default false (kw_include_feasibility_slack kwargs))
  | ptdf_generator =>
      match kw_relaxation_type kwargs, kw_include_angle_diff_limits kwargs with
      | None, None =>
          create_ptdf_losses_dcopf_model model_data
            (default false (kw_include_feasibility_slack kwargs))
      | _, _ => raise (TypeError "got an unexpected keyword argument")
      end
  | other_generator f => f model_data
  end.

(** [k_dict[a][b]] for a row attribute [a] of a branch. *)
Definition row_item (a b : string) (k_dict : elem) : result float :=
  r ← ditem a k_dict;
  match r with
  | VRow row => ditem b row
  | _ => Raise (TypeError "string indices must be integers")
  end.

(** [b_dict[a]] read as a number. *)
Definition float_item (a : string) (b_dict : elem) : result float :=
  v ← ditem a b_dict;
  match v with
  | VFloat x => Ok x
  | _ => Raise (TypeError "unsupported operand type(s) for +=")
  end.

(** Lines 383-385: the two [+=] of one branch. *)
Definition add_branch_terms (m : PyomoModel) (b : string) (b_dict : elem)
  (kk : string * elem) : result elem :=
  let k := fst kk in
  let k_dict := snd kk in
  lmp ← float_item "lmp" b_dict;
  ptdf_r ← row_item "ptdf_r" b k_dict;
  dual_pf ← dual_of_member "eq_pf_branch" k m;
  let b_dict := dset "lmp" (VFloat (lmp + ptdf_r * dual_pf)%float) b_dict in
  lmp ← float_item "lmp" b_dict;
  ldf ← row_item "ldf" b k_dict;
  dual_pfl ← dual_of_member "eq_pfl_branch" k m;
  Ok (dset "lmp" (VFloat (lmp + ldf * dual_pfl)%float) b_dict).

(** Lines 376-385: the body of the loop over the buses. *)
Definition save_bus (g : model_generator) (m : PyomoModel) (branches : dict elem)
  (b : string) (b_dict : elem) : result elem :=
  pl ← var_item_value "pl" b m;
  let b_dict := dset "pl" pl b_dict in
  let b_dict := dpop "qlmp" b_dict in
  b_dict ← (if is_btheta g then
              lmp ← dual_of_member "eq_p_balance" b m;
              let b_dict := dset "lmp" (VFloat lmp) b_dict in
              va ← var_item_value "va" b m;
              Ok (dset "va" va b_dict)
            else Ok b_dict);
  if is_ptdf g then
    lmp ← dual_of_scalar "eq_p_balance" m;
    let b_dict := dset "lmp" (VFloat lmp) b_dict in
    for_each (add_branch_terms m b) branches b_dict
  else Ok b_dict.

(** Lines 365-388: "save results data to ModelData object". *)
Definition save_results (g : model_generator) (m : PyomoModel) (md : ModelData)
  : result ModelData :=
  total_cost ← objective_value "obj" m;
  let md := with_system (dset "total_cost" total_cost (system md)) md in
  gens ← for_items (fun g g_dict =>
            pg ← var_item_value "pg" g m; Ok (dset "pg" pg g_dict))
          (elements md generator);
  let md := with_elements generator gens md in
  buses ← for_items (save_bus g m (elements md branch)) (elements md bus);
  let md := with_elements bus buses md in
  branches ← for_items (fun k k_dict =>
                pf ← var_item_value "pf" k m; Ok (dset "pf" pf k_dict))
              (elements md branch);
  Ok (with_elements branch branches md).

(** What [solve_dcopf_losses] returns, by its two flags. *)
Inductive solve_return : Type :=
| ReturnMd (md : addr)
| ReturnMdModel (md : addr) (m : PyomoModel)
| ReturnMdResults (md : addr) (results : SolverResults)
| ReturnMdModelResults (md : addr) (m : PyomoModel) (results : SolverResults).

Definition returned_md (r : solve_return) : addr :=
  match r with
  | ReturnMd md | ReturnMdModel md _ | ReturnMdResults md _
  | ReturnMdModelResults md _ _ => md
  end.

Definition solve_dcopf_losses (model_data : addr) (solver : solver_arg)
  (timelimit : option float) (solver_tee symbolic_solver_labels : bool)
  (options : option (dict value))
  (dcopf_losses_model_generator : model_generator)
  (return_model return_results : bool) (kwargs : builder_kwargs)
  : eff solve_return :=
  mmd ← call_generator dcopf_losses_model_generator model_data kwargs;
  let m := fst mmd in
  let md := snd mmd in
  let m := setattr_component "dual" (CSuffix []) m in
  mr ← _solve_model m solver (Some 0x1.0624dd2f1a9fcp-10%float) timelimit solver_tee
         symbolic_solver_labels options;
  let m := fst mr in
  let results := snd mr in
  _ ← update_md md (save_results dcopf_losses_model_generator m);
  _ ← update_md md unscale_ModelData_to_pu;
  mret (if return_model && return_results then ReturnMdModelResults md m results
        else if return_model then ReturnMdModel md m
        else if return_results then ReturnMdResults md results
        else ReturnMd md).

End DcopfLosses.

(** ** [egret/model_library/unit_commitment/uc_utils.py] *)

Module UcUtils.

(** The value of an attribute of the model: a string (the tags set by
    [add_model_attr] are function names) or some other object. *)
Inductive attr_value : Type :=
| AStr (s : string)
| AObj (id : nat).

(** [str(v)] *)
Definition attr_str (v : attr_value) : string :=
  match v with
  | AStr s => s
  | AObj _ => "<object>"
  end.

(** The attributes of the model object ([hasattr], [getattr], [setattr]). *)
Definition model : Type := dict attr_value.

(** A decorated function: its [__name__] and its effect on the model it
    receives as first argument, with the value it returns or the
    exception it raises. *)
Record function : Type := mkFunction {
  func_name : string;
  func_body : model -> model * result value
}.

(** The model and the log of the wrapped functions that were invoked. *)
Record state : Type := mkState {
  st_model : model;
  st_calls : list string
}.

(** [v in allowed] for a list of strings. *)
Definition attr_in (v : attr_value) (allowed : list string) : bool :=
  match v with
  | AStr s => existsb (String.eqb s) allowed
  | AObj _ => false
  end.

(** The body of [for base_attr in requires]. *)
Definition check_required (name : string) (requires : dict (option (list string)))
  (m : model) (base_attr : string) : result unit :=
  match dget base_attr m with
  | None =>
      Raise (Exception ("Exception adding " +:+ name +:+ "! " +:+ name +:+
                        " requires some " +:+ base_attr +:+ " to be added first!"))
  | Some v =>
      allowed ← ditem base_attr requires;
      match allowed with
      | None => Ok tt
      | Some allowed =>
          if negb (attr_in v allowed) then
            Raise (Exception ("Exception adding " +:+ name +:+ "! " +:+ name +:+
                              " requires one of: " +:+ String.concat ", " allowed +:+
                              ", to be added first."))
          else Ok tt
      end
  end.

(** [wrapper(model, ...)] of [add_model_attr(attr, requires)(func)]. *)
Definition add_model_attr (attr : string) (requires : dict (option (list string)))
  (func : function) (st : state) : state * result value :=
  let m := st_model st in
  match dget attr m with
  | Some v =>
      (st, Raise (Exception ("Exception adding " +:+ func_name func +:+
                             "! Model already has " +:+ attr +:+ " " +:+ attr_str v +:+
                             "! You may only add one type of " +:+ attr +:+ "!")))
  | None =>
      match for_each (fun _ base_attr => check_required (func_name func) requires m base_attr)
                     (dkeys requires) tt with
      | Raise e => (st, Raise e)
      | Ok _ =>
          let m := dset attr (AStr (func_name func)) m in
          let mr := func_body func m in
          (mkState (fst mr) (st_calls st ++ [func_name func]), snd mr)
      end
  end.

(** A requirement [base_attr] of [requires] is not met by the model: the
    attribute is absent, or [requires] gives a list of allowed values and
    the attribute's value is not in it. *)
Definition requirement_unmet (requires : dict (option (list string))) (m : model)
  (base_attr : string) : Prop :=
  match dget base_attr m with
  | None => True
  | Some v =>
      exists allowed,
        dget base_attr requires = Some (Some allowed) /\ attr_in v allowed = false
  end.

(** The three reasons for which the wrapper refuses a call. *)
Definition refused (attr : string) (requires : dict (option (list string)))
  (m : model) : Prop :=
  dhas attr m = true \/
  exists base_attr, In base_attr (dkeys requires) /\ requirement_unmet requires m base_attr.

End UcUtils.

(** ** Data for worked examples *)

(** A solver double: [SolverFactory] builds a solver of the requested
    name, and every solve answers with [answer]. *)
Definition scripted_backend
  (answer : PyomoModel -> result (PyomoModel * SolverResults)) : SolverBackend :=
  {| SolverFactory name := Ok (mkSolver name [] false);
     solver_set_instance s _ _ := Ok s;
     solver_solve _ m _ _ := answer m |}.

(** A solver double that loads nothing and reports [tc]. *)
Definition reporting_backend (tc : TerminationCondition.t) : SolverBackend :=
  scripted_backend (fun m => Ok (m, mkSolverResults tc "")).

Definition empty_world : world := mkWorld ∅ [].

(** ** Properties of the driver *)

(** The statuses the specification lists as accepted. *)
Definition spec_accepted_statuses : list TerminationCondition.t :=
  [TerminationCondition.optimal;
   TerminationCondition.locallyOptimal;
   TerminationCondition.globallyOptimal;
   TerminationCondition.feasible;
   TerminationCondition.maxTimeLimit;
   TerminationCondition.maxIterations;
   TerminationCondition.maxEvaluations;
   TerminationCondition.other].

(** Lines 128-133 of [_solve_model] seen from the solver's side: what
    the blocking solve request answers for the configured solver. *)
Definition solve_request `{SolverBackend} (solver : Solver) (model : PyomoModel)
  (solver_tee symbolic_solver_labels : bool) : result (PyomoModel * SolverResults) :=
  if solver_persistent solver then
    solver ← solver_set_instance solver model symbolic_solver_labels;
    solver_solve solver model solver_tee None
  else solver_solve solver model solver_tee (Some symbolic_solver_labels).

(** ** Properties of stored rows *)


Definition row_complete (names : list string) (r : dict float) : Prop :=
  forall k, In k names -> dhas k r = true.


(** The two functions of [data_utils], and the attributes they write. *)
Inductive sensitivity_dicts : Type := ptdf_dicts | ptdf_losses_dicts.

Definition create_dicts `{TxCalc} (which : sensitivity_dicts)
  : ModelData -> BasePointType -> result ModelData :=
  match which with
  | ptdf_dicts => create_dicts_of_ptdf
  | ptdf_losses_dicts => create_dicts_of_ptdf_losses
  end.

(** Rows written on every bus, keyed by branch. *)
Definition phi_attributes (which : sensitivity_dicts) : list string :=
  match which with
  | ptdf_dicts => ["phi_from"; "phi_to"]
  | ptdf_losses_dicts => ["phi_from"; "phi_to"; "phi_loss_from"; "phi_loss_to"]
  end.


(** A two-bus network: [bus1] is the reference bus, [line1] runs from
    [bus1] to [bus2], one generator at [bus1] with a linear cost, one
    load at [bus2]. *)
Definition two_bus_network : ModelData :=
  {| system := [("baseMVA", VFloat 1); ("reference_bus", VStr "bus1");
                ("reference_bus_angle", VFloat 180)];
     buses := [("bus1", [("va", VFloat 0); ("vm", VFloat 1); ("qlmp", VFloat 3)]);
               ("bus2", [("va", VFloat 0); ("vm", VFloat 1)])];
     branches := [("line1", [("from_bus", VStr "bus1"); ("to_bus", VStr "bus2");
                             ("rating_long_term", VFloat 100)])];
     generators := [("gen1", [("bus", VStr "bus1"); ("pg", VFloat 0);
                              ("p_min", VFloat 0); ("p_max", VFloat 100);
                              ("p_cost", VCostCurve "polynomial"
                                           [(0%Z, 0%float); (1%Z, 10%float)])])];
     loads := [("load1", [("bus", VStr "bus2"); ("p_load", VFloat 50)])];
     shunts := [] |}.

(** Sensitivity factors for [two_bus_network]: the column of the
    reference bus is zero in the PTDF and LDF matrices, and the phi
    matrices (one row per bus, one column per branch) have a zero in the
    row of [bus1]. *)
Definition two_bus_tx_calc : TxCalc :=
  {| calculate_ptdf _ _ _ _ _ _ := Ok [[0; -1]]%float;
     calculate_ptdf_ldf _ _ _ _ _ _ :=
       Ok ([[0; -1]], [[0; 0.125]], [0.5])%float;
     calculate_phi_constant _ _ _ _ := Ok ([[0]; [0.25]], [[0]; [0.5]])%float;
     calculate_phi_loss_constant _ _ _ _ := Ok ([[0]; [0.125]], [[0]; [0.25]])%float |}.

(** A stand-in for the absent EGRET modules, good for
    [two_bus_network]: every element is in service; the base power is 1,
    so that scaling to per unit and back changes no value; the bus loads
    are summed from the loads; the declarations read the attributes
    the builders read and attach the variables, constraints and
    objective by their EGRET names. *)
Definition elem_is_at (b : string) (e : elem) : bool :=
  match dget "bus" e with
  | Some (VStr b') => String.eqb b b'
  | _ => false
  end.

Definition float_attr (a : string) (e : elem) : float :=
  match dget a e with
  | Some (VFloat x) => x
  | _ => 0%float
  end.

Definition example_bus_loads (buses loads : dict elem) : dict value :=
  map (fun be =>
         (fst be,
          VFloat (fold_left (fun acc le =>
                    if elem_is_at (fst be) (snd le)
                    then (acc + float_attr "p_load" (snd le))%float else acc)
                  loads 0%float)))
      buses.

Definition free_var (names : list string) : Component :=
  CVar (map (fun k => (k, mkVarData None None None false)) names).

(** Lines 88-91 and 220-223: the initial dispatch is the middle of
    [p_min] and [p_max] for every generator that has a [pg], the bounds
    are [zip_items(p_min, p_max)], and [libgen.declare_var_pg] attaches
    [pg] over the generator names through [decl.declare_var]. *)
Definition example_declare_generation (md : ModelData)
  : result (list (string * Component)) :=
  gen_pg ← attribute md generator "pg";
  pg_init ← mapM (fun k =>
               p_min ← attribute md generator "p_min";
               lo ← float_item k p_min;
               p_max ← attribute md generator "p_max";
               hi ← float_item k p_max;
               Ok (k, VFloat ((lo + hi) / 2)%float))
             (dkeys gen_pg);
  p_min ← attribute md generator "p_min";
  p_max ← attribute md generator "p_max";
  bounds ← mapM (fun k =>
              lo ← float_item k p_min;
              hi ← float_item k p_max;
              Ok (k, (lo, hi)))
            (dkeys p_min);
  model ← declare_var "pg" ConcreteModel (Some (attribute_names md generator))
            (Some (dict_of pg_init)) (Some (dict_of bounds));
  Ok model.

(** The attributes lines 94-107 and 231-244 read: [vm] and [va] of
    the buses, then [rating_long_term] of every branch, then the two
    ends of every branch, which must be buses with a voltage; and
    [p_cost] of the generators, read on lines 174 and 302. *)
Definition example_voltages_and_costs (md : ModelData) : result unit :=
  vm ← attribute md bus "vm";
  _ ← mapM (fun k =>
         _ ← float_item k vm;
         va ← attribute md bus "va";
         float_item k va)
       (dkeys vm);
  _ ← mapM (fun ke => float_item "rating_long_term" (snd ke)) (elements md branch);
  _ ← mapM (fun ke =>
         from_bus ← ditem "from_bus" (snd ke);
         to_bus ← ditem "to_bus" (snd ke);
         match from_bus, to_bus with
         | VStr f, VStr t => _ ← ditem f vm; _ ← ditem t vm; Ok tt
         | _, _ => Raise (TypeError "unhashable type")
         end)
       (elements md branch);
  _ ← attribute md generator "p_cost";
  Ok tt.

Definition example_library : EgretLibrary :=
  {| in_service md := md;
     scale_ModelData_to_pu md := Ok md;
     unscale_ModelData_to_pu md := Ok md;
     inlet_outlet_branches_by_bus _ _ := Ok ([], []);
     gens_by_bus _ _ := Ok [];
     dict_of_bus_loads buses loads := Ok (example_bus_loads buses loads, []);
     dict_of_bus_fixed_shunts _ _ := Ok ([], []);
     declare_generation md _ := example_declare_generation md;
     _include_feasibility_slack _ _ _ := Ok [];
     _include_system_feasibility_slack _ _ _ := Ok [];
     declare_btheta_losses md _ _ _ _ :=
       _ ← example_voltages_and_costs md;
       Ok [("pf", free_var (attribute_names md branch));
           ("pfl", free_var (attribute_names md branch));
           ("eq_dva_branch", CConstraint (Some (attribute_names md branch)));
           ("eq_pf_branch", CConstraint (Some (attribute_names md branch)));
           ("eq_pfl_branch", CConstraint (Some (attribute_names md branch)));
           ("eq_p_balance", CConstraint (Some (attribute_names md bus)));
           ("obj", CObjective None)];
     declare_ptdf_losses md _ _ :=
       _ ← example_voltages_and_costs md;
       Ok [("pf", free_var (attribute_names md branch));
           ("pfl", free_var (attribute_names md branch));
           ("eq_pf_branch", CConstraint (Some (attribute_names md branch)));
           ("eq_pfl_branch", CConstraint (Some (attribute_names md branch)));
           ("eq_p_balance", CConstraint None);
           ("obj", CObjective None)] |}.

(** Loading solution values into an indexed variable. *)
Definition load_values (name : string) (vals : dict value) (m : PyomoModel)
  : PyomoModel :=
  match dget name m with
  | Some (CVar data) =>
      dset name
        (CVar (map (fun kv =>
                 (fst kv,
                  match dget (fst kv) vals with
                  | Some v => mkVarData (Some v) (var_lb (snd kv)) (var_ub (snd kv))
                                        (var_fixed (snd kv))
                  | None => snd kv
                  end)) data)) m
  | _ => m
  end.

(** A solution of either model of [two_bus_network], with its duals. *)
Definition two_bus_solution (m : PyomoModel) : PyomoModel :=
  let m := load_values "pg" [("gen1", VFloat 50.5)] m in
  let m := load_values "pf" [("line1", VFloat 50.25)] m in
  let m := load_values "pfl" [("line1", VFloat 0.5)] m in
  let m := load_values "va" [("bus2", VFloat (-0.125))] m in
  let m := dset "obj" (CObjective (Some (VFloat 505))) m in
  dset "dual"
    (CSuffix [(("eq_p_balance", Some "bus1"), 10%float);
              (("eq_p_balance", Some "bus2"), 10.5%float);
              (("eq_p_balance", None), 10%float);
              (("eq_pf_branch", Some "line1"), 0.5%float);
              (("eq_pfl_branch", Some "line1"), 8%float)]) m.

Definition two_bus_backend : SolverBackend :=
  scripted_backend
    (fun m => Ok (two_bus_solution m, mkSolverResults TerminationCondition.optimal "")).

(** The caller's world: [two_bus_network] behind reference 1. *)
Definition two_bus_world : world := mkWorld {[ 1%positive := two_bus_network ]} [].

Definition no_kwargs : builder_kwargs := mkKwargs None None None.

(** The snapshot behind the reference a call returned. *)
Definition returned_snapshot {A} (ref : A -> addr) (out : world * result A)
  : result ModelData :=
  match snd out with
  | Ok a =>
      match heap (fst out) !! ref a with
      | Some md => Ok md
      | None => Raise (RuntimeError "dangling reference")
      end
  | Raise e => Raise e
  end.

(** ** Properties of the angle variables *)

(** Member [b] of [model.va] has the bounds [(lb, ub)]. *)
Definition va_bounds_are (lb ub : float) (model : PyomoModel) (b : string) : Prop :=
  exists vd, var_item "va" b model = Ok vd /\ var_lb vd = Some lb /\ var_ub vd = Some ub.

(** Member [b] of [model.va] is fixed at the value [x]. *)
Definition va_fixed_at (x : value) (model : PyomoModel) (b : string) : Prop :=
  exists vd, var_item "va" b model = Ok vd /\ var_fixed vd = true /\
             var_value vd = Some x.

(** All members of [va] carry the bounds [-pi] and [pi]. *)
Definition va_all_bounded (names : list string) (model : PyomoModel) : Prop :=
  exists data,
    dget "va" model = Some (CVar data) /\
    (forall k, In k names -> dhas k data = true) /\
    (forall k vd, dget k data = Some vd ->
       var_lb vd = Some (- Py.pi)%float /\ var_ub vd = Some Py.pi).

(** ** Properties of the extraction *)

(** The marginal price of bus [b] in the words of the specification:
    the system-wide balance dual, plus, branch after branch, the PTDF
    entry at the bus times the dual of the branch's flow constraint and
    the LDF entry at the bus times the dual of the branch's loss
    constraint.  Floating-point sums are taken in the order of the
    branches, starting from the balance dual. *)
Definition ptdf_marginal_price (m : PyomoModel) (branches : dict elem) (b : string)
  : result float :=
  balance_dual ← dual_of_scalar "eq_p_balance" m;
  for_each (fun price kk =>
      ptdf ← row_item "ptdf_r" b (snd kk);
      flow_dual ← dual_of_member "eq_pf_branch" (fst kk) m;
      ldf ← row_item "ldf" b (snd kk);
      loss_dual ← dual_of_member "eq_pfl_branch" (fst kk) m;
      Ok (price + ptdf * flow_dual + ldf * loss_dual)%float)
    branches balance_dual.

(** [f] rewrites values only: the snapshot it returns has the same
    elements and the same attribute names as the one it received. *)
Definition same_attribute_names (md md' : ModelData) : Prop :=
  (forall a, dhas a (system md') = dhas a (system md)) /\
  (forall t n, dhas n (elements md' t) = dhas n (elements md t)) /\
  (forall t n e e', dget n (elements md t) = Some e ->
     dget n (elements md' t) = Some e' -> forall a, dhas a e' = dhas a e).

Definition keeps_attribute_names (f : ModelData -> result ModelData) : Prop :=
  forall md md', f md = Ok md' -> same_attribute_names md md'.

(** ** Properties of the heap *)

(** Running [c] in [w] changes the heap at most at the reference [r]. *)
Definition writes_only_at {A} (r : addr) (c : eff A) (w : world) : Prop :=
  heap (fst (c w)) = heap w \/ exists md, heap (fst (c w)) = <[r := md]> (heap w).

(** ** A successful solve, step by step *)

(** [solve_dcopf_losses] went through in world [w]: the generator
    returned a model and the reference [r]; the solver loaded its
    solution and gave back [m]; the extraction turned the snapshot
    [md_built] behind [r] into [md_extracted]; un-scaling turned that
    into [md_returned], which is behind [r] in the final world [w']. *)
Definition solved_by `{TxCalc} `{EgretLibrary} `{SolverBackend}
  (model_data : addr) (solver : solver_arg) (timelimit : option float)
  (solver_tee symbolic_solver_labels : bool) (options : option (dict value))
  (g : model_generator) (kwargs : builder_kwargs) (w : world)
  (m : PyomoModel) (md_built md_extracted md_returned : ModelData)
  (r : addr) (w' : world) : Prop :=
  exists m0 w1 results w2,
    call_generator g model_data kwargs w = (w1, Ok (m0, r)) /\
    _solve_model (setattr_component "dual" (CSuffix []) m0) solver
      (Some 0x1.0624dd2f1a9fcp-10%float) timelimit solver_tee
      symbolic_solver_labels options w1 = (w2, Ok (m, results)) /\
    heap w2 !! r = Some md_built /\
    save_results g m md_built = Ok md_extracted /\
    unscale_ModelData_to_pu md_extracted = Ok md_returned /\
    heap w' !! r = Some md_returned.

(** The result fields the extraction writes, with the values of the
    solved model [m]: the elements are those of the snapshot that was
    built, by name and in order; the total cost; [pg] on every
    generator; [pl] on every bus, with [lmp] when the generator is one
    of the two builders (the dual of the bus's balance constraint for
    the angle-based one, the price reconstructed from the sensitivity
    rows for the PTDF-based one) and [va] when it is the angle-based
    one; [pf] on every branch, whose other attributes are the ones it
    had before. *)
Definition results_written (g : model_generator) (m : PyomoModel)
  (md_built md_extracted : ModelData) : Prop :=
  (forall t, attribute_names md_extracted t = attribute_names md_built t) /\
  (exists v, objective_value "obj" m = Ok v /\
             dget "total_cost" (system md_extracted) = Some v) /\
  (forall n e, dget n (elements md_extracted generator) = Some e ->
     exists v, var_item_value "pg" n m = Ok v /\ dget "pg" e = Some v) /\
  (forall b e, dget b (elements md_extracted bus) = Some e ->
     (exists v, var_item_value "pl" b m = Ok v /\ dget "pl" e = Some v) /\
     (is_btheta g = true ->
        exists x, dual_of_member "eq_p_balance" b m = Ok x /\
                  dget "lmp" e = Some (VFloat x)) /\
     (is_ptdf g = true ->
        exists x, ptdf_marginal_price m (elements md_built branch) b = Ok x /\
                  dget "lmp" e = Some (VFloat x)) /\
     (is_btheta g = true ->
        exists v, var_item_value "va" b m = Ok v /\ dget "va" e = Some v)) /\
  (forall k e, dget k (elements md_extracted branch) = Some e ->
     (exists v, var_item_value "pf" k m = Ok v /\ dget "pf" e = Some v) /\
     exists e0, dget k (elements md_built branch) = Some e0 /\
                forall a, a <> "pf" -> dget a e = dget a e0).

(** The same fields are present in a snapshot. *)
Definition results_present (g : model_generator) (md : ModelData) : Prop :=
  dhas "total_cost" (system md) = true /\
  (forall n e, dget n (elements md generator) = Some e -> dhas "pg" e = true) /\
  (forall b e, dget b (elements md bus) = Some e ->
     dhas "pl" e = true /\
     (is_btheta g || is_ptdf g = true -> dhas "lmp" e = true) /\
     (is_btheta g = true -> dhas "va" e = true)) /\
  (forall k e, dget k (elements md branch) = Some e -> dhas "pf" e = true).

(** ** Worked runs on [two_bus_network] *)

Definition ok_or {A} (d : A) (r : result A) : A :=
  match r with Ok a => a | Raise _ => d end.

Definition two_bus_solve (g : model_generator) : world * result solve_return :=
  @solve_dcopf_losses two_bus_tx_calc example_library two_bus_backend
    1%positive (SolverName "ipopt") None true false None g true false no_kwargs
    two_bus_world.

(** [two_bus_network] with a generator that has no [pg] attribute. *)
Definition two_bus_without_dispatch : ModelData :=
  with_elements generator
    [("gen1", [("bus", VStr "bus1"); ("p_min", VFloat 0); ("p_max", VFloat 100)])]
    two_bus_network.

Definition two_bus_build_btheta : world * result (PyomoModel * addr) :=
  @create_btheta_losses_dcopf_model example_library 1%positive SOC false false
    two_bus_world.

(** [two_bus_network] after [create_dicts_of_ptdf_losses]. *)
Definition two_bus_with_dicts : ModelData :=
  ok_or two_bus_network
    (@create_dicts two_bus_tx_calc ptdf_losses_dicts two_bus_network SOLUTION).

Definition returned_model (r : solve_return) : result PyomoModel :=
  match r with
  | ReturnMdModel _ m | ReturnMdModelResults _ m _ => Ok m
  | _ => Raise (ValueError "the model was not asked for")
  end.

(** ** Properties of [_set_options] *)

(** The option names [_set_options] may write for the optimality gap
    and the time limit, over the four solvers it recognises. *)
Definition gap_and_limit_options : list string :=
  ["MIPGap"; "TimeLimit"; "mip_tolerances_mipgap"; "timelimit";
   "mipgap"; "tmlim"; "ratioGap"; "sec"].

(** The solver name carries none of the four recognised tags. *)
Definition unrecognised_solver (name : string) : Prop :=
  contains "gurobi" name = false /\ contains "cplex" name = false /\
  contains "glpk" name = false /\ contains "cbc" name = false.

(** ** Properties of the sensitivity dictionaries *)

(** Attributes [create_dicts] writes on a branch. *)
Definition branch_attributes_written (which : sensitivity_dicts) : list string :=
  match which with
  | ptdf_dicts => ["ptdf"]
  | ptdf_losses_dicts => ["ptdf_r"; "ldf"; "ldf_c"]
  end.

(** [a] and [b] are the same dictionary outside the keys [written]. *)
Definition same_outside {V} (written : list string) (a b : dict V) : Prop :=
  forall k, ~ In k written -> dget k b = dget k a.

(** A numpy array of [rows] by [cols] entries. *)
Definition has_shape (rows cols : nat) (M : matrix) : Prop :=
  length M = rows /\ Forall (fun r => length r = cols) M.

(** [b_dict[a][k]] for a row attribute [a] of a bus, as [row_item] is for
    a branch: the entry of the stored row, [KeyError] when it is
    missing. *)
Definition stored_entry (a k : string) (e : elem) : result float := row_item a k e.

(** What a sparsified row holds for the matrix entry [x]: the entry
    itself when [x != 0.], and nothing otherwise. *)
Definition sparse_entry (k : string) (x : float) : result float :=
  if Py.ne_zero x then Ok x else Raise (KeyError k).

(** The solved models of [two_bus_network] and the snapshots the
    extraction makes of them. *)
Definition two_bus_ptdf_model : PyomoModel :=
  two_bus_solution
    (ok_or ConcreteModel
       (@ptdf_losses_formulation example_library two_bus_with_dicts false)).

Definition two_bus_btheta_model : PyomoModel :=
  two_bus_solution
    (ok_or ConcreteModel
       (@btheta_losses_formulation example_library two_bus_network SOC false false)).

Definition two_bus_ptdf_extracted : ModelData :=
  ok_or two_bus_network
    (save_results ptdf_generator two_bus_ptdf_model two_bus_with_dicts).

Definition two_bus_btheta_extracted : ModelData :=
  ok_or two_bus_network
    (save_results btheta_generator two_bus_btheta_model two_bus_network).

(** ** [build_uc_time_mapping] of [uc_utils.py] *)

Module UcTimeMapping.

Set Warnings "-register-all".

(** Hashable values: the components of an index handed to an
    initialisation rule, and the keys of a dictionary. *)
Inductive pykey : Type :=
| KInt (z : Z)
| KStr (s : string)
| KTuple (ks : list pykey).

(** The values a [ModelData] attribute is made of: [None], booleans,
    integers, floats, strings, lists and dictionaries. *)
Inductive pyval : Type :=
| PNone
| PBool (b : bool)
| PInt (z : Z)
| PFloat (x : float)
| PStr (s : string)
| PList (l : list pyval)
| PDict (d : list (pykey * pyval)).

(** The exceptions of this module, by class; the exception raised by
    [get_time_attr] carries the dictionary its message is formatted
    with. *)
Inductive error : Type :=
| PyTypeError
| PyKeyError
| PyIndexError
| PyException (att : pyval).

Inductive outcome (A : Type) : Type :=
| Return (a : A)
| Raised (e : error).
Arguments Return {A} a.
Arguments Raised {A} e.

#[global] Instance outcome_ret : MRet outcome := fun A a => Return a.
#[global] Instance outcome_bind : MBind outcome :=
  fun A B f m => match m with Return a => f a | Raised e => Raised e end.

(** [a == b] on hashable values. *)
Fixpoint pykey_eqb (a b : pykey) : bool :=
  match a, b with
  | KInt x, KInt y => Z.eqb x y
  | KStr x, KStr y => String.eqb x y
  | KTuple xs, KTuple ys =>
      (fix all_eqb (xs ys : list pykey) : bool :=
         match xs, ys with
         | [], [] => true
         | x :: xs', y :: ys' => pykey_eqb x y && all_eqb xs' ys'
         | _, _ => false
         end) xs ys
  | _, _ => false
  end.

(** [x == z] for a float [x] and an integer [z]: the comparison is made
    on the exact values. *)
Definition float_eq_int (x : float) (z : Z) : bool :=
  match Prim2SF x with
  | S754_zero _ => Z.eqb z 0
  | S754_finite s m e =>
      let v := if s then Z.neg m else Z.pos m in
      if (0 <=? e)%Z then Z.eqb z (v * 2 ^ e) else Z.eqb (z * 2 ^ (- e)) v
  | _ => false
  end.

(** [v == k] for a value [v] and a hashable [k]; a boolean is the
    integer 0 or 1, a list is never equal to a tuple. *)
Definition val_eq_key (k : pykey) (v : pyval) : bool :=
  match k, v with
  | KInt z, PInt z' => Z.eqb z z'
  | KInt z, PBool b => Z.eqb z (Z.b2z b)
  | KInt z, PFloat x => float_eq_int x z
  | KStr s, PStr s' => String.eqb s s'
  | _, _ => false
  end.

(** The value between the brackets of a subscription [c[i]]. *)
Inductive subscript : Type :=
| SKey (k : pykey)
| SFloat (x : float)
| SNone
| SUnhashable.

Definition subscript_of (v : pyval) : subscript :=
  match v with
  | PNone => SNone
  | PBool b => SKey (KInt (Z.b2z b))
  | PInt z => SKey (KInt z)
  | PFloat x => SFloat x
  | PStr s => SKey (KStr s)
  | PList _ | PDict _ => SUnhashable
  end.

(** The entry of a dictionary whose key satisfies [p]. *)
Fixpoint dfind (p : pykey -> bool) (d : list (pykey * pyval)) : option pyval :=
  match d with
  | [] => None
  | (k, v) :: d' => if p k then Some v else dfind p d'
  end.

(** [d.get(k)] *)
Definition dlookup (k : pykey) (d : list (pykey * pyval)) : option pyval :=
  dfind (pykey_eqb k) d.

(** The position a sequence of [len] items gives to the index [i]:
    negative indices count from the end. *)
Definition norm_index (i : Z) (len : nat) : option nat :=
  let j := if (i <? 0)%Z then (i + Z.of_nat len)%Z else i in
  if ((0 <=? j) && (j <? Z.of_nat len))%Z then Some (Z.to_nat j) else None.

(** [sub in s] on strings. *)
Fixpoint str_in (sub s : string) : bool :=
  String.prefix sub s ||
  match s with
  | EmptyString => false
  | String _ s' => str_in sub s'
  end.

(** [c[i]] *)
Definition getitem (c : pyval) (i : subscript) : outcome pyval :=
  match c with
  | PDict d =>
      match i with
      | SKey k =>
          match dlookup k d with Some v => Return v | None => Raised PyKeyError end
      | SFloat x =>
          match dfind (fun k => match k with KInt z => float_eq_int x z | _ => false end) d with
          | Some v => Return v
          | None => Raised PyKeyError
          end
      | SNone => Raised PyKeyError
      | SUnhashable => Raised PyTypeError
      end
  | PList l =>
      match i with
      | SKey (KInt z) =>
          match norm_index z (length l) with
          | Some n => match l !! n with Some v => Return v | None => Raised PyIndexError end
          | None => Raised PyIndexError
          end
      | _ => Raised PyTypeError
      end
  | PStr s =>
      match i with
      | SKey (KInt z) =>
          match norm_index z (String.length s) with
          | Some n =>
              match String.get n s with
              | Some c => Return (PStr (String c EmptyString))
              | None => Raised PyIndexError
              end
          | None => Raised PyIndexError
          end
      | _ => Raised PyTypeError
      end
  | PNone | PBool _ | PInt _ | PFloat _ => Raised PyTypeError
  end.

(** [k in c] *)
Definition py_in (k : pykey) (c : pyval) : outcome bool :=
  match c with
  | PDict d => Return (match dlookup k d with Some _ => true | None => false end)
  | PList l => Return (existsb (val_eq_key k) l)
  | PStr s =>
      match k with
      | KStr sub => Return (str_in sub s)
      | _ => Raised PyTypeError
      end
  | PNone | PBool _ | PInt _ | PFloat _ => Raised PyTypeError
  end.

(** ['data_type' in att and att['data_type'] == 'time_series'] *)
Definition is_time_series (att : list (pykey * pyval)) : bool :=
  match dlookup (KStr "data_type") att with
  | Some (PStr s) => String.eqb s "time_series"
  | _ => false
  end.

(** [pm_t-1] *)
Definition minus_one (pm_t : pykey) : outcome Z :=
  match pm_t with
  | KInt z => Return (z - 1)%Z
  | _ => Raised PyTypeError
  end.

Definition get_time_attr (md_timeperiods att : pyval) (pm_t : pykey)
  : outcome pyval :=
  match att with
  | PDict a =>
      if is_time_series a then
        values ← getitem att (SKey (KStr "values"));
        t ← minus_one pm_t;
        period ← getitem md_timeperiods (SKey (KInt t));
        getitem values (subscript_of period)
      else Raised (PyException att)
  | _ => Return att
  end.

(** The key [init_rule] looks up in [_data]: the single component, or
    the tuple of the components when there are several. *)
Definition element_key (key : list pykey) : pykey :=
  match key with
  | [k] => k
  | _ => KTuple key
  end.

(** [init_rule(m, *key)]; the model [m] is not used. *)
Definition init_rule (md_timeperiods _data : pyval) (key : list pykey)
  : outcome pyval :=
  match last key with
  | None => Raised PyIndexError
  | Some pm_t =>
      let key := removelast key in
      match key with
      | [] => get_time_attr md_timeperiods _data pm_t
      | _ =>
          let key := element_key key in
          present ← py_in key _data;
          if present : bool then
            att ← getitem _data (SKey key);
            get_time_attr md_timeperiods att pm_t
          else Return PNone
      end
  end.

(** [uc_time_helper(_data)]: no rule for [None]. *)
Definition uc_time_helper (md_timeperiods _data : pyval)
  : option (list pykey -> outcome pyval) :=
  match _data with
  | PNone => None
  | _ => Some (init_rule md_timeperiods _data)
  end.

Definition build_uc_time_mapping (md_timeperiods : pyval)
  : pyval -> option (list pykey -> outcome pyval) :=
  uc_time_helper md_timeperiods.

(** A time series attribute: a dictionary tagged ['time_series'] with
    the list [vs] under ['values']. *)
Definition time_series (a : list (pykey * pyval)) (vs : list pyval) : Prop :=
  is_time_series a = true /\ dlookup (KStr "values") a = Some (PList vs).

(** [v] is not a dictionary. *)
Definition not_dict (v : pyval) : Prop :=
  match v with PDict _ => False | _ => True end.

(** Hourly demand of two buses over three periods whose labels are
    positions in the series, with a scalar base voltage. *)
Definition example_periods : pyval := PList [PInt 0; PInt 1; PInt 2].

Definition example_demand : pyval :=
  PDict [ (KStr "b1",
           PDict [ (KStr "data_type", PStr "time_series");
                   (KStr "values", PList [PFloat 10; PFloat 12; PFloat 9]) ]);
          (KStr "b2", PFloat 4);
          (KStr "b3", PDict [ (KStr "p", PFloat 1) ]) ].

End UcTimeMapping.

(** ** Worked example of model tagging *)

(** Three taggable building blocks whose bodies leave the model as they
    receive it. *)
Definition example_status_block : UcUtils.function :=
  UcUtils.mkFunction "garver_3bin_vars" (fun m => (m, Ok (VBool true))).

Definition example_other_status_block : UcUtils.function :=
  UcUtils.mkFunction "CA_1bin_vars" (fun m => (m, Ok (VBool true))).

Definition example_uptime_block : UcUtils.function :=
  UcUtils.mkFunction "rajan_takriti_UT_DT" (fun m => (m, Ok (VBool true))).

(** The state after [example_status_block] tagged an empty model. *)
Definition example_tagged_state : UcUtils.state :=
  fst (UcUtils.add_model_attr "status_vars" [] example_status_block
         (UcUtils.mkState [] [])).
(** * Facts about the embedding *)

(** ** Dictionaries *)

Section PyDictFacts.
Context {V : Type}.
Implicit Types (d : dict V) (k : string) (v : V).

Lemma dget_dset_eq k v d : dget k (dset k v d) = Some v.
Proof.
  induction d as [|[k' v'] d IH]; simpl.
  - by rewrite String.eqb_refl.
  - destruct (String.eqb k k') eqn:E; simpl; rewrite E; auto.
Qed.

Lemma dget_dset_ne k k' v d : k <> k' -> dget k' (dset k v d) = dget k' d.
Proof.
  intros Hne. induction d as [|[k0 v0] d IH]; simpl.
  - destruct (String.eqb k' k) eqn:E; auto.
    apply String.eqb_eq in E. congruence.
  - destruct (String.eqb k k0) eqn:E; simpl.
    + apply String.eqb_eq in E. subst k0.
      destruct (String.eqb k' k) eqn:E'; auto.
      apply String.eqb_eq in E'. congruence.
    + by rewrite IH.
Qed.

Lemma dget_dset k k' v d :
  dget k' (dset k v d) = if String.eqb k' k then Some v else dget k' d.
Proof.
  destruct (String.eqb k' k) eqn:E.
  - apply String.eqb_eq in E. subst. apply dget_dset_eq.
  - apply dget_dset_ne. intros ->. by rewrite String.eqb_refl in E.
Qed.

Lemma dget_dpop_eq k d : dget k (dpop k d) = None.
Proof.
  induction d as [|[k' v'] d IH]; simpl; auto.
  destruct (String.eqb k k') eqn:E; simpl; auto. by rewrite E.
Qed.

Lemma dget_dpop_ne k k' d : k <> k' -> dget k' (dpop k d) = dget k' d.
Proof.
  intros Hne. induction d as [|[k0 v0] d IH]; simpl; auto.
  destruct (String.eqb k k0) eqn:E; simpl.
  - apply String.eqb_eq in E. subst k0.
    destruct (String.eqb k' k) eqn:E'; auto.
    apply String.eqb_eq in E'. congruence.
  - by rewrite IH.
Qed.

Lemma dhas_dset k k' v d :
  dhas k' (dset k v d) = String.eqb k' k || dhas k' d.
Proof.
  unfold dhas. rewrite dget_dset. by destruct (String.eqb k' k).
Qed.

Lemma dhas_dpop_eq k d : dhas k (dpop k d) = false.
Proof. unfold dhas. by rewrite dget_dpop_eq. Qed.

Lemma dget_Some_In k v d : dget k d = Some v -> In (k, v) d.
Proof.
  induction d as [|[k' v'] d IH]; simpl; [done|].
  destruct (String.eqb k k') eqn:E.
  - apply String.eqb_eq in E. intros [= ->]. left. by subst.
  - intros H. right. auto.
Qed.

Lemma dget_Some_keys k v d : dget k d = Some v -> In k (dkeys d).
Proof.
  intros H. apply dget_Some_In in H. unfold dkeys.
  change k with (fst (k, v)). by apply in_map.
Qed.

Lemma dkeys_In_dget k d : In k (dkeys d) -> exists v, dget k d = Some v.
Proof.
  induction d as [|[k' v'] d IH]; simpl; [done|].
  intros [->|H].
  - rewrite String.eqb_refl. eauto.
  - destruct (String.eqb k k'); eauto.
Qed.

(** Assignment to a key that is present does not move any key. *)
Lemma dkeys_dset_present k v d :
  dhas k d = true -> dkeys (dset k v d) = dkeys d.
Proof.
  unfold dhas. induction d as [|[k' v'] d IH]; simpl; [done|].
  destruct (String.eqb k k') eqn:E; simpl; [done|].
  intros H. by rewrite IH.
Qed.

Lemma dkeys_dset_absent k v d :
  dhas k d = false -> dkeys (dset k v d) = dkeys d ++ [k].
Proof.
  unfold dhas. induction d as [|[k' v'] d IH]; simpl; [done|].
  destruct (String.eqb k k') eqn:E; simpl; [done|].
  intros H. by rewrite IH.
Qed.

End PyDictFacts.

(** ** Fallible loops *)

Lemma bind_Ok {A B} (m : result A) (f : A -> result B) b :
  (m ≫= f) = Ok b -> exists a, m = Ok a /\ f a = Ok b.
Proof. destruct m; simpl; [eauto|done]. Qed.

Ltac inv_ok :=
  repeat match goal with
    | H : Ok _ = Ok _ |- _ => injection H as H; try subst
    | H : Raise _ = Ok _ |- _ => discriminate H
    | H : mret _ = Ok _ |- _ => unfold mret, result_ret in H
    | H : (_ ≫= _) = Ok _ |- _ =>
        let a := fresh "a" in
        let Ha := fresh "Ha" in
        apply bind_Ok in H; destruct H as (a & Ha & H)
    end.

Lemma for_items_keys {V} (f : string -> V -> result V) d d' :
  for_items f d = Ok d' -> dkeys d' = dkeys d.
Proof.
  revert d'. induction d as [|[k v] d IH]; intros d' H; simpl in H.
  - by inv_ok.
  - inv_ok. simpl. f_equal. by apply IH.
Qed.

Lemma for_items_dget {V} (f : string -> V -> result V) d d' k v' :
  for_items f d = Ok d' -> dget k d' = Some v' ->
  exists v, dget k d = Some v /\ f k v = Ok v'.
Proof.
  revert d'. induction d as [|[k0 v0] d IH]; intros d' H Hg; simpl in H.
  - by inv_ok.
  - inv_ok. simpl in *. destruct (String.eqb k k0) eqn:E.
    + apply String.eqb_eq in E. subst k0. injection Hg as <-. eauto.
    + eauto.
Qed.

Lemma for_items_dget_None {V} (f : string -> V -> result V) d d' k :
  for_items f d = Ok d' -> dget k d = None -> dget k d' = None.
Proof.
  revert d'. induction d as [|[k0 v0] d IH]; intros d' H Hg; simpl in H.
  - by inv_ok.
  - inv_ok. simpl in *. destruct (String.eqb k k0); [done|eauto].
Qed.


(** ** The solver driver *)

Section SolverInterfaceFacts.
Context `{SolverBackend}.

Lemma solve_model_with_name model name mipgap timelimit tee labels options w s m' results :
  SolverFactory name = Ok s ->
  solve_request (_set_options s mipgap timelimit options) model tee labels
    = Ok (m', results) ->
  exists s',
    _solve_model model (SolverName name) mipgap timelimit tee labels options w
    = (mkWorld (heap w) (solver_log w ++ [s']),
       if bool_decide (termination_condition results ∈ safe_termination_conditions)
       then Ok (m', results)
       else Raise (AttributeError "terminataion_condition")).
Proof.
  intros Hs Hrun. unfold _solve_model, solve_request in *.
  unfold mbind, eff_bind, lift. rewrite Hs. cbn -[_set_options bool_decide].
  set (s1 := _set_options s mipgap timelimit options) in *.
  destruct (solver_persistent s1).
  - unfold mbind, eff_bind, lift.
    destruct (solver_set_instance s1 model labels) as [s2|e] eqn:E2; [|done].
    cbn -[bool_decide] in *. rewrite Hrun. cbn -[bool_decide].
    exists s2. by destruct (bool_decide _).
  - cbn -[bool_decide]. rewrite Hrun. cbn -[bool_decide].
    exists s1. by destruct (bool_decide _).
Qed.

End SolverInterfaceFacts.

(** C2, as stated, fails: [minFunctionValue] is not among the statuses
    the specification lists, and the driver returns normally on it. *)
Lemma solve_model_accepts_minFunctionValue :
  (TerminationCondition.minFunctionValue ∉ spec_accepted_statuses) /\
  (snd (@_solve_model (reporting_backend TerminationCondition.minFunctionValue)
          ConcreteModel (SolverName "ipopt") None None true false None empty_world)
   = Ok (ConcreteModel, mkSolverResults TerminationCondition.minFunctionValue "")).
Proof.
  split; [|reflexivity].
  intros Hin. repeat (apply elem_of_cons in Hin as [Hin|Hin]; [discriminate Hin|]).
  by apply elem_of_nil in Hin.
Qed.

(** C2 (amended): when the solver named by the caller answers the
    blocking solve request with a results object, [_solve_model] raises
    if and only if the reported termination condition is outside
    [safe_termination_conditions] (the eight statuses of the
    specification together with [minFunctionValue] and [minStepLength]);
    on a condition inside that list it returns the model and the
    results. *)
Theorem solve_model_raises_iff_status_unsafe `{SolverBackend}
  model name mipgap timelimit tee labels options w s m' results :
  SolverFactory name = Ok s ->
  solve_request (_set_options s mipgap timelimit options) model tee labels
    = Ok (m', results) ->
  let out := snd (_solve_model model (SolverName name) mipgap timelimit tee labels options w) in
  ((exists e, out = Raise e) <->
     termination_condition results ∉ safe_termination_conditions) /\
  (termination_condition results ∈ safe_termination_conditions ->
     out = Ok (m', results)).
Proof.
  intros Hs Hrun.
  destruct (solve_model_with_name model name mipgap timelimit tee labels options w
              s m' results Hs Hrun) as [s' ->].
  cbn -[bool_decide safe_termination_conditions].
  case_bool_decide as Hin; split.
  - split; [intros [e He]; discriminate He | intros Hn; by destruct Hn].
  - done.
  - split; [done | eauto].
  - intros Hin'. by destruct Hin.
Qed.

Lemma solve_model_raises_iff_status_unsafe_witness :
  let out :=
    snd (@_solve_model (reporting_backend TerminationCondition.infeasible)
           ConcreteModel (SolverName "gurobi") None None true false None empty_world) in
  ((exists e, out = Raise e) <->
     TerminationCondition.infeasible ∉ safe_termination_conditions) /\
  (TerminationCondition.infeasible ∈ safe_termination_conditions ->
     out = Ok (ConcreteModel, mkSolverResults TerminationCondition.infeasible "")).
Proof.
  apply (@solve_model_raises_iff_status_unsafe
           (reporting_backend TerminationCondition.infeasible)
           ConcreteModel "gurobi" None None true false None empty_world
           (mkSolver "gurobi" [] false) ConcreteModel
           (mkSolverResults TerminationCondition.infeasible "")); reflexivity.
Defined.

(** The exception raised on an unsafe status is not the one line 136
    means to build: formatting the message reads the attribute
    [terminataion_condition], which the results object does not have. *)
Example solve_model_message_attribute :
  snd (@_solve_model (reporting_backend TerminationCondition.infeasible)
         ConcreteModel (SolverName "gurobi") None None true false None empty_world)
  = Raise (AttributeError "terminataion_condition").
Proof. reflexivity. Qed.

(** C8: whenever the [solver] argument is not a string, [_solve_model]
    raises [NameError] on the name [pyomo], which the module never
    binds; the world is left as it was, so no solve was attempted.  This
    covers an instantiated solver object. *)
Theorem solve_model_non_string_solver_raises `{SolverBackend}
  model solver mipgap timelimit tee labels options w :
  (forall name, solver <> SolverName name) ->
  _solve_model model solver mipgap timelimit tee labels options w
  = (w, Raise (NameError "pyomo")).
Proof.
  intros Hns. destruct solver as [name|s|v]; [by destruct (Hns name)|done|done].
Qed.

Lemma solve_model_non_string_solver_raises_witness :
  (forall name, SolverObject (mkSolver "ipopt" [] false) <> SolverName name) /\
  @_solve_model (reporting_backend TerminationCondition.optimal)
    ConcreteModel (SolverObject (mkSolver "ipopt" [] false)) None None true false None
    empty_world
  = (empty_world, Raise (NameError "pyomo")).
Proof.
  split; [discriminate|].
  apply (@solve_model_non_string_solver_raises
           (reporting_backend TerminationCondition.optimal)).
  discriminate.
Defined.

(** ** Model tagging in [uc_utils] *)

Section UcUtilsFacts.
Import UcUtils.

Lemma check_required_cases name requires m base_attr :
  In base_attr (dkeys requires) ->
  (check_required name requires m base_attr = Ok tt /\
   ~ requirement_unmet requires m base_attr) \/
  ((exists e, check_required name requires m base_attr = Raise e) /\
   requirement_unmet requires m base_attr).
Proof.
  intros Hin. apply dkeys_In_dget in Hin as [allowed Hreq].
  unfold check_required, requirement_unmet, ditem.
  destruct (dget base_attr m) as [v|]; [|right; eauto].
  rewrite Hreq. simpl. destruct allowed as [allowed|].
  - destruct (attr_in v allowed) eqn:Hv; simpl.
    + left. split; [done|]. intros (a & [= <-] & Ha). congruence.
    + right. eauto.
  - left. split; [done|]. intros (a & [=] & _).
Qed.

Lemma check_loop_cases name requires m l :
  (forall b, In b l -> In b (dkeys requires)) ->
  (for_each (fun _ b => check_required name requires m b) l tt = Ok tt /\
   forall b, In b l -> ~ requirement_unmet requires m b) \/
  ((exists e, for_each (fun _ b => check_required name requires m b) l tt = Raise e) /\
   exists b, In b l /\ requirement_unmet requires m b).
Proof.
  induction l as [|b l IH]; intros Hsub; simpl.
  - left. split; [done|]. intros b [].
  - destruct (check_required_cases name requires m b) as [[-> Hok]|[[e ->] Hbad]].
    + apply Hsub. by left.
    + simpl. destruct IH as [[-> Hall]|[Hr (b' & Hin & Hbad)]].
      * intros b' Hb'. apply Hsub. by right.
      * left. split; [done|]. intros b' [<-|Hb']; auto.
      * right. split; [done|]. exists b'. split; [by right|done].
    + right. split; [eauto|]. exists b. split; [by left|done].
Qed.

(** C10: the wrapper built by [add_model_attr(attr, requires)] raises
    and leaves the model and the call log untouched (the wrapped function
    is not invoked) exactly when the model already has [attr], or a
    required attribute is absent, or a required attribute's value is not
    in its allowed list; in every other case it sets [attr] to the
    wrapped function's name and then runs the wrapped function on that
    model, returning whatever it returns. *)
Theorem add_model_attr_wrapper attr requires func st :
  let out := add_model_attr attr requires func st in
  let tagged := dset attr (AStr (func_name func)) (st_model st) in
  (refused attr requires (st_model st) <->
     (exists e, snd out = Raise e) /\ st_calls (fst out) = st_calls st) /\
  (refused attr requires (st_model st) -> fst out = st) /\
  (~ refused attr requires (st_model st) ->
     out = (mkState (fst (func_body func tagged)) (st_calls st ++ [func_name func]),
            snd (func_body func tagged))).
Proof.
  unfold add_model_attr, refused, dhas.
  destruct (dget attr (st_model st)) as [v|] eqn:Hattr; simpl.
  - split; [|split].
    + split; [intros _; eauto | intros _; by left].
    + done.
    + intros Hn. destruct Hn. by left.
  - destruct (check_loop_cases (func_name func) requires (st_model st) (dkeys requires))
      as [[-> Hall]|[[e ->] Hbad]]; [done| | ].
    + assert (Hnot : ~ (false = true \/
                exists b, In b (dkeys requires) /\ requirement_unmet requires (st_model st) b)).
      { intros [Hf|(b & Hin & Hb)]; [done|]. by apply (Hall b). }
      simpl. split; [|split].
      * split; [intros Hr; by destruct Hnot|].
        intros [_ Hcalls]. exfalso.
        apply (f_equal length) in Hcalls. rewrite length_app in Hcalls.
        simpl in Hcalls. lia.
      * intros Hr. by destruct Hnot.
      * done.
    + simpl. split; [|split].
      * split; [eauto|]. intros _. by right.
      * done.
      * intros Hn. destruct Hn. by right.
Qed.

End UcUtilsFacts.

(** ** Comprehensions *)

Lemma mapM_result_Forall2 {A B} (f : A -> result B) l l' :
  mapM f l = Ok l' -> Forall2 (fun a b => f a = Ok b) l l'.
Proof.
  revert l'. induction l as [|a l IH]; intros l' Hl; simpl in Hl.
  - injection Hl as <-. constructor.
  - inv_ok. constructor; auto.
Qed.

Lemma mapM_result_total {A B} (f : A -> result B) l :
  Forall (fun a => is_ok (f a) = true) l -> exists l', mapM f l = Ok l'.
Proof.
  induction 1 as [|a l Ha _ [l' IH]]; simpl; [by eexists|].
  destruct (f a) as [b|]; [|done]. simpl. rewrite IH. simpl. by eexists.
Qed.

Section DictOfFacts.
Context {V : Type}.
Implicit Types (d : dict V) (kvs : list (string * V)).

Lemma fold_dset_dget kvs d k v :
  dget k (fold_left (fun d kv => dset (fst kv) (snd kv) d) kvs d) = Some v ->
  In (k, v) kvs \/ dget k d = Some v.
Proof.
  revert d. induction kvs as [|[k0 v0] kvs IH]; intros d Hg; simpl in *; [by right|].
  apply IH in Hg as [Hin|Hg]; [left; by right|].
  rewrite dget_dset in Hg. destruct (String.eqb k k0) eqn:E.
  - apply String.eqb_eq in E. injection Hg as <-. subst. left. by left.
  - by right.
Qed.

Lemma fold_dset_dhas kvs d k :
  In k (map fst kvs) \/ dhas k d = true ->
  dhas k (fold_left (fun d kv => dset (fst kv) (snd kv) d) kvs d) = true.
Proof.
  revert d. induction kvs as [|[k0 v0] kvs IH]; intros d Hk; simpl in *.
  - by destruct Hk.
  - apply IH. rewrite dhas_dset. destruct Hk as [[->|Hin]|Hd].
    + right. by rewrite String.eqb_refl.
    + by left.
    + right. rewrite Hd. apply orb_true_r.
Qed.

Lemma dict_of_dget kvs k v : dget k (dict_of kvs) = Some v -> In (k, v) kvs.
Proof. intros Hg. by apply fold_dset_dget in Hg as [Hin|Hg]. Qed.

Lemma dict_of_dhas kvs k : In k (map fst kvs) -> dhas k (dict_of kvs) = true.
Proof. intros Hin. apply fold_dset_dhas. by left. Qed.

End DictOfFacts.

Lemma enumerate_snd {A} (l : list A) : map snd (enumerate l) = l.
Proof.
  unfold enumerate. generalize 0. induction l as [|a l IH]; intros n; simpl; [done|].
  by rewrite IH.
Qed.

Lemma enumerate_In {A} (l : list A) i a : In (i, a) (enumerate l) -> l !! i = Some a.
Proof.
  unfold enumerate. intros Hin.
  assert (Hgen : forall n, In (i, a) (combine (seq n (length l)) l) ->
                 exists j, i = n + j /\ l !! j = Some a).
  { clear Hin. induction l as [|x l IH]; intros n Hin; simpl in Hin; [done|].
    destruct Hin as [[= <- <-]|Hin].
    - exists 0. split; [lia|done].
    - apply IH in Hin as (j & -> & Hj). exists (S j). split; [lia|done]. }
  apply Hgen in Hin as (j & -> & Hj). done.
Qed.

Lemma Forall2_In_r {A B} (R : A -> B -> Prop) l l' b :
  Forall2 R l l' -> In b l' -> exists a, In a l /\ R a b.
Proof.
  induction 1 as [|a b' l l' Hab _ IH]; simpl; [done|].
  intros [<-|Hin]; [eauto|]. destruct (IH Hin) as (a' & Ha' & Hr). eauto.
Qed.

Lemma Forall2_In_l {A B} (R : A -> B -> Prop) l l' a :
  Forall2 R l l' -> In a l -> exists b, In b l' /\ R a b.
Proof.
  induction 1 as [|a' b l l' Hab _ IH]; simpl; [done|].
  intros [<-|Hin]; [eauto|]. destruct (IH Hin) as (b' & Hb' & Hr). eauto.
Qed.


Lemma row_dict_spec names M idx r :
  row_dict names M idx = Ok r ->
  row_complete names r /\
  forall k x, dget k r = Some x ->
    exists i, names !! i = Some k /\ mget M idx i = Ok x.
Proof.
  unfold row_dict. intros Hr. inv_ok.
  apply mapM_result_Forall2 in Ha. split.
  - intros k Hk. apply dict_of_dhas.
    rewrite <- (enumerate_snd names) in Hk.
    apply in_map_iff in Hk as ([i k'] & Hk' & Hin). simpl in Hk'. subst k'.
    destruct (Forall2_In_l _ _ _ _ Ha Hin) as ([k' x] & Hin' & Hf).
    simpl in Hf. apply in_map_iff. exists (k', x). split; [|done].
    simpl. by inv_ok.
  - intros k x Hg. apply dict_of_dget in Hg.
    destruct (Forall2_In_r _ _ _ _ Ha Hg) as ([i k'] & Hin & Hf).
    simpl in Hf. exists i. apply enumerate_In in Hin. inv_ok. by split.
Qed.

(** ** In-place updates of the elements of a snapshot *)

Lemma dset_dset {V} k (v v' : V) d : dset k v (dset k v' d) = dset k v d.
Proof.
  induction d as [|[k0 v0] d IH]; simpl.
  - by rewrite String.eqb_refl.
  - destruct (String.eqb k k0) eqn:E; simpl; rewrite E; [done|by rewrite IH].
Qed.

Lemma dhas_dget {V} k (d : dict V) : dhas k d = true <-> exists v, dget k d = Some v.
Proof.
  unfold dhas. destruct (dget k d); split; eauto; [done|by intros [? ?]].
Qed.

Lemma elements_with_elements t t' d md :
  elements (with_elements t d md) t' = if decide (t = t') then d else elements md t'.
Proof. by destruct t, t', md. Qed.

Lemma system_with_elements t d md : system (with_elements t d md) = system md.
Proof. by destruct t, md. Qed.

Lemma with_elements_twice t d d' md :
  with_elements t d (with_elements t d' md) = with_elements t d md.
Proof. by destruct t, md. Qed.

Lemma elements_with_elements_eq t d md : elements (with_elements t d md) t = d.
Proof. rewrite elements_with_elements. by case_decide. Qed.

Lemma elements_with_elements_ne t t' d md :
  t <> t' -> elements (with_elements t d md) t' = elements md t'.
Proof. intros Hne. rewrite elements_with_elements. by case_decide. Qed.

Lemma set_attr_first t n a v md e :
  dget n (elements md t) = Some e ->
  set_attr t n a v md = Ok (with_elements t (dset n (dset a v e) (elements md t)) md).
Proof. intros He. unfold set_attr, ditem. by rewrite He. Qed.

Lemma set_attr_next t n a v md e :
  set_attr t n a v (with_elements t (dset n e (elements md t)) md)
  = Ok (with_elements t (dset n (dset a v e) (elements md t)) md).
Proof.
  unfold set_attr, ditem. rewrite elements_with_elements_eq, dget_dset_eq.
  simpl. by rewrite dset_dset, with_elements_twice.
Qed.

(** A loop whose body rewrites the dictionary of the one element it is
    given, leaving it in a state [good]. *)
Section ElementLoop.
Context {A : Type} (t : element_type) (good : elem -> Prop).
Context (step : ModelData -> A * string -> result ModelData).
Hypothesis step_spec : forall md i n md',
  step md (i, n) = Ok md' ->
  exists e', good e' /\ dhas n (elements md t) = true /\
             md' = with_elements t (dset n e' (elements md t)) md.

Lemma element_loop_spec l md md' :
  for_each step l md = Ok md' ->
  system md' = system md /\
  (forall t', t <> t' -> elements md' t' = elements md t') /\
  dkeys (elements md' t) = dkeys (elements md t) /\
  (forall n e, dget n (elements md t) = Some e -> good e ->
     exists e', dget n (elements md' t) = Some e' /\ good e') /\
  (forall i n, In (i, n) l ->
     exists e', dget n (elements md' t) = Some e' /\ good e').
Proof using step_spec.
  revert md. induction l as [|[i n] l IH]; intros md Hl; simpl in Hl.
  - inv_ok. repeat split; eauto. intros i n [].
  - inv_ok. destruct (step_spec _ _ _ _ Ha) as (e1 & Hgood & Hhas & ->).
    destruct (IH _ Hl) as (Hsys & Hother & Hkeys & Hkeep & Hdone).
    rewrite elements_with_elements_eq in *.
    split; [by rewrite Hsys, system_with_elements|].
    split; [intros t' Hne; by rewrite Hother, elements_with_elements_ne|].
    split; [by rewrite Hkeys, dkeys_dset_present|].
    assert (Hstep : forall n' e, dget n' (elements md t) = Some e -> good e ->
              exists e', dget n' (dset n e1 (elements md t)) = Some e' /\ good e').
    { intros n' e He Hg. rewrite dget_dset. destruct (String.eqb n' n); eauto. }
    split.
    + intros n' e He Hg. destruct (Hstep n' e He Hg) as (e' & He' & Hg'). eauto.
    + intros i' n' [[= <- <-]|Hin]; [|eauto].
      apply (Hkeep n e1); [apply dget_dset_eq|done].
Qed.

End ElementLoop.

(** ** The sensitivity dictionaries *)

Lemma Ok_inj {A} (a b : A) : Ok a = Ok b -> a = b.
Proof. by intros [= ->]. Qed.

Ltac chain_set_attr :=
  repeat match goal with
    | H : ditem _ _ = Ok _ |- _ =>
        unfold ditem in H;
        match type of H with
        | match ?o with _ => _ end = _ => destruct o eqn:?; [|discriminate H]
        end;
        injection H as H; try subst
    | He : dget ?n (elements ?md ?t) = Some ?e,
      H : set_attr ?t ?n _ _ ?md = Ok _ |- _ =>
        rewrite (set_attr_first _ _ _ _ _ _ He) in H; apply Ok_inj in H; subst
    | H : set_attr ?t ?n _ _ (with_elements ?t (dset ?n _ _) _) = Ok _ |- _ =>
        rewrite set_attr_next in H; apply Ok_inj in H; subst
    end.

Section DataUtilsFacts.
Context `{TxCalc}.








End DataUtilsFacts.



(** ** Declarations on a Pyomo model *)

Lemma add_component_spec name c model model' :
  add_component name c model = Ok model' ->
  dget name model = None /\ model' = dset name c model.
Proof.
  unfold add_component, dhas. destruct (dget name model); [done|].
  intros H. by apply Ok_inj in H.
Qed.

Lemma add_component_keeps name c model model' k x :
  add_component name c model = Ok model' ->
  dget k model = Some x -> dget k model' = Some x.
Proof.
  intros Ha Hk. apply add_component_spec in Ha as [Hnone ->].
  rewrite dget_dset_ne; [done|congruence].
Qed.

Lemma add_components_keeps cs model model' k x :
  add_components cs model = Ok model' ->
  dget k model = Some x -> dget k model' = Some x.
Proof.
  unfold add_components. revert model.
  induction cs as [|[n c] cs IH]; intros model Ha Hk; simpl in Ha.
  - by inv_ok.
  - inv_ok. eapply IH; [done|]. by eapply add_component_keeps.
Qed.

Lemma string_length_append s1 s2 :
  String.length (s1 +:+ s2) = String.length s1 + String.length s2.
Proof. induction s1 as [|c s1 IH]; simpl; [done|by rewrite IH]. Qed.

Lemma index_set_name_differs varname : "_var_" +:+ varname +:+ "_index_set" <> varname.
Proof.
  intros Heq. apply (f_equal String.length) in Heq.
  rewrite !string_length_append in Heq. simpl in Heq. lia.
Qed.

Lemma ordered_set_In k l : In k (ordered_set l) <-> In k l.
Proof.
  induction l as [|x l IH]; simpl; [done|].
  rewrite List.filter_In, IH, negb_true_iff, String.eqb_neq. split.
  - intros [->|[Hin _]]; auto.
  - intros [->|Hin]; [by left|].
    destruct (String.eqb_spec k x) as [->|Hne]; [by left|by right].
Qed.

Lemma ordered_set_NoDup l : NoDup (ordered_set l).
Proof.
  induction l as [|x l IH]; simpl; [constructor|].
  apply NoDup_cons. split.
  - rewrite list_elem_of_In, List.filter_In, String.eqb_refl. by intros [_ ?].
  - apply NoDup_ListNoDup, List.NoDup_filter, NoDup_ListNoDup, IH.
Qed.

Lemma ordered_set_of_NoDup l : NoDup l -> ordered_set l = l.
Proof.
  induction 1 as [|x l Hx Hnd IH]; simpl; [done|]. rewrite IH. f_equal.
  clear IH Hnd. induction l as [|y l IH]; simpl; [done|].
  apply not_elem_of_cons in Hx as [Hne Hx].
  destruct (String.eqb_spec y x) as [->|_]; [done|]. simpl. f_equal. by apply IH.
Qed.

Lemma existsb_eqb_In k l : existsb (String.eqb k) l = true <-> In k l.
Proof.
  rewrite existsb_exists. split.
  - intros (x & Hin & Heq). apply String.eqb_eq in Heq. by subst.
  - intros Hin. exists k. split; [done|apply String.eqb_refl].
Qed.

Lemma construct_member_inv initialize bounds_rule k k' vd :
  construct_member initialize bounds_rule k = Ok (k', vd) ->
  k' = k /\
  var_fixed vd = false /\
  var_value vd = match initialize with Some init => dget k init | None => None end /\
  match bounds_rule with
  | Some rule => exists lu, rule k = Ok lu /\
                            var_lb vd = stored_lb (fst lu) /\
                            var_ub vd = stored_ub (snd lu)
  | None => var_lb vd = None /\ var_ub vd = None
  end.
Proof.
  unfold construct_member. intros Hf. destruct bounds_rule as [rule|].
  - destruct (rule k) as [lu|] eqn:Hlu; [|done]. simpl in Hf.
    apply Ok_inj in Hf. injection Hf as <- <-. simpl. eauto 8.
  - simpl in Hf. apply Ok_inj in Hf. injection Hf as <- <-. by simpl.
Qed.

Lemma construct_indexed_var_inv index_set initialize bounds_rule data :
  construct_indexed_var index_set initialize bounds_rule = Ok data ->
  (forall k, In k index_set -> dhas k data = true) /\
  (forall k vd, dget k data = Some vd ->
     In k index_set /\
     var_fixed vd = false /\
     var_value vd = match initialize with Some init => dget k init | None => None end /\
     match bounds_rule with
     | Some rule => exists lu, rule k = Ok lu /\
                               var_lb vd = stored_lb (fst lu) /\
                               var_ub vd = stored_ub (snd lu)
     | None => var_lb vd = None /\ var_ub vd = None
     end).
Proof.
  unfold construct_indexed_var. intros Hc. inv_ok.
  apply mapM_result_Forall2 in Ha0. split.
  - intros k Hk. apply dict_of_dhas. apply ordered_set_In in Hk.
    destruct (Forall2_In_l _ _ _ _ Ha0 Hk) as ([k' vd] & Hin & Hf).
    apply in_map_iff. exists (k', vd). split; [|done].
    simpl. by apply construct_member_inv in Hf as [-> _].
  - intros k vd Hg. apply dict_of_dget in Hg.
    destruct (Forall2_In_r _ _ _ _ Ha0 Hg) as (k' & Hin & Hf).
    apply construct_member_inv in Hf as (-> & Hrest).
    split; [by apply ordered_set_In|done].
Qed.

Lemma construct_indexed_var_initialize_keys index_set init bounds_rule data :
  construct_indexed_var index_set (Some init) bounds_rule = Ok data ->
  forall k, In k (dkeys init) -> In k index_set.
Proof.
  unfold construct_indexed_var. intros Hc k Hk. inv_ok.
  apply mapM_result_Forall2 in Ha.
  destruct (Forall2_In_l _ _ _ _ Ha Hk) as (kv & _ & Hf).
  destruct (existsb (String.eqb k) (ordered_set index_set)) eqn:Hex; [|done].
  apply existsb_eqb_In in Hex. by apply ordered_set_In.
Qed.

Lemma construct_indexed_var_spec index_set initialize bounds data :
  construct_indexed_var index_set initialize (Some (fun k => lu ← ditem k bounds; Ok (fst lu, snd lu))) = Ok data ->
  (forall k, In k index_set -> dhas k data = true) /\
  (forall k vd, dget k data = Some vd ->
     exists lu, dget k bounds = Some lu /\
       var_lb vd = stored_lb (fst lu) /\ var_ub vd = stored_ub (snd lu) /\
       var_fixed vd = false).
Proof.
  intros Hc. apply construct_indexed_var_inv in Hc as [Hcov Hmem].
  split; [done|]. intros k vd Hk.
  destruct (Hmem k vd Hk) as (_ & Hfix & _ & lu & Hlu & Hlb & Hub).
  unfold ditem in Hlu. destruct (dget k bounds) as [lu'|]; [|done].
  simpl in Hlu. apply Ok_inj in Hlu. subst lu. by exists lu'.
Qed.

Lemma add_component_constructing_spec name construct model model' :
  add_component_constructing name construct model = Ok model' ->
  dget name model = None /\
  exists c, construct = Ok c /\ model' = dset name c model.
Proof.
  unfold add_component_constructing, dhas.
  destruct (dget name model); [done|]. intros Ha. inv_ok. eauto.
Qed.

Lemma var_item_of_data name data model k :
  dget name model = Some (CVar data) -> var_item name k model = ditem k data.
Proof. intros Hm. unfold var_item, getattr_component. by rewrite Hm. Qed.

Lemma declare_var_indexed_inv varname model index_set initialize bounds model' :
  declare_var varname model (Some index_set) initialize bounds = Ok model' ->
  dget ("_var_" +:+ varname +:+ "_index_set") model = None /\
  dget varname model = None /\
  exists data,
    construct_indexed_var index_set initialize
      (match bounds with
       | Some d => Some (fun k => lu ← ditem k d; Ok (fst lu, snd lu))
       | None => None
       end) = Ok data /\
    model' = dset varname (CVar data)
               (dset ("_var_" +:+ varname +:+ "_index_set")
                  (CSet (ordered_set index_set)) model).
Proof.
  unfold declare_var. intros Hd. inv_ok.
  apply add_component_spec in Ha as [Hset ->].
  apply add_component_constructing_spec in Hd as (Hvar & c & Hc & ->).
  rewrite dget_dset_ne in Hvar by apply index_set_name_differs.
  inv_ok. split; [done|]. split; [done|]. eauto.
Qed.

Lemma declare_var_indexed_spec varname model index_set initialize bounds model' :
  declare_var varname model (Some index_set) initialize (Some bounds) = Ok model' ->
  (forall k x, dget k model = Some x -> dget k model' = Some x) /\
  exists data,
    dget varname model' = Some (CVar data) /\
    (forall k, In k index_set -> dhas k data = true) /\
    (forall k vd, dget k data = Some vd ->
       exists lu, dget k bounds = Some lu /\
         var_lb vd = stored_lb (fst lu) /\ var_ub vd = stored_ub (snd lu) /\
         var_fixed vd = false).
Proof.
  intros Hd. apply declare_var_indexed_inv in Hd as (Hset & Hvar & data & Hc & ->).
  apply construct_indexed_var_spec in Hc as [Hcov Hbounds].
  split.
  - intros k x Hk. rewrite !dget_dset_ne; [done| |]; congruence.
  - exists data. split; [apply dget_dset_eq|done].
Qed.

Lemma declare_var_keeps varname model index_set initialize bounds model' k x :
  declare_var varname model index_set initialize bounds = Ok model' ->
  dget k model = Some x -> dget k model' = Some x.
Proof.
  intros Hd Hk. destruct index_set as [index_set|].
  - apply declare_var_indexed_inv in Hd as (Hset & Hvar & data & _ & ->).
    rewrite !dget_dset_ne; [done| |]; congruence.
  - unfold declare_var in Hd.
    apply add_component_constructing_spec in Hd as (Hvar & c & _ & ->).
    rewrite dget_dset_ne; [done|congruence].
Qed.

Lemma constant_dict_dget {V} (c : V) names k v :
  dget k (dict_of (map (fun k => (k, c)) names)) = Some v -> v = c.
Proof.
  intros Hg. apply dict_of_dget, in_map_iff in Hg as (k' & [= _ <-] & _). done.
Qed.

Lemma fix_item_spec name k x model model' :
  fix_item name k x model = Ok model' ->
  exists data vd,
    dget name model = Some (CVar data) /\ dget k data = Some vd /\
    model' = dset name (CVar (dset k (mkVarData (Some x) (var_lb vd) (var_ub vd) true) data)) model.
Proof.
  unfold fix_item, var_item, getattr_component. intros Hf.
  destruct (dget name model) as [c|] eqn:Hc; [|done]. simpl in Hf.
  destruct c; try done. unfold ditem in Hf.
  destruct (dget k data) as [vd|] eqn:Hvd; [|done]. simpl in Hf.
  apply Ok_inj in Hf. eauto.
Qed.

(** ** The angle-based builder *)

Section BuilderFacts.
Context `{TxCalc} `{EgretLibrary} `{SolverBackend}.

Lemma fix_reference_angle_spec ref_bus ref_angle model model' :
  fix_reference_angle ref_bus ref_angle model = Ok model' ->
  exists b x data vd,
    ref_bus = VStr b /\ ref_angle = VFloat x /\
    dget "va" model = Some (CVar data) /\ dget b data = Some vd /\
    model' = dset "va" (CVar (dset b (mkVarData (Some (VFloat (Py.radians x)))
                                         (var_lb vd) (var_ub vd) true) data)) model.
Proof.
  unfold fix_reference_angle. intros Hf.
  destruct ref_bus as [|b| | |]; try done. inv_ok.
  destruct ref_angle as [x| | | |]; try done.
  apply fix_item_spec in Hf as (data & vd & Hva & Hb & ->). by exists b, x, data, vd.
Qed.

Lemma va_all_bounded_keeps names model model' :
  (forall k x, dget k model = Some x -> dget k model' = Some x) ->
  va_all_bounded names model -> va_all_bounded names model'.
Proof. intros Hk (data & Hva & Hrest). exists data. split; [by apply Hk|done]. Qed.

Lemma btheta_losses_formulation_va md relaxation_type angle_limits slack model :
  btheta_losses_formulation md relaxation_type angle_limits slack = Ok model ->
  exists b x,
    dget "reference_bus" (system md) = Some (VStr b) /\
    dget "reference_bus_angle" (system md) = Some (VFloat x) /\
    va_all_bounded (attribute_names md bus) model /\
    va_fixed_at (VFloat (Py.radians x)) model b.
Proof.
  unfold btheta_losses_formulation. intros Hf. inv_ok.
  (* the declaration of [va] *)
  match goal with
  | Hd : declare_var_va _ _ _ _ = Ok ?m |- _ =>
      unfold declare_var_va in Hd;
      apply declare_var_indexed_spec in Hd as (_ & data & Hva & Hcov & Hbounds);
      assert (Hdeclared : va_all_bounded (attribute_names md bus) m)
  end.
  { exists data. split; [done|]. split; [done|].
    intros k vd Hk. destruct (Hbounds k vd Hk) as (lu & Hlu & -> & -> & _).
    apply constant_dict_dget in Hlu. by subst lu. }
  clear data Hva Hcov Hbounds.
  (* later declarations only add components *)
  match goal with
  | Hd : declare_var_dva _ _ _ = Ok ?m |- _ =>
      unfold declare_var_dva in Hd;
      assert (Hdva : va_all_bounded (attribute_names md bus) m)
        by (eapply va_all_bounded_keeps; [|exact Hdeclared];
            intros k x; eapply declare_var_keeps; exact Hd)
  end.
  match goal with
  | Hs : (if slack then _ else _) = Ok ?m |- _ =>
      assert (Hslack : va_all_bounded (attribute_names md bus) m)
  end.
  { destruct slack; inv_ok; [|done].
    eapply va_all_bounded_keeps; [|exact Hdva].
    intros k x. eapply add_components_keeps. eassumption. }
  (* fixing the reference bus keeps the bounds *)
  match goal with
  | Hr : fix_reference_angle _ _ _ = Ok _ |- _ =>
      apply fix_reference_angle_spec in Hr
        as (b & x & data & vd & -> & -> & Hva & Hb & ->)
  end.
  destruct Hslack as (data' & Hva' & Hcov & Hbounds).
  rewrite Hva in Hva'. injection Hva' as <-.
  set (vd' := mkVarData (Some (VFloat (Py.radians x))) (var_lb vd) (var_ub vd) true) in *.
  set (fixed := dset "va" (CVar (dset b vd' data)) _) in *.
  assert (Hfixed : dget "va" fixed = Some (CVar (dset b vd' data)))
    by apply dget_dset_eq.
  assert (Hfinal : dget "va" model = Some (CVar (dset b vd' data))).
  { eapply add_components_keeps; [done|]. by eapply add_components_keeps. }
  exists b, x.
  repeat match goal with
    | Hd : ditem _ (system md) = Ok _ |- _ =>
        unfold ditem in Hd;
        match type of Hd with
        | match ?o with _ => _ end = _ => destruct o eqn:?; [|discriminate Hd]
        end; apply Ok_inj in Hd; subst
    end.
  split; [done|]. split; [done|]. split.
  - exists (dset b vd' data). split; [done|]. split.
    + intros k Hk. rewrite dhas_dset. rewrite (Hcov k Hk). apply orb_true_r.
    + intros k vd0. rewrite dget_dset. destruct (String.eqb k b) eqn:E.
      * intros [= <-]. simpl. by apply (Hbounds b).
      * by apply Hbounds.
  - exists vd'. split; [|done].
    unfold var_item, getattr_component, ditem. rewrite Hfinal. simpl.
    by rewrite dget_dset_eq.
Qed.

End BuilderFacts.

(** ** The extraction of results *)

Lemma add_branch_terms_spec m b e kk e' p :
  add_branch_terms m b e kk = Ok e' ->
  dget "lmp" e = Some (VFloat p) ->
  exists ptdf flow_dual ldf loss_dual,
    row_item "ptdf_r" b (snd kk) = Ok ptdf /\
    dual_of_member "eq_pf_branch" (fst kk) m = Ok flow_dual /\
    row_item "ldf" b (snd kk) = Ok ldf /\
    dual_of_member "eq_pfl_branch" (fst kk) m = Ok loss_dual /\
    e' = dset "lmp" (VFloat (p + ptdf * flow_dual + ldf * loss_dual)%float) e.
Proof.
  unfold add_branch_terms, float_item, ditem. intros Ha Hp.
  rewrite Hp in Ha. simpl in Ha. inv_ok.
  rewrite dget_dset_eq in Ha. simpl in Ha. inv_ok.
  do 4 eexists. repeat (split; [eassumption|]). by rewrite dset_dset.
Qed.

Lemma branch_terms_loop m b branches e e' p :
  for_each (add_branch_terms m b) branches e = Ok e' ->
  dget "lmp" e = Some (VFloat p) ->
  exists x,
    for_each (fun price kk =>
        ptdf ← row_item "ptdf_r" b (snd kk);
        flow_dual ← dual_of_member "eq_pf_branch" (fst kk) m;
        ldf ← row_item "ldf" b (snd kk);
        loss_dual ← dual_of_member "eq_pfl_branch" (fst kk) m;
        Ok (price + ptdf * flow_dual + ldf * loss_dual)%float) branches p = Ok x /\
    dget "lmp" e' = Some (VFloat x) /\
    (forall a, a <> "lmp" -> dget a e' = dget a e).
Proof.
  revert e p. induction branches as [|kk branches IH]; intros e p Hl Hp; simpl in Hl.
  - inv_ok. exists p. by repeat split.
  - inv_ok.
    destruct (add_branch_terms_spec _ _ _ _ _ _ Ha Hp)
      as (ptdf & fd & ldf & ld & H1 & H2 & H3 & H4 & ->).
    destruct (IH _ _ Hl (dget_dset_eq _ _ _)) as (x & Hx & Hlmp & Hother).
    exists x. simpl. rewrite H1. simpl. rewrite H2. simpl. rewrite H3. simpl.
    rewrite H4. simpl. split; [done|]. split; [done|].
    intros a Ha'. rewrite Hother by done. by apply dget_dset_ne.
Qed.

Lemma dget_dpop {V} k k' (d : dict V) :
  dget k' (dpop k d) = if String.eqb k' k then None else dget k' d.
Proof.
  destruct (String.eqb k' k) eqn:E.
  - apply String.eqb_eq in E. subst. apply dget_dpop_eq.
  - apply dget_dpop_ne. intros ->. by rewrite String.eqb_refl in E.
Qed.

Lemma eqb_ne a b : a <> b -> String.eqb a b = false.
Proof. intros Hne. by destruct (String.eqb_spec a b). Qed.

Lemma save_bus_spec g m branches b e e' :
  save_bus g m branches b e = Ok e' ->
  (exists v, var_item_value "pl" b m = Ok v /\ dget "pl" e' = Some v) /\
  dget "qlmp" e' = None /\
  (is_btheta g = true ->
     exists x v, dual_of_member "eq_p_balance" b m = Ok x /\
                 dget "lmp" e' = Some (VFloat x) /\
                 var_item_value "va" b m = Ok v /\ dget "va" e' = Some v) /\
  (is_ptdf g = true ->
     exists x, ptdf_marginal_price m branches b = Ok x /\
               dget "lmp" e' = Some (VFloat x)) /\
  (forall a, a <> "pl" -> a <> "qlmp" -> a <> "lmp" -> a <> "va" ->
     dget a e' = dget a e).
Proof.
  unfold save_bus. intros Hs. inv_ok.
  destruct g as [| |f]; simpl in *; inv_ok.
  - (* angle-based *)
    split; [eexists; split; [done|]; by rewrite !dget_dset, !dget_dpop, !dget_dset|].
    split; [by rewrite !dget_dset, !dget_dpop|].
    split; [intros _; do 2 eexists; repeat split; try eassumption;
            by rewrite !dget_dset|].
    split; [done|].
    intros k H1 H2 H3 H4.
    by rewrite !dget_dset, !dget_dpop, !dget_dset, !eqb_ne.
  - (* PTDF-based *)
    destruct (branch_terms_loop _ _ _ _ _ _ Hs (dget_dset_eq _ _ _))
      as (x & Hx & Hlmp & Hother).
    split; [eexists; split; [done|];
            by rewrite Hother, !dget_dset, !dget_dpop, !dget_dset|].
    split; [by rewrite Hother, !dget_dset, !dget_dpop|].
    split; [done|].
    split; [intros _; exists x; split; [|done];
            unfold ptdf_marginal_price; by rewrite Ha0|].
    intros k H1 H2 H3 H4.
    by rewrite Hother, !dget_dset, !dget_dpop, !dget_dset, !eqb_ne.
  - (* another generator *)
    split; [eexists; split; [done|]; by rewrite !dget_dpop, !dget_dset|].
    split; [by rewrite !dget_dpop|].
    split; [done|]. split; [done|].
    intros k H1 H2 H3 H4. by rewrite !dget_dpop, !dget_dset, !eqb_ne.
Qed.

Lemma save_results_spec g m md md' :
  save_results g m md = Ok md' ->
  (exists v, objective_value "obj" m = Ok v /\
             system md' = dset "total_cost" v (system md)) /\
  (forall n e', dget n (elements md' generator) = Some e' ->
     exists e v, dget n (elements md generator) = Some e /\
                 var_item_value "pg" n m = Ok v /\ e' = dset "pg" v e) /\
  (forall b e', dget b (elements md' bus) = Some e' ->
     exists e, dget b (elements md bus) = Some e /\
               save_bus g m (elements md branch) b e = Ok e') /\
  (forall k e', dget k (elements md' branch) = Some e' ->
     exists e v, dget k (elements md branch) = Some e /\
                 var_item_value "pf" k m = Ok v /\ e' = dset "pf" v e) /\
  (forall t n, dhas n (elements md' t) = dhas n (elements md t)).
Proof.
  unfold save_results. intros Hs. inv_ok.
  destruct md as [sys bs ks gs ls ss]. simpl in *.
  split; [eexists; by split|].
  split.
  { intros n e' He'. destruct (for_items_dget _ _ _ _ _ Ha0 He') as (e & He & Hf).
    inv_ok. eauto 6. }
  split.
  { intros b e' He'. destruct (for_items_dget _ _ _ _ _ Ha1 He') as (e & He & Hf).
    eauto. }
  split.
  { intros k e' He'. destruct (for_items_dget _ _ _ _ _ Ha2 He') as (e & He & Hf).
    inv_ok. eauto 6. }
  intros t n. unfold dhas.
  assert (Hk : forall {V} (f : string -> V -> result V) d d',
            for_items f d = Ok d' ->
            match dget n d' with Some _ => true | None => false end
            = match dget n d with Some _ => true | None => false end).
  { intros V f d d' Hf. destruct (dget n d') as [v'|] eqn:E'.
    - destruct (for_items_dget _ _ _ _ _ Hf E') as (v & -> & _). done.
    - destruct (dget n d) as [v|] eqn:E; [|done].
      assert (Hin : In n (dkeys d')).
      { rewrite (for_items_keys _ _ _ Hf). by eapply dget_Some_keys. }
      apply dkeys_In_dget in Hin as [v' Hv']. congruence. }
  destruct t; simpl; eauto.
Qed.

(** ** Effects on the heap *)

Lemma eff_bind_ok {A B} (c : eff A) (f : A -> eff B) w w' b :
  (c ≫= f) w = (w', Ok b) ->
  exists a w1, c w = (w1, Ok a) /\ f a w1 = (w', Ok b).
Proof. unfold mbind, eff_bind. destruct (c w) as [w1 [a|e]]; [eauto|done]. Qed.

Lemma update_md_ok r f w w' u :
  update_md r f w = (w', Ok u) ->
  exists md md', heap w !! r = Some md /\ f md = Ok md' /\
                 w' = mkWorld (<[r := md']> (heap w)) (solver_log w).
Proof.
  unfold update_md. destruct (heap w !! r) as [md|] eqn:Hr; [|done].
  destruct (f md) as [md'|] eqn:Hf; [|done]. intros [= <-]. by exists md, md'.
Qed.

Lemma load_md_ok r w w' md :
  load_md r w = (w', Ok md) -> w' = w /\ heap w !! r = Some md.
Proof.
  unfold load_md. destruct (heap w !! r) eqn:Hr; [|done]. by intros [= <- <-].
Qed.

Lemma writes_only_at_bind {A B} r (c : eff A) (f : A -> eff B) w :
  writes_only_at r c w ->
  (forall a w1, c w = (w1, Ok a) -> writes_only_at r (f a) w1) ->
  writes_only_at r (c ≫= f) w.
Proof.
  unfold writes_only_at, mbind, eff_bind. intros Hc Hf.
  destruct (c w) as [w1 [a|e]] eqn:E; simpl in *; [|done].
  specialize (Hf a w1 eq_refl).
  destruct Hf as [->|[md ->]]; destruct Hc as [->|[md' ->]]; eauto.
  right. exists md. by rewrite insert_insert_eq.
Qed.

Lemma writes_only_at_update r f w : writes_only_at r (update_md r f) w.
Proof.
  unfold writes_only_at, update_md. destruct (heap w !! r); [|by left].
  destruct (f m); simpl; eauto.
Qed.

Lemma writes_only_at_load {r} a w : writes_only_at r (load_md a) w.
Proof. unfold writes_only_at, load_md. destruct (heap w !! a); by left. Qed.

Lemma writes_only_at_lift {A r} (x : result A) w : writes_only_at r (lift x) w.
Proof. by left. Qed.

Lemma writes_only_at_raise {A r} e w : writes_only_at r (@raise A e) w.
Proof. by left. Qed.

Lemma writes_only_at_ret {A r} (x : A) w : writes_only_at r (mret x) w.
Proof. by left. Qed.

Lemma writes_only_at_frame {A} r (c : eff A) w a :
  writes_only_at r c w -> r ∉ dom (heap w) -> a ∈ dom (heap w) ->
  heap (fst (c w)) !! a = heap w !! a.
Proof.
  intros [->|[md ->]] Hr Ha; [done|].
  apply lookup_insert_ne. intros ->. done.
Qed.

Section DriverHeapFacts.
Context `{SolverBackend}.

Lemma solve_model_heap model solver mipgap timelimit tee labels options w :
  heap (fst (_solve_model model solver mipgap timelimit tee labels options w)) = heap w.
Proof.
  unfold _solve_model, mbind, eff_bind, lift, raise, solve_call, mret, eff_ret.
  destruct solver as [name|s|v]; simpl; [|done|done].
  repeat (case_match; simpl in *; simplify_eq; try done).
Qed.

Lemma writes_only_at_solve_model r model solver mipgap timelimit tee labels options w :
  writes_only_at r (_solve_model model solver mipgap timelimit tee labels options) w.
Proof. left. apply solve_model_heap. Qed.

End DriverHeapFacts.

(** ** The builders and the solve, on the heap *)

Section SolveFacts.
Context `{TxCalc} `{EgretLibrary} `{SolverBackend}.

Lemma clone_in_service_ok a w w' r :
  clone_in_service a w = (w', Ok r) ->
  r = fresh (dom (heap w)) /\
  exists md0, heap w !! a = Some md0 /\
              w' = mkWorld (<[r := in_service md0]> (heap w)) (solver_log w).
Proof.
  unfold clone_in_service. intros Hc.
  apply eff_bind_ok in Hc as (md0 & w1 & Hl & Ha).
  apply load_md_ok in Hl as [-> Hl]. unfold alloc in Ha.
  injection Ha as <- <-. eauto.
Qed.

Lemma clone_in_service_writes a w :
  writes_only_at (fresh (dom (heap w))) (clone_in_service a) w.
Proof.
  unfold clone_in_service. apply writes_only_at_bind; [apply writes_only_at_load|].
  intros md0 w1 Hl. apply load_md_ok in Hl as [-> _]. right. by eexists.
Qed.

Lemma fresh_not_in_heap w : fresh (dom (heap w)) ∉ dom (heap w).
Proof. apply is_fresh. Qed.

Lemma create_btheta_writes a rt al fs w :
  writes_only_at (fresh (dom (heap w)))
    (create_btheta_losses_dcopf_model a rt al fs) w.
Proof.
  unfold create_btheta_losses_dcopf_model.
  apply writes_only_at_bind; [apply clone_in_service_writes|].
  intros r w1 Hc. apply clone_in_service_ok in Hc as (<- & _).
  apply writes_only_at_bind; [apply writes_only_at_update|]. intros _ w2 _.
  apply writes_only_at_bind; [apply writes_only_at_load|]. intros md w3 _.
  apply writes_only_at_bind; [apply writes_only_at_lift|]. intros m w4 _.
  apply writes_only_at_ret.
Qed.

Lemma create_ptdf_writes a fs w :
  writes_only_at (fresh (dom (heap w))) (create_ptdf_losses_dcopf_model a fs) w.
Proof.
  unfold create_ptdf_losses_dcopf_model.
  apply writes_only_at_bind; [apply clone_in_service_writes|].
  intros r w1 Hc. apply clone_in_service_ok in Hc as (<- & _).
  apply writes_only_at_bind; [apply writes_only_at_update|]. intros _ w2 _.
  apply writes_only_at_bind; [apply writes_only_at_update|]. intros _ w2' _.
  apply writes_only_at_bind; [apply writes_only_at_load|]. intros md w3 _.
  apply writes_only_at_bind; [apply writes_only_at_lift|]. intros m w4 _.
  apply writes_only_at_ret.
Qed.

Lemma create_btheta_ok a rt al fs w w' m r :
  create_btheta_losses_dcopf_model a rt al fs w = (w', Ok (m, r)) ->
  r = fresh (dom (heap w)) /\
  exists md, heap w' = <[r := md]> (heap w) /\ solver_log w' = solver_log w /\
             btheta_losses_formulation md rt al fs = Ok m.
Proof.
  unfold create_btheta_losses_dcopf_model. intros Hc.
  apply eff_bind_ok in Hc as (r' & w1 & Hclone & Hc).
  apply clone_in_service_ok in Hclone as (-> & md0 & Hmd0 & ->).
  apply eff_bind_ok in Hc as (u & w2 & Hscale & Hc).
  apply update_md_ok in Hscale as (md1 & md2 & Hmd1 & Hs & ->). simpl in *.
  apply eff_bind_ok in Hc as (md & w3 & Hload & Hc).
  apply load_md_ok in Hload as [-> Hload]. simpl in Hload.
  rewrite lookup_insert_eq in Hload. injection Hload as <-.
  apply eff_bind_ok in Hc as (m' & w4 & Hform & Hc).
  unfold lift in Hform. injection Hform as <- Hform.
  injection Hc as <- <- <-. simpl.
  split; [done|]. exists md2. by rewrite insert_insert_eq.
Qed.

Lemma create_ptdf_ok a fs w w' m r :
  create_ptdf_losses_dcopf_model a fs w = (w', Ok (m, r)) ->
  r = fresh (dom (heap w)) /\
  exists md, heap w' = <[r := md]> (heap w) /\ solver_log w' = solver_log w /\
             ptdf_losses_formulation md fs = Ok m.
Proof.
  unfold create_ptdf_losses_dcopf_model. intros Hc.
  apply eff_bind_ok in Hc as (r' & w1 & Hclone & Hc).
  apply clone_in_service_ok in Hclone as (-> & md0 & Hmd0 & ->).
  apply eff_bind_ok in Hc as (u & w2 & Hscale & Hc).
  apply update_md_ok in Hscale as (md1 & md2 & Hmd1 & Hs & ->). simpl in *.
  apply eff_bind_ok in Hc as (u' & w2' & Hdicts & Hc).
  apply update_md_ok in Hdicts as (md3 & md4 & Hmd3 & Hd & ->). simpl in *.
  apply eff_bind_ok in Hc as (md & w3 & Hload & Hc).
  apply load_md_ok in Hload as [-> Hload]. simpl in Hload.
  rewrite lookup_insert_eq in Hload. injection Hload as <-.
  apply eff_bind_ok in Hc as (m' & w4 & Hform & Hc).
  unfold lift in Hform. injection Hform as <- Hform.
  injection Hc as <- <- <-. simpl.
  split; [done|]. exists md4. by rewrite !insert_insert_eq.
Qed.

Lemma call_generator_writes g a kwargs w :
  g = btheta_generator \/ g = ptdf_generator ->
  writes_only_at (fresh (dom (heap w))) (call_generator g a kwargs) w.
Proof.
  intros [->| ->]; simpl; [apply create_btheta_writes|].
  destruct (kw_relaxation_type kwargs), (kw_include_angle_diff_limits kwargs);
    try apply writes_only_at_raise.
  apply create_ptdf_writes.
Qed.

Lemma call_generator_ok g a kwargs w w' m r :
  g = btheta_generator \/ g = ptdf_generator ->
  call_generator g a kwargs w = (w', Ok (m, r)) ->
  r = fresh (dom (heap w)) /\
  exists md, heap w' = <[r := md]> (heap w) /\ solver_log w' = solver_log w.
Proof.
  intros [->| ->]; simpl.
  - intros Hc. apply create_btheta_ok in Hc as (-> & md & ? & ? & _). eauto.
  - destruct (kw_relaxation_type kwargs), (kw_include_angle_diff_limits kwargs);
      try done.
    intros Hc. apply create_ptdf_ok in Hc as (-> & md & ? & ? & _). eauto.
Qed.

Lemma solve_dcopf_losses_ok a solver timelimit tee labels options g rm rr kwargs w w' ret :
  solve_dcopf_losses a solver timelimit tee labels options g rm rr kwargs w
    = (w', Ok ret) ->
  exists m0 w1 m results w2 md1 md2 md3,
    call_generator g a kwargs w = (w1, Ok (m0, returned_md ret)) /\
    _solve_model (setattr_component "dual" (CSuffix []) m0) solver
      (Some 0x1.0624dd2f1a9fcp-10%float) timelimit tee labels options w1
      = (w2, Ok (m, results)) /\
    heap w2 !! returned_md ret = Some md1 /\
    save_results g m md1 = Ok md2 /\
    unscale_ModelData_to_pu md2 = Ok md3 /\
    heap w' = <[returned_md ret := md3]> (heap w2) /\
    (rm = true -> ret = ReturnMdModel (returned_md ret) m \/
                  ret = ReturnMdModelResults (returned_md ret) m results).
Proof.
  unfold solve_dcopf_losses. intros Hs.
  apply eff_bind_ok in Hs as ([m0 r] & w1 & Hgen & Hs). simpl in Hs.
  apply eff_bind_ok in Hs as ([m results] & w2 & Hsolve & Hs). simpl in Hs.
  apply eff_bind_ok in Hs as (u & w3 & Hsave & Hs).
  apply update_md_ok in Hsave as (md1 & md2 & Hmd1 & Hsave & ->).
  apply eff_bind_ok in Hs as (u' & w4 & Hun & Hs).
  apply update_md_ok in Hun as (md2' & md3 & Hmd2 & Hun & ->). simpl in *.
  rewrite lookup_insert_eq in Hmd2. injection Hmd2 as <-.
  injection Hs as <- <-. simpl.
  assert (Hret : returned_md (if rm && rr then ReturnMdModelResults r m results
                              else if rm then ReturnMdModel r m
                              else if rr then ReturnMdResults r results
                              else ReturnMd r) = r) by by destruct rm, rr.
  rewrite Hret. exists m0, w1, m, results, w2, md1, md2, md3.
  repeat (split; [done|]). split; [by rewrite insert_insert_eq|].
  intros ->. destruct rr; simpl; eauto.
Qed.

Lemma solve_dcopf_losses_writes a solver timelimit tee labels options g rm rr kwargs w :
  g = btheta_generator \/ g = ptdf_generator ->
  writes_only_at (fresh (dom (heap w)))
    (solve_dcopf_losses a solver timelimit tee labels options g rm rr kwargs) w.
Proof.
  intros Hg. unfold solve_dcopf_losses.
  apply writes_only_at_bind; [by apply call_generator_writes|].
  intros [m0 r] w1 Hgen. apply (call_generator_ok _ _ _ _ _ _ _ Hg) in Hgen as (-> & _).
  apply writes_only_at_bind; [apply writes_only_at_solve_model|]. intros mr w2 _.
  apply writes_only_at_bind; [apply writes_only_at_update|]. intros _ w3 _.
  apply writes_only_at_bind; [apply writes_only_at_update|]. intros _ w4 _.
  apply writes_only_at_ret.
Qed.

End SolveFacts.

Lemma for_each_for_items {V S} (g : string -> V -> result V)
  (step : S -> string * V -> result S) d d' s :
  for_items g d = Ok d' ->
  (forall k v v' s, g k v = Ok v' -> step s (k, v') = step s (k, v)) ->
  for_each step d' s = for_each step d s.
Proof.
  intros Hf Hstep. revert d' s Hf.
  induction d as [|[k v] d IH]; intros d' s Hf; simpl in Hf.
  - by inv_ok.
  - inv_ok. simpl. rewrite (Hstep _ _ _ _ Ha).
    destruct (step s (k, v)); simpl; [by apply IH|done].
Qed.

Lemma row_item_dset a b k v e :
  a <> k -> row_item a b (dset k v e) = row_item a b e.
Proof. intros Hne. unfold row_item, ditem. by rewrite dget_dset, eqb_ne. Qed.

Lemma ptdf_marginal_price_extracted g m md md' b :
  save_results g m md = Ok md' ->
  ptdf_marginal_price m (elements md' branch) b
  = ptdf_marginal_price m (elements md branch) b.
Proof.
  unfold save_results. intros Hs. inv_ok.
  destruct md as [sys bs ks gs ls ss]. simpl in *.
  unfold ptdf_marginal_price.
  destruct (dual_of_scalar "eq_p_balance" m) as [lam|]; [simpl|done].
  eapply for_each_for_items; [exact Ha2|].
  intros k v v' s Hv. simpl in *. inv_ok.
  by rewrite !row_item_dset.
Qed.

Section ClaimFacts.
Context `{TxCalc} `{EgretLibrary} `{SolverBackend}.

Lemma solve_dcopf_losses_solved_by a solver timelimit tee labels options g rm rr kwargs w w' ret :
  solve_dcopf_losses a solver timelimit tee labels options g rm rr kwargs w
    = (w', Ok ret) ->
  exists m md1 md2 md3,
    solved_by a solver timelimit tee labels options g kwargs w
      m md1 md2 md3 (returned_md ret) w'.
Proof.
  intros Hs. apply solve_dcopf_losses_ok in Hs
    as (m0 & w1 & m & results & w2 & md1 & md2 & md3 & Hg & Hsolve & Hmd1 & Hsave & Hun & Hheap & _).
  exists m, md1, md2, md3, m0, w1, results, w2.
  repeat (split; [done|]). rewrite Hheap. apply lookup_insert_eq.
Qed.

Lemma save_results_names g m md md' :
  save_results g m md = Ok md' ->
  forall t, attribute_names md' t = attribute_names md t.
Proof.
  unfold save_results, attribute_names. intros Hs t. inv_ok.
  destruct md as [sys bs ks gs ls ss]. simpl in *.
  destruct t; simpl; try done; by eapply for_items_keys.
Qed.

Lemma save_results_written g m md md' :
  save_results g m md = Ok md' -> results_written g m md md'.
Proof.
  intros Hs. destruct (save_results_spec _ _ _ _ Hs)
    as ((v & Hobj & Hsys) & Hgen & Hbus & Hbranch & _).
  split; [by eapply save_results_names|].
  split; [exists v; split; [done|]; rewrite Hsys; apply dget_dset_eq|].
  split.
  { intros n e He. destruct (Hgen n e He) as (e0 & v0 & _ & Hv & ->).
    exists v0. split; [done|apply dget_dset_eq]. }
  split.
  { intros b e He. destruct (Hbus b e He) as (e0 & _ & Hsb).
    destruct (save_bus_spec _ _ _ _ _ _ Hsb) as (Hpl & _ & Hbt & Hpt & _).
    split; [done|]. split; [|split].
    - intros Hg. destruct (Hbt Hg) as (x & _ & Hd & Hl & _). eauto.
    - done.
    - intros Hg. destruct (Hbt Hg) as (x & v0 & _ & _ & Hv & Hva). eauto. }
  intros k e He. destruct (Hbranch k e He) as (e0 & v0 & He0 & Hv & ->).
  split; [exists v0; split; [done|apply dget_dset_eq]|].
  exists e0. split; [done|]. intros a Ha. apply dget_dset_ne. congruence.
Qed.

Lemma results_written_present g m md md' :
  results_written g m md md' -> results_present g md'.
Proof.
  intros (_ & (v & _ & Hc) & Hgen & Hbus & Hbranch).
  split; [unfold dhas; by rewrite Hc|]. split.
  { intros n e He. destruct (Hgen n e He) as (v0 & _ & Hv). unfold dhas. by rewrite Hv. }
  split.
  { intros b e He. destruct (Hbus b e He) as ((v0 & _ & Hpl) & Hbt & Hpt & Hva).
    split; [unfold dhas; by rewrite Hpl|]. split.
    - intros Hg. apply orb_true_iff in Hg as [Hg|Hg].
      + destruct (Hbt Hg) as (x & _ & Hx). unfold dhas. by rewrite Hx.
      + destruct (Hpt Hg) as (x & _ & Hx). unfold dhas. by rewrite Hx.
    - intros Hg. destruct (Hva Hg) as (x & _ & Hx). unfold dhas. by rewrite Hx. }
  intros k e He. destruct (Hbranch k e He) as ((v0 & _ & Hpf) & _).
  unfold dhas. by rewrite Hpf.
Qed.

Lemma results_present_same_names g md md' :
  same_attribute_names md md' -> results_present g md -> results_present g md'.
Proof.
  intros (Hsys & Hel & Hattr) (Hc & Hgen & Hbus & Hbranch).
  assert (Hback : forall t n e', dget n (elements md' t) = Some e' ->
            exists e, dget n (elements md t) = Some e /\ forall a, dhas a e' = dhas a e).
  { intros t n e' He'.
    assert (Hn : dhas n (elements md t) = true).
    { rewrite <- Hel. apply dhas_dget. eauto. }
    apply dhas_dget in Hn as [e He]. exists e. split; [done|]. eauto. }
  split; [by rewrite Hsys|]. split.
  { intros n e' He'. destruct (Hback _ _ _ He') as (e & He & ->). eauto. }
  split.
  { intros b e' He'. destruct (Hback _ _ _ He') as (e & He & Hk).
    rewrite !Hk. eauto. }
  intros k e' He'. destruct (Hback _ _ _ He') as (e & He & ->). eauto.
Qed.

End ClaimFacts.

(** * Properties of the specification *)


Section Claims.
Context `{TxCalc} `{EgretLibrary} `{SolverBackend}.

(** C1: in a solve with the PTDF-based builder, the extraction writes
    an [lmp] on every bus of the snapshot that was built (the extracted
    snapshot has the same buses, by name and in order), and that [lmp]
    is the dual of the system-wide balance constraint plus, over all
    branches, the branch's PTDF entry at the bus times the dual of its
    flow equality and the branch's LDF entry at the bus times the dual of
    its loss equality ([ptdf_marginal_price], on the solved model and
    the sensitivity rows of the snapshot).  The snapshot handed back is
    the un-scaled image of that extracted snapshot. *)
Theorem ptdf_lmp_is_reconstructed
  a solver timelimit tee labels options rm rr kwargs w w' ret :
  solve_dcopf_losses a solver timelimit tee labels options ptdf_generator
    rm rr kwargs w = (w', Ok ret) ->
  exists m md_built md_extracted md_returned,
    solved_by a solver timelimit tee labels options ptdf_generator kwargs w
      m md_built md_extracted md_returned (returned_md ret) w' /\
    attribute_names md_extracted bus = attribute_names md_built bus /\
    forall b, In b (attribute_names md_built bus) ->
      exists e x,
        dget b (elements md_extracted bus) = Some e /\
        ptdf_marginal_price m (elements md_built branch) b = Ok x /\
        ptdf_marginal_price m (elements md_extracted branch) b = Ok x /\
        dget "lmp" e = Some (VFloat x).
Proof.
  intros Hs. destruct (solve_dcopf_losses_solved_by _ _ _ _ _ _ _ _ _ _ _ _ _ Hs)
    as (m & md1 & md2 & md3 & Hby).
  exists m, md1, md2, md3. split; [done|].
  destruct Hby as (m0 & w1 & results & w2 & _ & _ & _ & Hsave & _).
  pose proof (save_results_names _ _ _ _ Hsave bus) as Hnames.
  split; [done|]. intros b Hb.
  rewrite <- Hnames in Hb. apply dkeys_In_dget in Hb as [e He].
  destruct (save_results_spec _ _ _ _ Hsave) as (_ & _ & Hbus & _).
  destruct (Hbus b e He) as (e0 & _ & Hsb).
  destruct (save_bus_spec _ _ _ _ _ _ Hsb) as (_ & _ & _ & Hpt & _).
  destruct (Hpt eq_refl) as (x & Hx & Hlmp).
  exists e, x. split; [done|]. split; [done|]. split; [|done].
  by rewrite (ptdf_marginal_price_extracted _ _ _ _ _ Hsave).
Qed.

(** C4: with either builder, the snapshot the caller passed is left as
    it was, whether the call returns or raises, and so is every other
    snapshot that existed before the call; the reference a builder
    returns is a new one, and [solve_dcopf_losses] returns that same
    reference, behind which the scaled, extended and solved snapshot
    lives. *)
Theorem builders_leave_original_unchanged
  g a solver timelimit tee labels options rm rr kwargs w md0 :
  g = btheta_generator \/ g = ptdf_generator ->
  heap w !! a = Some md0 ->
  let built := call_generator g a kwargs w in
  let solved :=
    solve_dcopf_losses a solver timelimit tee labels options g rm rr kwargs w in
  (heap (fst built) !! a = Some md0 /\
   (forall a', a' ∈ dom (heap w) -> heap (fst built) !! a' = heap w !! a') /\
   (forall m r, snd built = Ok (m, r) ->
      (r ∉ dom (heap w)) /\ is_Some (heap (fst built) !! r))) /\
  (heap (fst solved) !! a = Some md0 /\
   (forall a', a' ∈ dom (heap w) -> heap (fst solved) !! a' = heap w !! a') /\
   (forall ret, snd solved = Ok ret ->
      (returned_md ret ∉ dom (heap w)) /\
      (exists m0, snd built = Ok (m0, returned_md ret)) /\
      is_Some (heap (fst solved) !! returned_md ret))).
Proof.
  intros Hg Ha built solved.
  assert (Hdom : a ∈ dom (heap w)) by (apply elem_of_dom; eauto).
  pose proof (fresh_not_in_heap w) as Hfresh.
  assert (Hb : forall a', a' ∈ dom (heap w) -> heap (fst built) !! a' = heap w !! a').
  { intros a' Ha'. apply (writes_only_at_frame (fresh (dom (heap w)))); [|done|done].
    by apply call_generator_writes. }
  assert (Hs : forall a', a' ∈ dom (heap w) -> heap (fst solved) !! a' = heap w !! a').
  { intros a' Ha'. apply (writes_only_at_frame (fresh (dom (heap w)))); [|done|done].
    by apply solve_dcopf_losses_writes. }
  split; (split; [by rewrite ?Hb, ?Hs|]; split; [done|]).
  - intros m r Hr. destruct built as [w1 out] eqn:Hbuilt. simpl in *. subst out.
    destruct (call_generator_ok _ _ _ _ _ _ _ Hg Hbuilt) as (-> & md & Hheap & _).
    split; [done|]. rewrite Hheap, lookup_insert_eq. eauto.
  - intros ret Hr. destruct solved as [w' out] eqn:Hsolved. simpl in *. subst out.
    apply solve_dcopf_losses_ok in Hsolved
      as (m0 & w1 & m & results & w2 & md1 & md2 & md3 & Hgen & _ & _ & _ & _ & Hheap & _).
    destruct (call_generator_ok _ _ _ _ _ _ _ Hg Hgen) as (Hret & _).
    split; [by rewrite Hret|]. split.
    + exists m0. subst built. by rewrite Hgen.
    + rewrite Hheap, lookup_insert_eq. eauto.
Qed.

(** C5 (amended): after every successful solve, the extracted snapshot
    has the elements of the snapshot that was built, and the extraction
    has written the total cost, [pg] on every generator, [pl] on every
    bus (with [lmp] when the generator is one of the two builders of the
    module: the dual of the bus's balance constraint for the angle-based
    one, the price reconstructed from the sensitivity rows for the
    PTDF-based one; and [va] when it is the angle-based one) and [pf] on
    every branch, each with the value of the solved model; no other
    attribute of a branch is written, so there is no per-branch loss
    field.  When un-scaling only rewrites values, the returned snapshot
    has all these fields. *)
Theorem solve_writes_result_fields
  a solver timelimit tee labels options g rm rr kwargs w w' ret :
  keeps_attribute_names unscale_ModelData_to_pu ->
  solve_dcopf_losses a solver timelimit tee labels options g rm rr kwargs w
    = (w', Ok ret) ->
  exists m md_built md_extracted md_returned,
    solved_by a solver timelimit tee labels options g kwargs w
      m md_built md_extracted md_returned (returned_md ret) w' /\
    results_written g m md_built md_extracted /\
    results_present g md_returned.
Proof.
  intros Hkeep Hs.
  destruct (solve_dcopf_losses_solved_by _ _ _ _ _ _ _ _ _ _ _ _ _ Hs)
    as (m & md1 & md2 & md3 & Hby).
  exists m, md1, md2, md3. split; [done|].
  destruct Hby as (m0 & w1 & results & w2 & _ & _ & _ & Hsave & Hun & _).
  pose proof (save_results_written _ _ _ _ Hsave) as Hw.
  split; [done|].
  eapply results_present_same_names; [by apply Hkeep|].
  by eapply results_written_present.
Qed.

(** C6: in the model the angle-based builder returns, the angle
    variable of every bus of the snapshot has the bounds [-pi] and [pi],
    and the angle variable of the reference bus is fixed at the
    configured reference-bus angle: the snapshot holds that angle in
    degrees, the variable holds it in radians,
    [radians(reference_bus_angle)]. *)
Theorem btheta_angle_variables a rt al fs w w' model r :
  create_btheta_losses_dcopf_model a rt al fs w = (w', Ok (model, r)) ->
  exists md ref x,
    heap w' !! r = Some md /\
    dget "reference_bus" (system md) = Some (VStr ref) /\
    dget "reference_bus_angle" (system md) = Some (VFloat x) /\
    (forall b, In b (attribute_names md bus) ->
       va_bounds_are (- Py.pi)%float Py.pi model b) /\
    va_fixed_at (VFloat (Py.radians x)) model ref.
Proof.
  intros Hc. apply create_btheta_ok in Hc as (-> & md & Hheap & _ & Hform).
  apply btheta_losses_formulation_va in Hform
    as (ref & x & Href & Hangle & (data & Hva & Hcov & Hbounds) & Hfixed).
  exists md, ref, x. split; [rewrite Hheap; apply lookup_insert_eq|].
  repeat (split; [done|]). split; [|done].
  intros b Hb. apply Hcov, dhas_dget in Hb as [vd Hvd].
  exists vd. destruct (Hbounds b vd Hvd) as [Hlb Hub].
  split; [|done]. unfold var_item, getattr_component, ditem.
  rewrite Hva. simpl. by rewrite Hvd.
Qed.

(** C9: on every successful [solve_dcopf_losses] call, with any model
    generator, no bus of the returned snapshot has a [qlmp] field,
    provided un-scaling only rewrites values. *)
Theorem solve_removes_qlmp
  a solver timelimit tee labels options g rm rr kwargs w w' ret :
  keeps_attribute_names unscale_ModelData_to_pu ->
  solve_dcopf_losses a solver timelimit tee labels options g rm rr kwargs w
    = (w', Ok ret) ->
  exists md_returned,
    heap w' !! returned_md ret = Some md_returned /\
    forall b e, dget b (elements md_returned bus) = Some e -> dget "qlmp" e = None.
Proof.
  intros Hkeep Hs.
  destruct (solve_dcopf_losses_solved_by _ _ _ _ _ _ _ _ _ _ _ _ _ Hs)
    as (m & md1 & md2 & md3 & m0 & w1 & results & w2 & _ & _ & _ & Hsave & Hun & Hret).
  exists md3. split; [done|]. intros b e He.
  destruct (Hkeep _ _ Hun) as (_ & Hel & Hattr).
  assert (Hb : dhas b (elements md2 bus) = true).
  { rewrite <- Hel. apply dhas_dget. eauto. }
  apply dhas_dget in Hb as [e2 He2].
  destruct (save_results_spec _ _ _ _ Hsave) as (_ & _ & Hbus & _).
  destruct (Hbus b e2 He2) as (e0 & _ & Hsb).
  destruct (save_bus_spec _ _ _ _ _ _ Hsb) as (_ & Hq & _).
  specialize (Hattr bus b e2 e He2 He "qlmp"). unfold dhas in Hattr.
  rewrite Hq in Hattr. by destruct (dget "qlmp" e).
Qed.

End Claims.

(** ** Worked instances on [two_bus_network] *)

Lemma example_unscale_keeps_names :
  keeps_attribute_names (@unscale_ModelData_to_pu example_library).
Proof. intros md md' [= <-]. by repeat split; intros; simplify_eq. Qed.

Lemma ptdf_lmp_is_reconstructed_witness :
  two_bus_solve ptdf_generator
    = (fst (two_bus_solve ptdf_generator),
       Ok (ok_or (ReturnMd 1%positive) (snd (two_bus_solve ptdf_generator)))) /\
  exists m md_built md_extracted md_returned,
    @solved_by two_bus_tx_calc example_library two_bus_backend
      1%positive (SolverName "ipopt") None true false None ptdf_generator no_kwargs
      two_bus_world m md_built md_extracted md_returned
      (returned_md (ok_or (ReturnMd 1%positive) (snd (two_bus_solve ptdf_generator))))
      (fst (two_bus_solve ptdf_generator)) /\
    attribute_names md_extracted bus = attribute_names md_built bus /\
    forall b, In b (attribute_names md_built bus) ->
      exists e x,
        dget b (elements md_extracted bus) = Some e /\
        ptdf_marginal_price m (elements md_built branch) b = Ok x /\
        ptdf_marginal_price m (elements md_extracted branch) b = Ok x /\
        dget "lmp" e = Some (VFloat x).
Proof.
  split; [vm_compute; reflexivity|].
  apply (@ptdf_lmp_is_reconstructed two_bus_tx_calc example_library two_bus_backend
           1%positive (SolverName "ipopt") None true false None true false no_kwargs
           two_bus_world).
  vm_compute. reflexivity.
Defined.

(** The price the PTDF-based solve writes on [bus2]:
    [10 + (-1) * 0.5 + 0.125 * 8]. *)
Example two_bus_ptdf_lmp :
  (md ← returned_snapshot returned_md (two_bus_solve ptdf_generator);
   bus2 ← ditem "bus2" (elements md bus);
   ditem "lmp" bus2) = Ok (VFloat 10.5).
Proof. vm_compute. reflexivity. Qed.

Lemma builders_leave_original_unchanged_witness :
  (ptdf_generator = btheta_generator \/ ptdf_generator = ptdf_generator) /\
  heap two_bus_world !! 1%positive = Some two_bus_network /\
  let built :=
    @call_generator two_bus_tx_calc example_library ptdf_generator 1%positive
      no_kwargs two_bus_world in
  let solved := two_bus_solve ptdf_generator in
  (heap (fst built) !! 1%positive = Some two_bus_network /\
   (forall a', a' ∈ dom (heap two_bus_world) ->
      heap (fst built) !! a' = heap two_bus_world !! a') /\
   (forall m r, snd built = Ok (m, r) ->
      (r ∉ dom (heap two_bus_world)) /\ is_Some (heap (fst built) !! r))) /\
  (heap (fst solved) !! 1%positive = Some two_bus_network /\
   (forall a', a' ∈ dom (heap two_bus_world) ->
      heap (fst solved) !! a' = heap two_bus_world !! a') /\
   (forall ret, snd solved = Ok ret ->
      (returned_md ret ∉ dom (heap two_bus_world)) /\
      (exists m0, snd built = Ok (m0, returned_md ret)) /\
      is_Some (heap (fst solved) !! returned_md ret))).
Proof.
  split; [by right|]. split; [reflexivity|].
  apply (@builders_leave_original_unchanged two_bus_tx_calc example_library
           two_bus_backend ptdf_generator 1%positive (SolverName "ipopt") None true
           false None true false no_kwargs two_bus_world two_bus_network).
  - by right.
  - reflexivity.
Defined.

(** C5, as stated, fails: after a successful solve of the angle-based
    model, whose loss variable of [line1] has the value 0.5, the branch
    of the returned snapshot has its three input attributes and [pf],
    and no loss field. *)
Lemma returned_branch_has_no_loss_field :
  (ret ← snd (two_bus_solve btheta_generator);
   m ← returned_model ret;
   var_item_value "pfl" "line1" m) = Ok (VFloat 0.5) /\
  (md ← returned_snapshot returned_md (two_bus_solve btheta_generator);
   line1 ← ditem "line1" (elements md branch);
   Ok (dkeys line1)) = Ok ["from_bus"; "to_bus"; "rating_long_term"; "pf"].
Proof. split; vm_compute; reflexivity. Qed.

Lemma solve_writes_result_fields_witness :
  keeps_attribute_names (@unscale_ModelData_to_pu example_library) /\
  two_bus_solve btheta_generator
    = (fst (two_bus_solve btheta_generator),
       Ok (ok_or (ReturnMd 1%positive) (snd (two_bus_solve btheta_generator)))) /\
  exists m md_built md_extracted md_returned,
    @solved_by two_bus_tx_calc example_library two_bus_backend
      1%positive (SolverName "ipopt") None true false None btheta_generator no_kwargs
      two_bus_world m md_built md_extracted md_returned
      (returned_md (ok_or (ReturnMd 1%positive) (snd (two_bus_solve btheta_generator))))
      (fst (two_bus_solve btheta_generator)) /\
    results_written btheta_generator m md_built md_extracted /\
    results_present btheta_generator md_returned.
Proof.
  split; [exact example_unscale_keeps_names|].
  split; [vm_compute; reflexivity|].
  apply (@solve_writes_result_fields two_bus_tx_calc example_library two_bus_backend
           1%positive (SolverName "ipopt") None true false None btheta_generator
           true false no_kwargs two_bus_world).
  - exact example_unscale_keeps_names.
  - vm_compute. reflexivity.
Defined.

(** Line 88 reads [gen_attrs['pg']]: on a snapshot none of whose
    generators has a [pg], the builder raises and returns no model. *)
Example builder_needs_dispatch_attribute :
  snd (@create_btheta_losses_dcopf_model example_library 1%positive SOC false false
         (mkWorld {[ 1%positive := two_bus_without_dispatch ]} []))
  = Raise (KeyError "pg").
Proof. vm_compute. reflexivity. Qed.

Lemma btheta_angle_variables_witness :
  two_bus_build_btheta
    = (fst two_bus_build_btheta,
       Ok (fst (ok_or (ConcreteModel, 1%positive) (snd two_bus_build_btheta)),
           2%positive)) /\
  exists md ref x,
    heap (fst two_bus_build_btheta) !! 2%positive = Some md /\
    dget "reference_bus" (system md) = Some (VStr ref) /\
    dget "reference_bus_angle" (system md) = Some (VFloat x) /\
    (forall b, In b (attribute_names md bus) ->
       va_bounds_are (- Py.pi)%float Py.pi
         (fst (ok_or (ConcreteModel, 1%positive) (snd two_bus_build_btheta))) b) /\
    va_fixed_at (VFloat (Py.radians x))
      (fst (ok_or (ConcreteModel, 1%positive) (snd two_bus_build_btheta))) ref.
Proof.
  split; [vm_compute; reflexivity|].
  apply (@btheta_angle_variables example_library 1%positive SOC false false
           two_bus_world).
  vm_compute. reflexivity.
Defined.

Lemma solve_removes_qlmp_witness :
  keeps_attribute_names (@unscale_ModelData_to_pu example_library) /\
  two_bus_solve btheta_generator
    = (fst (two_bus_solve btheta_generator),
       Ok (ok_or (ReturnMd 1%positive) (snd (two_bus_solve btheta_generator)))) /\
  exists md_returned,
    heap (fst (two_bus_solve btheta_generator))
      !! returned_md (ok_or (ReturnMd 1%positive) (snd (two_bus_solve btheta_generator)))
      = Some md_returned /\
    forall b e, dget b (elements md_returned bus) = Some e -> dget "qlmp" e = None.
Proof.
  split; [exact example_unscale_keeps_names|].
  split; [vm_compute; reflexivity|].
  apply (@solve_removes_qlmp two_bus_tx_calc example_library two_bus_backend
           1%positive (SolverName "ipopt") None true false None btheta_generator
           true false no_kwargs two_bus_world).
  - exact example_unscale_keeps_names.
  - vm_compute. reflexivity.
Defined.

(** [bus1] of [two_bus_network] comes with a stale [qlmp]. *)
Example two_bus_stale_qlmp :
  (bus1 ← ditem "bus1" (elements two_bus_network bus); ditem "qlmp" bus1)
  = Ok (VFloat 3).
Proof. reflexivity. Qed.

(** * Further properties of the code *)

(** ** [_set_options] *)

Lemma set_option_if_given_name k v s :
  solver_name (set_option_if_given k v s) = solver_name s /\
  solver_persistent (set_option_if_given k v s) = solver_persistent s.
Proof. by destruct v. Qed.

Lemma set_option_if_given_dget k v s k' :
  dget k' (solver_options (set_option_if_given k v s))
  = match v with
    | Some x => if String.eqb k' k then Some (VFloat x) else dget k' (solver_options s)
    | None => dget k' (solver_options s)
    end.
Proof. destruct v; simpl; [apply dget_dset|done]. Qed.

Lemma fold_set_option_options oo s :
  solver_options (fold_left (fun s kv => set_option (fst kv) (snd kv) s) oo s)
  = fold_left (fun d kv => dset (fst kv) (snd kv) d) oo (solver_options s) /\
  solver_name (fold_left (fun s kv => set_option (fst kv) (snd kv) s) oo s)
  = solver_name s /\
  solver_persistent (fold_left (fun s kv => set_option (fst kv) (snd kv) s) oo s)
  = solver_persistent s.
Proof.
  revert s. induction oo as [|[k v] oo IH]; intros s; simpl; [done|].
  destruct (IH (set_option k v s)) as (-> & -> & ->). done.
Qed.

Lemma fold_dset_absent {V} (kvs : list (string * V)) d k :
  dget k kvs = None ->
  dget k (fold_left (fun d kv => dset (fst kv) (snd kv) d) kvs d) = dget k d.
Proof.
  revert d. induction kvs as [|[k0 v0] kvs IH]; intros d Hk; simpl in *; [done|].
  destruct (String.eqb k k0) eqn:E; [done|].
  rewrite IH by done. apply dget_dset_ne. intros ->.
  by rewrite String.eqb_refl in E.
Qed.

Lemma fold_dset_last {V} (kvs : list (string * V)) d k v :
  NoDup (dkeys kvs) -> dget k kvs = Some v ->
  dget k (fold_left (fun d kv => dset (fst kv) (snd kv) d) kvs d) = Some v.
Proof.
  revert d. induction kvs as [|[k0 v0] kvs IH]; intros d Hnd Hk; simpl in *; [done|].
  apply NoDup_cons in Hnd as [Hnotin Hnd].
  destruct (String.eqb k k0) eqn:E.
  - apply String.eqb_eq in E. subst k0. injection Hk as ->.
    rewrite fold_dset_absent; [apply dget_dset_eq|].
    destruct (dget k kvs) eqn:Hg; [|done].
    apply dget_Some_keys in Hg. destruct Hnotin. by apply list_elem_of_In.
  - by apply IH.
Qed.

Lemma set_options_known_branch s mipgap timelimit :
  exists gap_name limit_name given_gap given_limit,
    _set_options s mipgap timelimit None
    = set_option_if_given limit_name given_limit
        (set_option_if_given gap_name given_gap s) /\
    In gap_name gap_and_limit_options /\ In limit_name gap_and_limit_options.
Proof.
  unfold _set_options, gap_and_limit_options.
  destruct (contains "gurobi" (solver_name s));
    [exists "MIPGap", "TimeLimit", mipgap, timelimit; simpl; by intuition|].
  destruct (contains "cplex" (solver_name s));
    [exists "mip_tolerances_mipgap", "timelimit", mipgap, timelimit; simpl; by intuition|].
  destruct (contains "glpk" (solver_name s));
    [exists "mipgap", "tmlim", mipgap, timelimit; simpl; by intuition|].
  destruct (contains "cbc" (solver_name s));
    [exists "ratioGap", "sec", mipgap, timelimit; simpl; by intuition|].
  exists "MIPGap", "TimeLimit", None, None. simpl. by intuition.
Qed.

Lemma set_options_split s mipgap timelimit oo :
  _set_options s mipgap timelimit (Some oo)
  = fold_left (fun s kv => set_option (fst kv) (snd kv) s) oo
      (_set_options s mipgap timelimit None).
Proof. reflexivity. Qed.

(** X1: the passthrough options win.  With [other_options] a
    dictionary (no key twice), every option it holds is on the solver
    after [_set_options], also when the key is one the gap or the time
    limit was written under; an option it does not hold is as the gap
    and limit handling left it. *)
Theorem set_options_other_options_win s mipgap timelimit oo :
  NoDup (dkeys oo) ->
  (forall k v, dget k oo = Some v ->
     dget k (solver_options (_set_options s mipgap timelimit (Some oo))) = Some v) /\
  (forall k, dget k oo = None ->
     dget k (solver_options (_set_options s mipgap timelimit (Some oo)))
     = dget k (solver_options (_set_options s mipgap timelimit None))).
Proof.
  intros Hnd. rewrite set_options_split.
  set (s0 := _set_options s mipgap timelimit None).
  destruct (fold_set_option_options oo s0) as (-> & _ & _). split.
  - intros k v Hk. by apply fold_dset_last.
  - intros k Hk. by apply fold_dset_absent.
Qed.

Lemma set_options_other_options_win_witness :
  NoDup (dkeys [("TimeLimit", VFloat 60); ("Threads", VFloat 4)]) /\
  (forall k v, dget k [("TimeLimit", VFloat 60); ("Threads", VFloat 4)] = Some v ->
     dget k (solver_options
               (_set_options (mkSolver "gurobi" [] false) None (Some 10%float)
                  (Some [("TimeLimit", VFloat 60); ("Threads", VFloat 4)]))) = Some v) /\
  (forall k, dget k [("TimeLimit", VFloat 60); ("Threads", VFloat 4)] = None ->
     dget k (solver_options
               (_set_options (mkSolver "gurobi" [] false) None (Some 10%float)
                  (Some [("TimeLimit", VFloat 60); ("Threads", VFloat 4)])))
     = dget k (solver_options
                 (_set_options (mkSolver "gurobi" [] false) None (Some 10%float) None))).
Proof.
  assert (Hnd : NoDup (dkeys [("TimeLimit", VFloat 60); ("Threads", VFloat 4)])).
  { apply (bool_decide_eq_true_1 _). vm_compute. reflexivity. }
  split; [exact Hnd|].
  exact (set_options_other_options_win (mkSolver "gurobi" [] false) None
           (Some 10%float) [("TimeLimit", VFloat 60); ("Threads", VFloat 4)] Hnd).
Defined.

(** X2: [_set_options] keeps the solver's name and kind, never removes
    an option, and leaves every option alone whose name is neither one
    of the eight gap and limit names nor a key of [other_options].  For a
    solver name with none of the tags gurobi, cplex, glpk, cbc the gap
    and the time limit are dropped without any error: the call is the
    one with neither given. *)
Theorem set_options_frame s mipgap timelimit other_options :
  solver_name (_set_options s mipgap timelimit other_options) = solver_name s /\
  solver_persistent (_set_options s mipgap timelimit other_options)
    = solver_persistent s /\
  (forall k, dhas k (solver_options s) = true ->
     dhas k (solver_options (_set_options s mipgap timelimit other_options)) = true) /\
  (forall k, ~ In k gap_and_limit_options ->
     dget k (default [] other_options) = None ->
     dget k (solver_options (_set_options s mipgap timelimit other_options))
     = dget k (solver_options s)) /\
  (unrecognised_solver (solver_name s) ->
     _set_options s mipgap timelimit other_options
     = _set_options s None None other_options).
Proof.
  destruct (set_options_known_branch s mipgap timelimit)
    as (gn & ln & gg & gl & Hnone & Hgn & Hln).
  assert (Hbase : forall k,
            dget k (solver_options (_set_options s mipgap timelimit None))
            = match gl with
              | Some x => if String.eqb k ln then Some (VFloat x) else
                  match gg with
                  | Some y => if String.eqb k gn then Some (VFloat y)
                              else dget k (solver_options s)
                  | None => dget k (solver_options s)
                  end
              | None =>
                  match gg with
                  | Some y => if String.eqb k gn then Some (VFloat y)
                              else dget k (solver_options s)
                  | None => dget k (solver_options s)
                  end
              end).
  { intros k. rewrite Hnone, !set_option_if_given_dget.
    destruct gl, gg; by rewrite ?set_option_if_given_dget. }
  assert (Hnames : solver_name (_set_options s mipgap timelimit None) = solver_name s /\
                   solver_persistent (_set_options s mipgap timelimit None)
                   = solver_persistent s).
  { rewrite Hnone.
    destruct (set_option_if_given_name ln gl (set_option_if_given gn gg s)) as [-> ->].
    apply set_option_if_given_name. }
  assert (Hmono0 : forall k, dhas k (solver_options s) = true ->
            dhas k (solver_options (_set_options s mipgap timelimit None)) = true).
  { intros k. unfold dhas. rewrite Hbase.
    destruct gl, gg; repeat case_match; done. }
  assert (Hframe0 : forall k, ~ In k gap_and_limit_options ->
            dget k (solver_options (_set_options s mipgap timelimit None))
            = dget k (solver_options s)).
  { intros k Hk. rewrite Hbase.
    assert (String.eqb k ln = false) by (apply eqb_ne; by intros ->).
    assert (String.eqb k gn = false) by (apply eqb_ne; by intros ->).
    destruct gl, gg; by rewrite ?H, ?H0. }
  destruct other_options as [oo|].
  - rewrite !set_options_split.
    destruct (fold_set_option_options oo (_set_options s mipgap timelimit None))
      as (Hopts & -> & ->).
    split; [apply Hnames|]. split; [apply Hnames|]. rewrite Hopts. split; [|split].
    + intros k Hk. apply fold_dset_dhas. right. by apply Hmono0.
    + intros k Hk Hoo. simpl in Hoo. rewrite fold_dset_absent by done. by apply Hframe0.
    + intros (Hg & Hc & Hl & Hb). unfold _set_options. by rewrite Hg, Hc, Hl, Hb.
  - split; [apply Hnames|]. split; [apply Hnames|]. split; [done|]. split.
    + intros k Hk _. by apply Hframe0.
    + intros (Hg & Hc & Hl & Hb). unfold _set_options. by rewrite Hg, Hc, Hl, Hb.
Qed.

(** ** [_solve_model] *)

Section SolveModelFacts.
Context `{SolverBackend}.

Lemma solve_model_ok_inv model solver mipgap timelimit tee labels options w w' m results :
  _solve_model model solver mipgap timelimit tee labels options w
    = (w', Ok (m, results)) ->
  exists name s,
    solver = SolverName name /\ SolverFactory name = Ok s /\
    solve_request (_set_options s mipgap timelimit options) model tee labels
      = Ok (m, results) /\
    termination_condition results ∈ safe_termination_conditions /\
    heap w' = heap w /\
    length (solver_log w') = S (length (solver_log w)).
Proof.
  destruct solver as [name|s|v]; [|done|done].
  unfold _solve_model, mbind, eff_bind, lift. simpl.
  destruct (SolverFactory name) as [s|] eqn:Hs; [|done].
  intros Hrun. exists name, s. split; [done|]. split; [done|].
  unfold solve_request.
  set (s1 := _set_options s mipgap timelimit options) in *.
  unfold solve_call, mbind, eff_bind, lift, raise, mret, eff_ret in Hrun.
  destruct (solver_persistent s1).
  - destruct (solver_set_instance s1 model labels) as [s2|]; [|done].
    simpl in *. destruct (solver_solve s2 model tee None) as [[m' r']|]; [|done].
    simpl in *. case_bool_decide as Hin; simpl in *.
    + injection Hrun as <- <- <-. simpl. rewrite length_app. simpl.
      repeat split; try done. lia.
    + done.
  - simpl in *.
    destruct (solver_solve s1 model tee (Some labels)) as [[m' r']|]; [|done].
    simpl in *. case_bool_decide as Hin; simpl in *.
    + injection Hrun as <- <- <-. simpl. rewrite length_app. simpl.
      repeat split; try done. lia.
    + done.
Qed.

(** X3: [_solve_model] issues at most one solve request, whatever it is
    given and however the solver answers: the log of requests grows by
    nothing or by one entry, and by nothing when [SolverFactory] raises. *)
Theorem solve_model_single_request model solver mipgap timelimit tee labels options w :
  exists requests,
    solver_log (fst (_solve_model model solver mipgap timelimit tee labels options w))
    = solver_log w ++ requests /\
    length requests <= 1 /\
    (forall name e, solver = SolverName name -> SolverFactory name = Raise e ->
       requests = []).
Proof.
  assert (Hnone : forall w0 : world, exists requests : list Solver,
            solver_log w0 = solver_log w0 ++ requests /\ length requests <= 1 /\
            (forall name e, solver = SolverName name ->
               SolverFactory name = Raise e -> requests = [])).
  { intros w0. exists []. rewrite app_nil_r. split; [done|]. split; [simpl; lia|done]. }
  destruct solver as [name|s|v]; [|apply Hnone..].
  unfold _solve_model, mbind, eff_bind, lift, solve_call, raise, mret, eff_ret. simpl.
  destruct (SolverFactory name) as [s|e0] eqn:Hs; [|apply Hnone].
  set (s1 := _set_options s mipgap timelimit options).
  assert (Hone : forall s' : Solver,
            exists requests : list Solver,
              solver_log w ++ [s'] = solver_log w ++ requests /\
              length requests <= 1 /\
              (forall name0 e, SolverName name = SolverName name0 ->
                 SolverFactory name0 = Raise e -> requests = [])).
  { intros s'. exists [s']. split; [done|]. split; [simpl; lia|].
    intros name0 e [= <-] He. congruence. }
  destruct (solver_persistent s1).
  - destruct (solver_set_instance s1 model labels) as [s2|]; [|apply Hnone].
    simpl. destruct (solver_solve s2 model tee None) as [[m' r']|]; simpl;
      [|apply Hone].
    destruct (negb _); simpl; apply Hone.
  - simpl. destruct (solver_solve s1 model tee (Some labels)) as [[m' r']|]; simpl;
      [|apply Hone].
    destruct (negb _); simpl; apply Hone.
Qed.

(** X4: when [_solve_model] returns, the solver was named by a string,
    the pair returned is the model and the results object the blocking
    solve request answered with, and the reported termination condition
    is one of [safe_termination_conditions]; exactly one request was
    issued. *)
Theorem solve_model_returns_the_solver_answer
  model solver mipgap timelimit tee labels options w w' m results :
  _solve_model model solver mipgap timelimit tee labels options w
    = (w', Ok (m, results)) ->
  exists name s,
    solver = SolverName name /\ SolverFactory name = Ok s /\
    solve_request (_set_options s mipgap timelimit options) model tee labels
      = Ok (m, results) /\
    termination_condition results ∈ safe_termination_conditions /\
    length (solver_log w') = S (length (solver_log w)).
Proof.
  intros Hrun. apply solve_model_ok_inv in Hrun
    as (name & s & ? & ? & ? & ? & _ & ?). by exists name, s.
Qed.

(** X5: on a termination condition outside the accepted list the
    failure raised is never the exception that line 136 formats: the
    message reads the attribute [terminataion_condition], which a
    results object does not have, and the [AttributeError] of that
    lookup is what the caller receives, whatever the status. *)
Theorem solve_model_unsafe_status_error
  model name mipgap timelimit tee labels options w s m' results :
  SolverFactory name = Ok s ->
  solve_request (_set_options s mipgap timelimit options) model tee labels
    = Ok (m', results) ->
  termination_condition results ∉ safe_termination_conditions ->
  snd (_solve_model model (SolverName name) mipgap timelimit tee labels options w)
  = Raise (AttributeError "terminataion_condition").
Proof.
  intros Hs Hrun Hunsafe.
  destruct (solve_model_with_name model name mipgap timelimit tee labels options w
              s m' results Hs Hrun) as [s' ->].
  simpl. by rewrite bool_decide_eq_false_2.
Qed.

End SolveModelFacts.

Lemma solve_model_returns_the_solver_answer_witness :
  @_solve_model (reporting_backend TerminationCondition.feasible)
    ConcreteModel (SolverName "cbc") (Some 0.5%float) None true false None empty_world
  = (mkWorld ∅ [mkSolver "cbc" [("ratioGap", VFloat 0.5)] false],
     Ok (ConcreteModel, mkSolverResults TerminationCondition.feasible "")) /\
  exists name s,
    SolverName "cbc" = SolverName name /\
    @SolverFactory (reporting_backend TerminationCondition.feasible) name = Ok s /\
    @solve_request (reporting_backend TerminationCondition.feasible)
      (_set_options s (Some 0.5%float) None None) ConcreteModel true false
      = Ok (ConcreteModel, mkSolverResults TerminationCondition.feasible "") /\
    TerminationCondition.feasible ∈ safe_termination_conditions /\
    length [mkSolver "cbc" [("ratioGap", VFloat 0.5)] false] = 1.
Proof.
  split; [vm_compute; reflexivity|].
  apply (@solve_model_returns_the_solver_answer
           (reporting_backend TerminationCondition.feasible)
           ConcreteModel (SolverName "cbc") (Some 0.5%float) None true false None
           empty_world
           (mkWorld ∅ [mkSolver "cbc" [("ratioGap", VFloat 0.5)] false])).
  vm_compute. reflexivity.
Defined.

Lemma solve_model_unsafe_status_error_witness :
  @SolverFactory (reporting_backend TerminationCondition.unbounded) "glpk"
    = Ok (mkSolver "glpk" [] false) /\
  @solve_request (reporting_backend TerminationCondition.unbounded)
    (_set_options (mkSolver "glpk" [] false) None None None) ConcreteModel true false
    = Ok (ConcreteModel, mkSolverResults TerminationCondition.unbounded "") /\
  (TerminationCondition.unbounded ∉ safe_termination_conditions) /\
  snd (@_solve_model (reporting_backend TerminationCondition.unbounded)
         ConcreteModel (SolverName "glpk") None None true false None empty_world)
  = Raise (AttributeError "terminataion_condition").
Proof.
  assert (Hunsafe : TerminationCondition.unbounded ∉ safe_termination_conditions).
  { apply (bool_decide_eq_false_1 _). vm_compute. reflexivity. }
  split; [reflexivity|]. split; [reflexivity|]. split; [exact Hunsafe|].
  apply (@solve_model_unsafe_status_error
           (reporting_backend TerminationCondition.unbounded)
           ConcreteModel "glpk" None None true false None empty_world
           (mkSolver "glpk" [] false) ConcreteModel
           (mkSolverResults TerminationCondition.unbounded ""));
    [reflexivity|reflexivity|exact Hunsafe].
Defined.

(** ** [declare_var] *)

(** X6: a variable declared over an index set has exactly the members
    of that set.  Each member is unfixed and carries the initial value
    the [initialize] dictionary gives for its index (none when the index
    is missing there).  With a [bounds] dictionary, a bound that is a
    number is the bound of the member, a lower bound of minus infinity
    and an upper bound of plus infinity read as no bound; without
    [bounds] the member has none.  An index outside the set is a
    [KeyError]. *)
Theorem declare_var_members varname model index_set initialize bounds model' :
  declare_var varname model (Some index_set) initialize bounds = Ok model' ->
  (forall k, In k index_set ->
     exists vd,
       var_item varname k model' = Ok vd /\
       var_fixed vd = false /\
       var_value vd = match initialize with Some init => dget k init | None => None end /\
       match bounds with
       | Some d =>
           exists lu, dget k d = Some lu /\
             (finite (fst lu) = true -> var_lb vd = Some (fst lu)) /\
             (finite (snd lu) = true -> var_ub vd = Some (snd lu)) /\
             (fst lu = neg_infinity -> var_lb vd = None) /\
             (snd lu = infinity -> var_ub vd = None)
       | None => var_lb vd = None /\ var_ub vd = None
       end) /\
  (forall k, ~ In k index_set -> var_item varname k model' = Raise (KeyError k)).
Proof.
  intros Hd. apply declare_var_indexed_inv in Hd as (_ & _ & data & Hc & ->).
  apply construct_indexed_var_inv in Hc as [Hcov Hmem].
  assert (Hva : dget varname (dset varname (CVar data)
                  (dset ("_var_" +:+ varname +:+ "_index_set")
                     (CSet (ordered_set index_set)) model))
                = Some (CVar data)) by apply dget_dset_eq.
  split.
  - intros k Hk. apply Hcov, dhas_dget in Hk as [vd Hvd].
    exists vd. rewrite (var_item_of_data _ _ _ _ Hva). unfold ditem. rewrite Hvd.
    destruct (Hmem k vd Hvd) as (_ & Hfix & Hval & Hb).
    split; [done|]. split; [done|]. split; [done|].
    destruct bounds as [d|]; [|done].
    destruct Hb as (lu & Hlu & Hlb & Hub). unfold ditem in Hlu.
    destruct (dget k d) as [lu'|]; [|done]. simpl in Hlu. apply Ok_inj in Hlu.
    exists lu'. subst lu. simpl in Hlb, Hub. split; [done|].
    rewrite Hlb, Hub. unfold stored_lb, stored_ub, finite. repeat split.
    + intros Hf. apply andb_true_iff in Hf as [_ Hf].
      apply negb_true_iff in Hf. by rewrite Hf.
    + intros Hf. apply andb_true_iff in Hf as [Hf _].
      apply andb_true_iff in Hf as [_ Hf].
      apply negb_true_iff in Hf. by rewrite Hf.
    + by intros ->.
    + by intros ->.
  - intros k Hk. rewrite (var_item_of_data _ _ _ _ Hva). unfold ditem.
    destruct (dget k data) as [vd|] eqn:Hvd; [|done].
    destruct (Hmem k vd Hvd) as (Hin & _). by destruct Hk.
Qed.

Lemma declare_var_members_witness :
  declare_var "va" ConcreteModel (Some ["bus1"; "bus2"])
    (Some [("bus1", VFloat 0)])
    (Some [("bus1", (-1, 1)%float); ("bus2", (neg_infinity, 2%float))])
  = Ok [("_var_va_index_set", CSet ["bus1"; "bus2"]);
        ("va", CVar [("bus1", mkVarData (Some (VFloat 0)) (Some (-1)%float) (Some 1%float) false);
                     ("bus2", mkVarData None None (Some 2%float) false)])] /\
  (forall k, In k ["bus1"; "bus2"] ->
     exists vd,
       var_item "va" k
         [("_var_va_index_set", CSet ["bus1"; "bus2"]);
          ("va", CVar [("bus1", mkVarData (Some (VFloat 0)) (Some (-1)%float) (Some 1%float) false);
                       ("bus2", mkVarData None None (Some 2%float) false)])]
       = Ok vd /\
       var_fixed vd = false /\
       var_value vd = dget k [("bus1", VFloat 0)] /\
       exists lu,
         dget k [("bus1", (-1, 1)%float); ("bus2", (neg_infinity, 2%float))] = Some lu /\
         (finite (fst lu) = true -> var_lb vd = Some (fst lu)) /\
         (finite (snd lu) = true -> var_ub vd = Some (snd lu)) /\
         (fst lu = neg_infinity -> var_lb vd = None) /\
         (snd lu = infinity -> var_ub vd = None)) /\
  (forall k, ~ In k ["bus1"; "bus2"] ->
     var_item "va" k
       [("_var_va_index_set", CSet ["bus1"; "bus2"]);
        ("va", CVar [("bus1", mkVarData (Some (VFloat 0)) (Some (-1)%float) (Some 1%float) false);
                     ("bus2", mkVarData None None (Some 2%float) false)])]
     = Raise (KeyError k)).
Proof.
  split; [vm_compute; reflexivity|].
  apply (declare_var_members "va" ConcreteModel ["bus1"; "bus2"]
           (Some [("bus1", VFloat 0)])
           (Some [("bus1", (-1, 1)%float); ("bus2", (neg_infinity, 2%float))])).
  vm_compute. reflexivity.
Defined.

(** X7: a successful declaration attaches two components at the end of
    the block: under [_var_<name>_index_set] the index set, which holds
    the indices in the order given with a repeated index counted once
    (so the list itself when no index is repeated), and then the
    variable under its name; every component that was on the model is
    still there, unchanged and in its place. *)
Theorem declare_var_appends varname model index_set initialize bounds model' :
  declare_var varname model (Some index_set) initialize bounds = Ok model' ->
  dkeys model' = dkeys model ++ ["_var_" +:+ varname +:+ "_index_set"; varname] /\
  (exists members,
     dget ("_var_" +:+ varname +:+ "_index_set") model' = Some (CSet members) /\
     members = ordered_set index_set /\
     NoDup members /\
     (forall k, In k members <-> In k index_set) /\
     (NoDup index_set -> members = index_set)) /\
  (forall k, k <> varname -> k <> "_var_" +:+ varname +:+ "_index_set" ->
     dget k model' = dget k model).
Proof.
  intros Hd. apply declare_var_indexed_inv in Hd as (Hset & Hvar & data & _ & ->).
  split; [|split].
  - rewrite dkeys_dset_absent.
    + rewrite dkeys_dset_absent; [by rewrite <- app_assoc|].
      unfold dhas. by rewrite Hset.
    + unfold dhas. rewrite dget_dset_ne by apply index_set_name_differs.
      by rewrite Hvar.
  - exists (ordered_set index_set). split.
    { rewrite dget_dset_ne; [apply dget_dset_eq|].
      intros Heq. by apply (index_set_name_differs varname). }
    split; [done|]. split; [apply ordered_set_NoDup|].
    split; [intros k; apply ordered_set_In|apply ordered_set_of_NoDup].
  - intros k H1 H2. rewrite !dget_dset_ne; [done|congruence..].
Qed.

Lemma declare_var_appends_witness :
  declare_var "pl" [("obj", CObjective None)] (Some ["bus1"; "bus2"; "bus1"]) None None
  = Ok [("obj", CObjective None); ("_var_pl_index_set", CSet ["bus1"; "bus2"]);
        ("pl", CVar [("bus1", mkVarData None None None false);
                     ("bus2", mkVarData None None None false)])] /\
  dkeys [("obj", CObjective None); ("_var_pl_index_set", CSet ["bus1"; "bus2"]);
         ("pl", CVar [("bus1", mkVarData None None None false);
                      ("bus2", mkVarData None None None false)])]
  = dkeys [("obj", CObjective None)] ++ ["_var_" +:+ "pl" +:+ "_index_set"; "pl"] /\
  (exists members,
     dget ("_var_" +:+ "pl" +:+ "_index_set")
       [("obj", CObjective None); ("_var_pl_index_set", CSet ["bus1"; "bus2"]);
        ("pl", CVar [("bus1", mkVarData None None None false);
                     ("bus2", mkVarData None None None false)])]
     = Some (CSet members) /\
     members = ordered_set ["bus1"; "bus2"; "bus1"] /\
     NoDup members /\
     (forall k, In k members <-> In k ["bus1"; "bus2"; "bus1"]) /\
     (NoDup ["bus1"; "bus2"; "bus1"] -> members = ["bus1"; "bus2"; "bus1"])) /\
  (forall k, k <> "pl" -> k <> "_var_" +:+ "pl" +:+ "_index_set" ->
     dget k [("obj", CObjective None); ("_var_pl_index_set", CSet ["bus1"; "bus2"]);
             ("pl", CVar [("bus1", mkVarData None None None false);
                          ("bus2", mkVarData None None None false)])]
     = dget k [("obj", CObjective None)]).
Proof.
  split; [vm_compute; reflexivity|].
  apply (declare_var_appends "pl" [("obj", CObjective None)] ["bus1"; "bus2"; "bus1"]
           None None).
  vm_compute. reflexivity.
Defined.

(** X8: a variable name can be declared only once: after a successful
    declaration every further [declare_var] of the same name on that
    model raises, whatever index set, initial values and bounds it is
    given. *)
Theorem declare_var_twice_raises
  varname model index_set initialize bounds model' index_set' initialize' bounds' :
  declare_var varname model (Some index_set) initialize bounds = Ok model' ->
  is_ok (declare_var varname model' index_set' initialize' bounds') = false.
Proof.
  intros Hd. apply declare_var_indexed_inv in Hd as (Hset & Hvar & data & _ & ->).
  unfold declare_var, add_component, add_component_constructing, dhas.
  destruct index_set' as [idx|].
  - rewrite dget_dset_ne by (intros Heq; by apply (index_set_name_differs varname)).
    by rewrite dget_dset_eq.
  - by rewrite dget_dset_eq.
Qed.

Lemma declare_var_twice_raises_witness :
  declare_var "pg" ConcreteModel (Some ["gen1"]) None None
  = Ok [("_var_pg_index_set", CSet ["gen1"]);
        ("pg", CVar [("gen1", mkVarData None None None false)])] /\
  is_ok (declare_var "pg"
           [("_var_pg_index_set", CSet ["gen1"]);
            ("pg", CVar [("gen1", mkVarData None None None false)])]
           (Some ["gen1"; "gen2"]) None None) = false.
Proof.
  split; [vm_compute; reflexivity|].
  apply (declare_var_twice_raises "pg" ConcreteModel ["gen1"] None None).
  vm_compute. reflexivity.
Defined.

(** X9: what a declaration over an index set needs.  With bounds
    given as a dictionary it goes through only if the two names it
    attaches are free on the model, the dictionary has bounds for every
    index, and every key of the [initialize] dictionary is an index of
    the set: an index without bounds, or an initial value for a foreign
    index, is a failure. *)
Theorem declare_var_needs varname model index_set initialize bounds :
  is_ok (declare_var varname model (Some index_set) initialize (Some bounds)) = true ->
  dhas ("_var_" +:+ varname +:+ "_index_set") model = false /\
  dhas varname model = false /\
  (forall k, In k index_set -> dhas k bounds = true) /\
  (forall init k, initialize = Some init -> dhas k init = true -> In k index_set).
Proof.
  destruct (declare_var _ _ _ _ _) as [model'|] eqn:Hd; [|done]. intros _.
  apply declare_var_indexed_inv in Hd as (Hset & Hvar & data & Hc & _).
  pose proof Hc as Hc'.
  apply construct_indexed_var_inv in Hc as [Hcov Hmem].
  unfold dhas. rewrite Hset, Hvar. split; [done|]. split; [done|]. split.
  - intros k Hk. apply Hcov, dhas_dget in Hk as [vd Hvd].
    destruct (Hmem k vd Hvd) as (_ & _ & _ & lu & Hlu & _).
    unfold ditem in Hlu. by destruct (dget k bounds).
  - intros init k -> Hk.
    eapply construct_indexed_var_initialize_keys; [exact Hc'|].
    destruct (dget k init) as [v|] eqn:Hv; [|done]. by eapply dget_Some_keys.
Qed.

Lemma declare_var_needs_witness :
  is_ok (declare_var "va" ConcreteModel (Some ["bus1"; "bus2"])
           (Some [("bus2", VFloat 0)])
           (Some [("bus1", (-1, 1)%float); ("bus2", (-2, 2)%float)])) = true /\
  dhas ("_var_" +:+ "va" +:+ "_index_set") ConcreteModel = false /\
  dhas "va" ConcreteModel = false /\
  (forall k, In k ["bus1"; "bus2"] ->
     dhas k [("bus1", (-1, 1)%float); ("bus2", (-2, 2)%float)] = true) /\
  (forall init k, Some [("bus2", VFloat 0)] = Some init -> dhas k init = true ->
     In k ["bus1"; "bus2"]).
Proof.
  split; [vm_compute; reflexivity|].
  apply (declare_var_needs "va" ConcreteModel ["bus1"; "bus2"]
           (Some [("bus2", VFloat 0)])
           [("bus1", (-1, 1)%float); ("bus2", (-2, 2)%float)]).
  vm_compute. reflexivity.
Defined.

(** ** The sensitivity dictionaries, entry by entry *)

Lemma lookup_In_enumerate {A} (l : list A) i a :
  l !! i = Some a -> In (i, a) (enumerate l).
Proof.
  unfold enumerate.
  assert (Hgen : forall n, l !! i = Some a ->
                   In (n + i, a) (combine (seq n (length l)) l)).
  { revert i. induction l as [|x l IH]; intros i n Hi; [done|].
    destruct i as [|i]; simpl in *.
    - injection Hi as ->. left. f_equal. lia.
    - right. replace (n + S i) with (S n + i) by lia. by apply IH. }
  apply (Hgen 0).
Qed.

Lemma row_dict_nonzero_origin names M idx r :
  row_dict_nonzero names M idx = Ok r ->
  (forall k x, dget k r = Some x ->
     exists i, names !! i = Some k /\ mget M idx i = Ok x /\ Py.ne_zero x = true) /\
  (forall i k, names !! i = Some k ->
     exists x, mget M idx i = Ok x /\ (Py.ne_zero x = true -> dhas k r = true)).
Proof.
  unfold row_dict_nonzero. intros Hr. inv_ok.
  apply mapM_result_Forall2 in Ha. split.
  - intros k x Hg.
    apply dict_of_dget, list_elem_of_In, list_elem_of_omap in Hg as (o & Hin & Ho).
    simpl in Ho. subst o. apply list_elem_of_In in Hin.
    destruct (Forall2_In_r _ _ _ _ Ha Hin) as ([i name] & Hi & Hik).
    simpl in Hik. apply enumerate_In in Hi.
    destruct (mget M idx i) as [y|] eqn:Hy; [|done]. simpl in Hik.
    apply Ok_inj in Hik. destruct (Py.ne_zero y) eqn:E; [|done].
    injection Hik as <- <-. eauto.
  - intros i k Hi.
    pose proof (lookup_In_enumerate _ _ _ Hi) as Hin.
    destruct (Forall2_In_l _ _ _ _ Ha Hin) as (o & Ho & Hf). simpl in Hf.
    destruct (mget M idx i) as [x|] eqn:Hx; [|done]. simpl in Hf. apply Ok_inj in Hf.
    exists x. split; [done|]. intros Hnz. rewrite Hnz in Hf. subst o.
    apply dict_of_dhas, in_map_iff. exists (k, x). split; [done|].
    apply list_elem_of_In, list_elem_of_omap. exists (Some (k, x)).
    split; [by apply list_elem_of_In|done].
Qed.

Lemma NoDup_lookup_eq (names : list string) i j k :
  NoDup names -> names !! i = Some k -> names !! j = Some k -> i = j.
Proof. intros Hnd Hi Hj. by eapply NoDup_lookup. Qed.

Lemma row_dict_entries names M idx r :
  NoDup names -> row_dict names M idx = Ok r ->
  forall i k, names !! i = Some k ->
    exists x, mget M idx i = Ok x /\ dget k r = Some x.
Proof.
  intros Hnd Hr i k Hi. apply row_dict_spec in Hr as [Hc Ho].
  assert (Hk : In k names) by (apply list_elem_of_In, list_elem_of_lookup; eauto).
  apply Hc, dhas_dget in Hk as [x Hx].
  destruct (Ho k x Hx) as (j & Hj & Hm).
  rewrite (NoDup_lookup_eq _ _ _ _ Hnd Hi Hj). eauto.
Qed.

Lemma row_dict_nonzero_entries names M idx r :
  NoDup names -> row_dict_nonzero names M idx = Ok r ->
  forall i k, names !! i = Some k ->
    exists x, mget M idx i = Ok x /\
              dget k r = if Py.ne_zero x then Some x else None.
Proof.
  intros Hnd Hr i k Hi. apply row_dict_nonzero_origin in Hr as [Ho Hc].
  destruct (Hc i k Hi) as (x & Hx & Hhas). exists x. split; [done|].
  destruct (dget k r) as [y|] eqn:Hy.
  - destruct (Ho k y Hy) as (j & Hj & Hm & Hnz).
    rewrite <- (NoDup_lookup_eq _ _ _ _ Hnd Hi Hj) in Hm.
    rewrite Hx in Hm. injection Hm as <-. by rewrite Hnz.
  - destruct (Py.ne_zero x); [|done].
    specialize (Hhas eq_refl). unfold dhas in Hhas. by rewrite Hy in Hhas.
Qed.

(** A loop whose body rewrites the dictionary of the element it is
    given: what it leaves on each element, when no name comes twice. *)
Section ElementLoopExact.
Context (t : element_type) (W : nat -> elem -> elem -> Prop).
Context (step : ModelData -> nat * string -> result ModelData).
Hypothesis step_spec : forall md i n md',
  step md (i, n) = Ok md' ->
  exists e e', dget n (elements md t) = Some e /\ W i e e' /\
               md' = with_elements t (dset n e' (elements md t)) md.

Lemma element_loop_exact l md md' :
  NoDup (map snd l) ->
  for_each step l md = Ok md' ->
  (forall i n, In (i, n) l ->
     exists e e', dget n (elements md t) = Some e /\
                  dget n (elements md' t) = Some e' /\ W i e e') /\
  (forall n, ~ In n (map snd l) -> dget n (elements md' t) = dget n (elements md t)).
Proof using step_spec.
  revert md. induction l as [|[i n] l IH]; intros md Hnd Hl; simpl in Hl.
  - inv_ok. split; [intros i n []|done].
  - inv_ok. simpl in Hnd. apply NoDup_cons in Hnd as [Hn Hnd].
    destruct (step_spec _ _ _ _ Ha) as (e & e' & He & Hw & ->).
    destruct (IH _ Hnd Hl) as [Hdone Hrest].
    rewrite elements_with_elements_eq in *. split.
    + intros i' n' [[= <- <-]|Hin].
      * exists e, e'. split; [done|]. split; [|done].
        rewrite Hrest; [apply dget_dset_eq|].
        intros Hin. apply Hn. by apply list_elem_of_In.
      * destruct (Hdone _ _ Hin) as (e1 & e1' & He1 & He1' & Hw1).
        exists e1, e1'. split; [|done].
        rewrite dget_dset_ne in He1; [done|].
        intros ->. apply Hn, list_elem_of_In, in_map_iff. by exists (i', n').
    + intros n' Hn'. rewrite Hrest by (intros Hin; apply Hn'; by right).
      apply dget_dset_ne. intros ->. apply Hn'. by left.
Qed.

End ElementLoopExact.

(** The same loop: what it leaves alone, whatever the names. *)
Section ElementLoopFrame.
Context (t : element_type) (written : list string).
Context (step : ModelData -> nat * string -> result ModelData).
Hypothesis step_spec : forall md i n md',
  step md (i, n) = Ok md' ->
  exists e e', dget n (elements md t) = Some e /\ same_outside written e e' /\
               md' = with_elements t (dset n e' (elements md t)) md.

Lemma element_loop_frame l md md' :
  for_each step l md = Ok md' ->
  forall n e', dget n (elements md' t) = Some e' ->
    exists e, dget n (elements md t) = Some e /\ same_outside written e e'.
Proof using step_spec.
  revert md. induction l as [|[i n] l IH]; intros md Hl; simpl in Hl.
  - inv_ok. intros n e' He'. exists e'. by split.
  - inv_ok. destruct (step_spec _ _ _ _ Ha) as (e0 & e0' & He0 & Hs & ->).
    intros n' e' He'. destruct (IH _ Hl _ _ He') as (e1 & He1 & Hs1).
    rewrite elements_with_elements_eq, dget_dset in He1.
    destruct (String.eqb n' n) eqn:E.
    + apply String.eqb_eq in E. subst n'. injection He1 as <-.
      exists e0. split; [done|]. intros k Hk. by rewrite Hs1, Hs.
    + eauto.
Qed.

End ElementLoopFrame.

Section DataUtilsEntries.
Context `{TxCalc}.

Lemma factor_step_losses_exact bus_names ptdf_r ldf ldf_c md i n md' :
  (_ ← ditem n (elements md branch);
   _row_ptdf_r ← row_dict bus_names ptdf_r i;
   md ← set_attr branch n "ptdf_r" (VRow _row_ptdf_r) md;
   _row_ldf ← row_dict bus_names ldf i;
   md ← set_attr branch n "ldf" (VRow _row_ldf) md;
   c ← vget ldf_c i;
   set_attr branch n "ldf_c" (VFloat c) md) = Ok md' ->
  exists e e',
    dget n (elements md branch) = Some e /\
    (exists r1 r2 c,
       row_dict bus_names ptdf_r i = Ok r1 /\ row_dict bus_names ldf i = Ok r2 /\
       vget ldf_c i = Ok c /\
       e' = dset "ldf_c" (VFloat c) (dset "ldf" (VRow r2) (dset "ptdf_r" (VRow r1) e))) /\
    md' = with_elements branch (dset n e' (elements md branch)) md.
Proof.
  intros Hstep. inv_ok. chain_set_attr.
  do 2 eexists. split; [first [eassumption|reflexivity]|]. split; [|reflexivity]. eauto 8.
Qed.

Lemma factor_step_exact bus_names ptdf md i n md' :
  (_ ← ditem n (elements md branch);
   _row_ptdf ← row_dict bus_names ptdf i;
   set_attr branch n "ptdf" (VRow _row_ptdf) md) = Ok md' ->
  exists e e',
    dget n (elements md branch) = Some e /\
    (exists r1, row_dict bus_names ptdf i = Ok r1 /\ e' = dset "ptdf" (VRow r1) e) /\
    md' = with_elements branch (dset n e' (elements md branch)) md.
Proof.
  intros Hstep. inv_ok. chain_set_attr.
  do 2 eexists. split; [first [eassumption|reflexivity]|]. split; [|reflexivity]. eauto.
Qed.

Lemma phi_step_losses_exact branch_names phi_from phi_to phi_loss_from phi_loss_to md i n md' :
  (_ ← ditem n (elements md bus);
   _row_phi_from ← row_dict_nonzero branch_names phi_from i;
   md ← set_attr bus n "phi_from" (VRow _row_phi_from) md;
   _row_phi_to ← row_dict_nonzero branch_names phi_to i;
   md ← set_attr bus n "phi_to" (VRow _row_phi_to) md;
   _row_phi_loss_from ← row_dict_nonzero branch_names phi_loss_from i;
   md ← set_attr bus n "phi_loss_from" (VRow _row_phi_loss_from) md;
   _row_phi_loss_to ← row_dict_nonzero branch_names phi_loss_to i;
   set_attr bus n "phi_loss_to" (VRow _row_phi_loss_to) md) = Ok md' ->
  exists e e',
    dget n (elements md bus) = Some e /\
    (exists r1 r2 r3 r4,
       row_dict_nonzero branch_names phi_from i = Ok r1 /\
       row_dict_nonzero branch_names phi_to i = Ok r2 /\
       row_dict_nonzero branch_names phi_loss_from i = Ok r3 /\
       row_dict_nonzero branch_names phi_loss_to i = Ok r4 /\
       e' = dset "phi_loss_to" (VRow r4) (dset "phi_loss_from" (VRow r3)
              (dset "phi_to" (VRow r2) (dset "phi_from" (VRow r1) e)))) /\
    md' = with_elements bus (dset n e' (elements md bus)) md.
Proof.
  intros Hstep. inv_ok. chain_set_attr.
  do 2 eexists. split; [first [eassumption|reflexivity]|]. split; [|reflexivity]. eauto 10.
Qed.

Lemma phi_step_exact branch_names phi_from phi_to md i n md' :
  (_ ← ditem n (elements md bus);
   _row_phi_from ← row_dict_nonzero branch_names phi_from i;
   md ← set_attr bus n "phi_from" (VRow _row_phi_from) md;
   _row_phi_to ← row_dict_nonzero branch_names phi_to i;
   set_attr bus n "phi_to" (VRow _row_phi_to) md) = Ok md' ->
  exists e e',
    dget n (elements md bus) = Some e /\
    (exists r1 r2,
       row_dict_nonzero branch_names phi_from i = Ok r1 /\
       row_dict_nonzero branch_names phi_to i = Ok r2 /\
       e' = dset "phi_to" (VRow r2) (dset "phi_from" (VRow r1) e)) /\
    md' = with_elements bus (dset n e' (elements md bus)) md.
Proof.
  intros Hstep. inv_ok. chain_set_attr.
  do 2 eexists. split; [first [eassumption|reflexivity]|]. split; [|reflexivity]. eauto 8.
Qed.

Lemma dget_dset_outside {V} (written : list string) k (v : V) e a :
  In k written -> ~ In a written -> dget a (dset k v e) = dget a e.
Proof. intros Hk Ha. apply dget_dset_ne. intros ->. done. Qed.

(** X10: [create_dicts_of_ptdf] and [create_dicts_of_ptdf_losses] only
    add their sensitivity attributes.  The system data, the generators,
    the loads and the shunts are returned as they were; the buses and
    the branches keep their names and their order, and on each of them
    every attribute other than the phi rows (on a bus) or the factor rows
    and the loss offset (on a branch) keeps its value. *)
Theorem create_dicts_frame which md base_point md' :
  create_dicts which md base_point = Ok md' ->
  system md' = system md /\
  elements md' generator = elements md generator /\
  elements md' load = elements md load /\
  elements md' shunt = elements md shunt /\
  dkeys (elements md' bus) = dkeys (elements md bus) /\
  dkeys (elements md' branch) = dkeys (elements md branch) /\
  (forall b e', dget b (elements md' bus) = Some e' ->
     exists e, dget b (elements md bus) = Some e /\
               same_outside (phi_attributes which) e e') /\
  (forall k e', dget k (elements md' branch) = Some e' ->
     exists e, dget k (elements md branch) = Some e /\
               same_outside (branch_attributes_written which) e e').
Proof.
  intros Hc.
  assert (Hloops : exists branch_step bus_step md1,
    for_each branch_step (enumerate (attribute_names md branch)) md = Ok md1 /\
    for_each bus_step (enumerate (attribute_names md bus)) md1 = Ok md' /\
    (forall md i n md', branch_step md (i, n) = Ok md' ->
       exists e e', dget n (elements md branch) = Some e /\
                    same_outside (branch_attributes_written which) e e' /\
                    md' = with_elements branch (dset n e' (elements md branch)) md) /\
    (forall md i n md', bus_step md (i, n) = Ok md' ->
       exists e e', dget n (elements md bus) = Some e /\
                    same_outside (phi_attributes which) e e' /\
                    md' = with_elements bus (dset n e' (elements md bus)) md)).
  { destruct which; simpl in Hc.
    - unfold create_dicts_of_ptdf in Hc. inv_ok.
      do 3 eexists. split; [exact Ha2|]. split; [exact Hc|]. split.
      + intros md0 i n md0' Hs. simpl in Hs.
        apply factor_step_exact in Hs as (e & e' & He & (r1 & _ & ->) & ->).
        exists e, (dset "ptdf" (VRow r1) e). split; [done|]. split; [|done].
        intros attr Hattr. simpl in Hattr.
        rewrite !dget_dset_ne; [done|intros <-; apply Hattr; tauto..].
      + intros md0 i n md0' Hs. simpl in Hs.
        apply phi_step_exact in Hs as (e & e' & He & (r1 & r2 & _ & _ & ->) & ->).
        do 2 eexists. split; [done|]. split; [|done].
        intros attr Hattr. simpl in Hattr.
        rewrite !dget_dset_ne; [done|intros <-; apply Hattr; tauto..].
    - unfold create_dicts_of_ptdf_losses in Hc. inv_ok.
      do 3 eexists. split; [exact Ha3|]. split; [exact Hc|]. split.
      + intros md0 i n md0' Hs. simpl in Hs.
        apply factor_step_losses_exact in Hs
          as (e & e' & He & (r1 & r2 & c & _ & _ & _ & ->) & ->).
        do 2 eexists. split; [done|]. split; [|done].
        intros attr Hattr. simpl in Hattr.
        rewrite !dget_dset_ne; [done|intros <-; apply Hattr; tauto..].
      + intros md0 i n md0' Hs. simpl in Hs.
        apply phi_step_losses_exact in Hs
          as (e & e' & He & (r1 & r2 & r3 & r4 & _ & _ & _ & _ & ->) & ->).
        do 2 eexists. split; [done|]. split; [|done].
        intros attr Hattr. simpl in Hattr.
        rewrite !dget_dset_ne; [done|intros <-; apply Hattr; tauto..]. }
  destruct Hloops as (branch_step & bus_step & md1 & H1 & H2 & Hbr & Hbus).
  assert (Hbr' : forall md i n md', branch_step md (i, n) = Ok md' ->
            exists e', True /\ dhas n (elements md branch) = true /\
                       md' = with_elements branch (dset n e' (elements md branch)) md).
  { intros md0 i n md0' Hs. destruct (Hbr _ _ _ _ Hs) as (e & e' & He & _ & ->).
    exists e'. split; [done|]. split; [apply dhas_dget; eauto|done]. }
  assert (Hbus' : forall md i n md', bus_step md (i, n) = Ok md' ->
            exists e', True /\ dhas n (elements md bus) = true /\
                       md' = with_elements bus (dset n e' (elements md bus)) md).
  { intros md0 i n md0' Hs. destruct (Hbus _ _ _ _ Hs) as (e & e' & He & _ & ->).
    exists e'. split; [done|]. split; [apply dhas_dget; eauto|done]. }
  destruct (element_loop_spec branch (fun _ => True) branch_step Hbr' _ _ _ H1)
    as (Hsys1 & Hother1 & Hkeys1 & _).
  destruct (element_loop_spec bus (fun _ => True) bus_step Hbus' _ _ _ H2)
    as (Hsys2 & Hother2 & Hkeys2 & _).
  split; [by rewrite Hsys2|].
  split; [by rewrite Hother2, Hother1|].
  split; [by rewrite Hother2, Hother1|].
  split; [by rewrite Hother2, Hother1|].
  split; [by rewrite Hkeys2, Hother1|].
  split; [by rewrite Hother2, Hkeys1|].
  split.
  - intros b e' He'.
    destruct (element_loop_frame bus _ bus_step Hbus _ _ _ H2 _ _ He') as (e & He & Hs).
    rewrite Hother1 in He by done. eauto.
  - intros k e' He'. rewrite Hother2 in He' by done.
    by apply (element_loop_frame branch _ branch_step Hbr _ _ _ H1).
Qed.

End DataUtilsEntries.

Lemma create_dicts_frame_witness :
  @create_dicts two_bus_tx_calc ptdf_losses_dicts two_bus_network SOLUTION
    = Ok two_bus_with_dicts /\
  system two_bus_with_dicts = system two_bus_network /\
  elements two_bus_with_dicts generator = elements two_bus_network generator /\
  elements two_bus_with_dicts load = elements two_bus_network load /\
  elements two_bus_with_dicts shunt = elements two_bus_network shunt /\
  dkeys (elements two_bus_with_dicts bus) = dkeys (elements two_bus_network bus) /\
  dkeys (elements two_bus_with_dicts branch) = dkeys (elements two_bus_network branch) /\
  (forall b e', dget b (elements two_bus_with_dicts bus) = Some e' ->
     exists e, dget b (elements two_bus_network bus) = Some e /\
               same_outside (phi_attributes ptdf_losses_dicts) e e') /\
  (forall k e', dget k (elements two_bus_with_dicts branch) = Some e' ->
     exists e, dget k (elements two_bus_network branch) = Some e /\
               same_outside (branch_attributes_written ptdf_losses_dicts) e e').
Proof.
  split; [vm_compute; reflexivity|].
  apply (@create_dicts_frame two_bus_tx_calc ptdf_losses_dicts two_bus_network
           SOLUTION two_bus_with_dicts).
  vm_compute. reflexivity.
Defined.

Section DataUtilsStored.
Context `{TxCalc}.

Lemma row_item_of_row a b e r : dget a e = Some (VRow r) -> row_item a b e = ditem b r.
Proof. intros Ha. unfold row_item, ditem. by rewrite Ha. Qed.

Lemma stored_entry_sparse a k e r x :
  dget a e = Some (VRow r) ->
  dget k r = (if Py.ne_zero x then Some x else None) ->
  stored_entry a k e = sparse_entry k x.
Proof.
  intros Ha Hk. unfold stored_entry, sparse_entry.
  rewrite (row_item_of_row _ _ _ _ Ha). unfold ditem. rewrite Hk.
  by destruct (Py.ne_zero x).
Qed.

(** X11: with branch and bus names that are dictionary keys (no name
    twice), [create_dicts_of_ptdf_losses] stores the factors tx_calc
    computed, entry for entry: on the branch at position [i] the rows
    [ptdf_r] and [ldf] hold, under the bus at position [j], the matrix
    entries [(i, j)], and [ldf_c] is entry [i] of the offsets. *)
Theorem ptdf_losses_factors_stored md base_point md' ref P L C :
  NoDup (attribute_names md branch) ->
  NoDup (attribute_names md bus) ->
  ditem "reference_bus" (system md) = Ok ref ->
  calculate_ptdf_ldf (elements md branch) (elements md bus)
    (attribute_names md branch) (attribute_names md bus) ref base_point
    = Ok (P, L, C) ->
  create_dicts_of_ptdf_losses md base_point = Ok md' ->
  forall i k j b,
    attribute_names md branch !! i = Some k ->
    attribute_names md bus !! j = Some b ->
    exists e x y c,
      dget k (elements md' branch) = Some e /\
      mget P i j = Ok x /\ row_item "ptdf_r" b e = Ok x /\
      mget L i j = Ok y /\ row_item "ldf" b e = Ok y /\
      vget C i = Ok c /\ dget "ldf_c" e = Some (VFloat c).
Proof.
  intros Hndk Hndb Href Hcalc Hc i k j b Hi Hj.
  unfold create_dicts_of_ptdf_losses in Hc. inv_ok.
  match goal with
  | Hx : ditem "reference_bus" _ = Ok ?a |- _ =>
      rewrite Href in Hx; apply Ok_inj in Hx; subst a
  end.
  match goal with
  | Hx : calculate_ptdf_ldf _ _ _ _ _ _ = Ok ?a |- _ =>
      rewrite Hcalc in Hx; apply Ok_inj in Hx; subst a
  end.
  set (W1 := fun (i : nat) (e e' : elem) => exists r1 r2 c,
           row_dict (attribute_names md bus) P i = Ok r1 /\
           row_dict (attribute_names md bus) L i = Ok r2 /\
           vget C i = Ok c /\
           e' = dset "ldf_c" (VFloat c) (dset "ldf" (VRow r2) (dset "ptdf_r" (VRow r1) e))).
  match type of Ha3 with
  | for_each ?step _ _ = _ =>
      assert (Hstep1 : forall md0 i0 n0 md0', step md0 (i0, n0) = Ok md0' ->
                exists e e', dget n0 (elements md0 branch) = Some e /\ W1 i0 e e' /\
                  md0' = with_elements branch (dset n0 e' (elements md0 branch)) md0)
        by (intros md0 i0 n0 md0' Hs; simpl in Hs;
            by apply factor_step_losses_exact in Hs)
  end.
  match type of Hc with
  | for_each ?step _ _ = _ =>
      assert (Hstep2 : forall md0 i0 n0 md0', step md0 (i0, n0) = Ok md0' ->
                exists e', True /\ dhas n0 (elements md0 bus) = true /\
                  md0' = with_elements bus (dset n0 e' (elements md0 bus)) md0)
        by (intros md0 i0 n0 md0' Hs; simpl in Hs;
            apply phi_step_losses_exact in Hs as (e & e' & He & _ & ->);
            exists e'; split; [done|]; split; [apply dhas_dget; eauto|done])
  end.
  assert (Hnd1 : NoDup (map snd (enumerate (attribute_names md branch))))
    by (by rewrite enumerate_snd).
  destruct (element_loop_exact branch W1 _ Hstep1 _ _ _ Hnd1 Ha3) as [Hdone _].
  destruct (element_loop_spec bus (fun _ => True) _ Hstep2 _ _ _ Hc) as (_ & Hother & _).
  destruct (Hdone i k (lookup_In_enumerate _ _ _ Hi))
    as (e & e' & He & He' & r1 & r2 & c & Hr1 & Hr2 & Hcv & ->).
  destruct (row_dict_entries _ _ _ _ Hndb Hr1 j b Hj) as (x & Hx & Hrx).
  destruct (row_dict_entries _ _ _ _ Hndb Hr2 j b Hj) as (y & Hy & Hry).
  exists (dset "ldf_c" (VFloat c) (dset "ldf" (VRow r2) (dset "ptdf_r" (VRow r1) e))), x, y, c.
  split; [by rewrite Hother|].
  split; [done|].
  split; [rewrite (row_item_of_row _ _ _ r1) by (by rewrite !dget_dset);
          unfold ditem; by rewrite Hrx|].
  split; [done|].
  split; [rewrite (row_item_of_row _ _ _ r2) by (by rewrite !dget_dset);
          unfold ditem; by rewrite Hry|].
  split; [done|]. by rewrite dget_dset.
Qed.

(** X12: with names that are dictionary keys,
    [create_dicts_of_ptdf_losses] stores on the bus at position [j],
    under the branch at position [i], the entry [(j, i)] of each phi
    matrix exactly when that entry differs from zero; when it compares
    equal to zero (which negative zero does) the key is absent and the
    lookup is a [KeyError]. *)
Theorem ptdf_losses_phi_stored md base_point md' Ff Ft Lf Lt :
  NoDup (attribute_names md branch) ->
  NoDup (attribute_names md bus) ->
  calculate_phi_constant (elements md branch) (attribute_names md branch)
    (attribute_names md bus) PTDF_LOSSES = Ok (Ff, Ft) ->
  calculate_phi_loss_constant (elements md branch) (attribute_names md branch)
    (attribute_names md bus) PTDF_LOSSES = Ok (Lf, Lt) ->
  create_dicts_of_ptdf_losses md base_point = Ok md' ->
  forall j b i k,
    attribute_names md bus !! j = Some b ->
    attribute_names md branch !! i = Some k ->
    exists e x1 x2 x3 x4,
      dget b (elements md' bus) = Some e /\
      mget Ff j i = Ok x1 /\ stored_entry "phi_from" k e = sparse_entry k x1 /\
      mget Ft j i = Ok x2 /\ stored_entry "phi_to" k e = sparse_entry k x2 /\
      mget Lf j i = Ok x3 /\ stored_entry "phi_loss_from" k e = sparse_entry k x3 /\
      mget Lt j i = Ok x4 /\ stored_entry "phi_loss_to" k e = sparse_entry k x4.
Proof.
  intros Hndk Hndb Hphi Hloss Hc j b i k Hj Hi.
  unfold create_dicts_of_ptdf_losses in Hc. inv_ok.
  match goal with
  | Hx : calculate_phi_constant _ _ _ _ = Ok ?a |- _ =>
      rewrite Hphi in Hx; apply Ok_inj in Hx; subst a
  end.
  match goal with
  | Hx : calculate_phi_loss_constant _ _ _ _ = Ok ?a |- _ =>
      rewrite Hloss in Hx; apply Ok_inj in Hx; subst a
  end.
  set (W2 := fun (i : nat) (e e' : elem) => exists r1 r2 r3 r4,
           row_dict_nonzero (attribute_names md branch) Ff i = Ok r1 /\
           row_dict_nonzero (attribute_names md branch) Ft i = Ok r2 /\
           row_dict_nonzero (attribute_names md branch) Lf i = Ok r3 /\
           row_dict_nonzero (attribute_names md branch) Lt i = Ok r4 /\
           e' = dset "phi_loss_to" (VRow r4) (dset "phi_loss_from" (VRow r3)
                  (dset "phi_to" (VRow r2) (dset "phi_from" (VRow r1) e)))).
  match type of Ha3 with
  | for_each ?step _ _ = _ =>
      assert (Hstep1 : forall md0 i0 n0 md0', step md0 (i0, n0) = Ok md0' ->
                exists e', True /\ dhas n0 (elements md0 branch) = true /\
                  md0' = with_elements branch (dset n0 e' (elements md0 branch)) md0)
        by (intros md0 i0 n0 md0' Hs; simpl in Hs;
            apply factor_step_losses_exact in Hs as (e & e' & He & _ & ->);
            exists e'; split; [done|]; split; [apply dhas_dget; eauto|done])
  end.
  match type of Hc with
  | for_each ?step _ _ = _ =>
      assert (Hstep2 : forall md0 i0 n0 md0', step md0 (i0, n0) = Ok md0' ->
                exists e e', dget n0 (elements md0 bus) = Some e /\ W2 i0 e e' /\
                  md0' = with_elements bus (dset n0 e' (elements md0 bus)) md0)
        by (intros md0 i0 n0 md0' Hs; simpl in Hs;
            by apply phi_step_losses_exact in Hs)
  end.
  destruct (element_loop_spec branch (fun _ => True) _ Hstep1 _ _ _ Ha3)
    as (_ & Hother & _).
  assert (Hnd2 : NoDup (map snd (enumerate (attribute_names md bus))))
    by (by rewrite enumerate_snd).
  destruct (element_loop_exact bus W2 _ Hstep2 _ _ _ Hnd2 Hc) as [Hdone _].
  rewrite Hother in Hdone by done.
  destruct (Hdone j b (lookup_In_enumerate _ _ _ Hj))
    as (e & e' & He & He' & r1 & r2 & r3 & r4 & Hr1 & Hr2 & Hr3 & Hr4 & ->).
  destruct (row_dict_nonzero_entries _ _ _ _ Hndk Hr1 i k Hi) as (x1 & Hx1 & Hk1).
  destruct (row_dict_nonzero_entries _ _ _ _ Hndk Hr2 i k Hi) as (x2 & Hx2 & Hk2).
  destruct (row_dict_nonzero_entries _ _ _ _ Hndk Hr3 i k Hi) as (x3 & Hx3 & Hk3).
  destruct (row_dict_nonzero_entries _ _ _ _ Hndk Hr4 i k Hi) as (x4 & Hx4 & Hk4).
  eexists _, x1, x2, x3, x4. split; [exact He'|].
  split; [done|].
  split; [apply (stored_entry_sparse _ _ _ r1); [by rewrite !dget_dset|done]|].
  split; [done|].
  split; [apply (stored_entry_sparse _ _ _ r2); [by rewrite !dget_dset|done]|].
  split; [done|].
  split; [apply (stored_entry_sparse _ _ _ r3); [by rewrite !dget_dset|done]|].
  split; [done|].
  apply (stored_entry_sparse _ _ _ r4); [by rewrite !dget_dset|done].
Qed.

End DataUtilsStored.

(** ** The sensitivity dictionaries: when they are built *)

Lemma mget_in_shape rows cols M i j :
  has_shape rows cols M -> i < rows -> j < cols -> exists x, mget M i j = Ok x.
Proof.
  intros [Hlen Hrows] Hi Hj. unfold mget.
  destruct (M !! i) as [row|] eqn:Hrow.
  - assert (Hl : length row = cols).
    { eapply (proj1 (Forall_forall _ _) Hrows). by eapply list_elem_of_lookup_2. }
    destruct (row !! j) as [x|] eqn:Hx; [eauto|].
    apply lookup_ge_None in Hx. lia.
  - apply lookup_ge_None in Hrow. lia.
Qed.

Lemma row_dict_total names rows M idx :
  has_shape rows (length names) M -> idx < rows ->
  exists r, row_dict names M idx = Ok r.
Proof.
  intros Hshape Hidx. unfold row_dict.
  destruct (mapM_result_total
              (fun ik : nat * string => x ← mget M idx (fst ik); Ok (snd ik, x))
              (enumerate names)) as [kvs Hkvs].
  { apply Forall_forall. intros [j name] Hin. apply list_elem_of_In, enumerate_In in Hin.
    apply lookup_lt_Some in Hin.
    destruct (mget_in_shape _ _ _ idx j Hshape Hidx Hin) as [x Hx].
    simpl. by rewrite Hx. }
  rewrite Hkvs. simpl. eauto.
Qed.

Lemma row_dict_nonzero_total names rows M idx :
  has_shape rows (length names) M -> idx < rows ->
  exists r, row_dict_nonzero names M idx = Ok r.
Proof.
  intros Hshape Hidx. unfold row_dict_nonzero.
  destruct (mapM_result_total
              (fun ik : nat * string =>
                 x ← mget M idx (fst ik);
                 Ok (if Py.ne_zero x then Some (snd ik, x) else None))
              (enumerate names)) as [kvs Hkvs].
  { apply Forall_forall. intros [j name] Hin. apply list_elem_of_In, enumerate_In in Hin.
    apply lookup_lt_Some in Hin.
    destruct (mget_in_shape _ _ _ idx j Hshape Hidx Hin) as [x Hx].
    simpl. by rewrite Hx. }
  rewrite Hkvs. simpl. eauto.
Qed.

(** A loop over the elements goes through when each step does. *)
Section ElementLoopTotal.
Context (t : element_type) (P : nat -> Prop).
Context (step : ModelData -> nat * string -> result ModelData).
Hypothesis step_ok : forall md i n,
  P i -> dhas n (elements md t) = true ->
  exists e', step md (i, n) = Ok (with_elements t (dset n e' (elements md t)) md).

Lemma element_loop_total l md :
  (forall i n, In (i, n) l -> P i /\ dhas n (elements md t) = true) ->
  exists md', for_each step l md = Ok md'.
Proof using step_ok.
  revert md. induction l as [|[i n] l IH]; intros md Hl; simpl; [eauto|].
  destruct (Hl i n) as [Hi Hn]; [by left|].
  destruct (step_ok md i n Hi Hn) as [e' ->]. simpl. apply IH.
  intros i' n' Hin. destruct (Hl i' n') as [Hi' Hn']; [by right|].
  split; [done|]. rewrite elements_with_elements_eq, dhas_dset, Hn'.
  apply orb_true_r.
Qed.

End ElementLoopTotal.

Lemma bind_Ok_eq {A B} (a : A) (f : A -> result B) : (Ok a ≫= f) = f a.
Proof. reflexivity. Qed.

Section DataUtilsTotal.
Context `{TxCalc}.

(** X13: [create_dicts_of_ptdf_losses] goes through on every snapshot
    that names a reference bus, as soon as tx_calc answers with arrays of
    the right shape: factor and loss matrices with one row per branch and
    one column per bus, one offset per branch, and phi matrices with one
    row per bus and one column per branch. *)
Theorem create_dicts_of_ptdf_losses_succeeds md base_point ref P L C Ff Ft Lf Lt :
  ditem "reference_bus" (system md) = Ok ref ->
  calculate_ptdf_ldf (elements md branch) (elements md bus)
    (attribute_names md branch) (attribute_names md bus) ref base_point
    = Ok (P, L, C) ->
  calculate_phi_constant (elements md branch) (attribute_names md branch)
    (attribute_names md bus) PTDF_LOSSES = Ok (Ff, Ft) ->
  calculate_phi_loss_constant (elements md branch) (attribute_names md branch)
    (attribute_names md bus) PTDF_LOSSES = Ok (Lf, Lt) ->
  has_shape (length (attribute_names md branch)) (length (attribute_names md bus)) P ->
  has_shape (length (attribute_names md branch)) (length (attribute_names md bus)) L ->
  length C = length (attribute_names md branch) ->
  has_shape (length (attribute_names md bus)) (length (attribute_names md branch)) Ff ->
  has_shape (length (attribute_names md bus)) (length (attribute_names md branch)) Ft ->
  has_shape (length (attribute_names md bus)) (length (attribute_names md branch)) Lf ->
  has_shape (length (attribute_names md bus)) (length (attribute_names md branch)) Lt ->
  is_ok (create_dicts_of_ptdf_losses md base_point) = true.
Proof.
  intros Href Hcalc Hphi Hloss HP HL HC HFf HFt HLf HLt.
  unfold create_dicts_of_ptdf_losses.
  rewrite Href, bind_Ok_eq, Hcalc, bind_Ok_eq, Hphi, bind_Ok_eq, Hloss, bind_Ok_eq.
  cbn [fst snd].
  set (branch_names := attribute_names md branch) in *.
  set (bus_names := attribute_names md bus) in *.
  match goal with
  | |- is_ok (for_each ?step1 _ _ ≫= _) = true =>
      destruct (element_loop_total branch (fun i => i < length branch_names) step1)
        with (l := enumerate branch_names) (md := md) as [md1 Hloop1]
  end.
  { intros md0 i n Hi Hn. apply dhas_dget in Hn as [e He].
    destruct (row_dict_total bus_names _ P i HP Hi) as [r1 Hr1].
    destruct (row_dict_total bus_names _ L i HL Hi) as [r2 Hr2].
    assert (exists c, vget C i = Ok c) as [c Hc].
    { unfold vget. destruct (C !! i) as [c|] eqn:E; [eauto|].
      apply lookup_ge_None in E. lia. }
    eexists. cbn [fst snd]. unfold ditem at 1. rewrite He, bind_Ok_eq.
    rewrite Hr1, bind_Ok_eq, (set_attr_first _ _ _ _ _ _ He), bind_Ok_eq.
    rewrite Hr2, bind_Ok_eq, set_attr_next, bind_Ok_eq, Hc, bind_Ok_eq.
    by rewrite set_attr_next. }
  { intros i n Hin. apply enumerate_In in Hin. split.
    - by apply lookup_lt_Some in Hin.
    - apply dhas_dget, dkeys_In_dget, list_elem_of_In.
      by eapply list_elem_of_lookup_2. }
  rewrite Hloop1, bind_Ok_eq.
  assert (Hbus1 : elements md1 bus = elements md bus).
  { match type of Hloop1 with
    | for_each ?step _ _ = _ =>
        assert (Hstep1 : forall md0 i0 n0 md0', step md0 (i0, n0) = Ok md0' ->
                  exists e', True /\ dhas n0 (elements md0 branch) = true /\
                    md0' = with_elements branch (dset n0 e' (elements md0 branch)) md0)
          by (intros md0 i0 n0 md0' Hs; simpl in Hs;
              apply factor_step_losses_exact in Hs as (e & e' & He & _ & ->);
              exists e'; split; [done|]; split; [apply dhas_dget; eauto|done])
    end.
    destruct (element_loop_spec branch (fun _ => True) _ Hstep1 _ _ _ Hloop1)
      as (_ & Hother & _). by apply Hother. }
  match goal with
  | |- is_ok (for_each ?step2 _ _) = true =>
      destruct (element_loop_total bus (fun i => i < length bus_names) step2)
        with (l := enumerate bus_names) (md := md1) as [md' Hloop2]
  end.
  { intros md0 i n Hi Hn. apply dhas_dget in Hn as [e He].
    destruct (row_dict_nonzero_total branch_names _ Ff i HFf Hi) as [r1 Hr1].
    destruct (row_dict_nonzero_total branch_names _ Ft i HFt Hi) as [r2 Hr2].
    destruct (row_dict_nonzero_total branch_names _ Lf i HLf Hi) as [r3 Hr3].
    destruct (row_dict_nonzero_total branch_names _ Lt i HLt Hi) as [r4 Hr4].
    eexists. cbn [fst snd]. unfold ditem at 1. rewrite He, bind_Ok_eq.
    rewrite Hr1, bind_Ok_eq, (set_attr_first _ _ _ _ _ _ He), bind_Ok_eq.
    rewrite Hr2, bind_Ok_eq, set_attr_next, bind_Ok_eq.
    rewrite Hr3, bind_Ok_eq, set_attr_next, bind_Ok_eq.
    rewrite Hr4, bind_Ok_eq. by rewrite set_attr_next. }
  { intros i n Hin. apply enumerate_In in Hin. split.
    - by apply lookup_lt_Some in Hin.
    - rewrite Hbus1. apply dhas_dget, dkeys_In_dget, list_elem_of_In.
      by eapply list_elem_of_lookup_2. }
  by rewrite Hloop2.
Qed.

End DataUtilsTotal.

Lemma two_bus_names_NoDup :
  NoDup (attribute_names two_bus_network branch) /\
  NoDup (attribute_names two_bus_network bus).
Proof. split; apply (bool_decide_eq_true_1 _); vm_compute; reflexivity. Qed.

Lemma ptdf_losses_factors_stored_witness :
  NoDup (attribute_names two_bus_network branch) /\
  NoDup (attribute_names two_bus_network bus) /\
  ditem "reference_bus" (system two_bus_network) = Ok (VStr "bus1") /\
  @calculate_ptdf_ldf two_bus_tx_calc
    (elements two_bus_network branch) (elements two_bus_network bus)
    (attribute_names two_bus_network branch) (attribute_names two_bus_network bus)
    (VStr "bus1") SOLUTION = Ok ([[0; -1]], [[0; 0.125]], [0.5])%float /\
  @create_dicts_of_ptdf_losses two_bus_tx_calc two_bus_network SOLUTION
    = Ok two_bus_with_dicts /\
  forall i k j b,
    attribute_names two_bus_network branch !! i = Some k ->
    attribute_names two_bus_network bus !! j = Some b ->
    exists e x y c,
      dget k (elements two_bus_with_dicts branch) = Some e /\
      mget [[0; -1]]%float i j = Ok x /\ row_item "ptdf_r" b e = Ok x /\
      mget [[0; 0.125]]%float i j = Ok y /\ row_item "ldf" b e = Ok y /\
      vget [0.5]%float i = Ok c /\ dget "ldf_c" e = Some (VFloat c).
Proof.
  split; [apply two_bus_names_NoDup|]. split; [apply two_bus_names_NoDup|].
  split; [reflexivity|]. split; [reflexivity|]. split; [vm_compute; reflexivity|].
  apply (@ptdf_losses_factors_stored two_bus_tx_calc two_bus_network SOLUTION
           two_bus_with_dicts (VStr "bus1")).
  - apply two_bus_names_NoDup.
  - apply two_bus_names_NoDup.
  - reflexivity.
  - reflexivity.
  - vm_compute. reflexivity.
Defined.

Lemma ptdf_losses_phi_stored_witness :
  NoDup (attribute_names two_bus_network branch) /\
  NoDup (attribute_names two_bus_network bus) /\
  @calculate_phi_constant two_bus_tx_calc (elements two_bus_network branch)
    (attribute_names two_bus_network branch) (attribute_names two_bus_network bus)
    PTDF_LOSSES = Ok ([[0]; [0.25]], [[0]; [0.5]])%float /\
  @calculate_phi_loss_constant two_bus_tx_calc (elements two_bus_network branch)
    (attribute_names two_bus_network branch) (attribute_names two_bus_network bus)
    PTDF_LOSSES = Ok ([[0]; [0.125]], [[0]; [0.25]])%float /\
  @create_dicts_of_ptdf_losses two_bus_tx_calc two_bus_network SOLUTION
    = Ok two_bus_with_dicts /\
  forall j b i k,
    attribute_names two_bus_network bus !! j = Some b ->
    attribute_names two_bus_network branch !! i = Some k ->
    exists e x1 x2 x3 x4,
      dget b (elements two_bus_with_dicts bus) = Some e /\
      mget [[0]; [0.25]]%float j i = Ok x1 /\
      stored_entry "phi_from" k e = sparse_entry k x1 /\
      mget [[0]; [0.5]]%float j i = Ok x2 /\
      stored_entry "phi_to" k e = sparse_entry k x2 /\
      mget [[0]; [0.125]]%float j i = Ok x3 /\
      stored_entry "phi_loss_from" k e = sparse_entry k x3 /\
      mget [[0]; [0.25]]%float j i = Ok x4 /\
      stored_entry "phi_loss_to" k e = sparse_entry k x4.
Proof.
  split; [apply two_bus_names_NoDup|]. split; [apply two_bus_names_NoDup|].
  split; [reflexivity|]. split; [reflexivity|]. split; [vm_compute; reflexivity|].
  apply (@ptdf_losses_phi_stored two_bus_tx_calc two_bus_network SOLUTION
           two_bus_with_dicts).
  - apply two_bus_names_NoDup.
  - apply two_bus_names_NoDup.
  - reflexivity.
  - reflexivity.
  - vm_compute. reflexivity.
Defined.

Lemma two_bus_shapes :
  has_shape 1 2 [[0; -1]]%float /\ has_shape 1 2 [[0; 0.125]]%float /\
  has_shape 2 1 [[0]; [0.25]]%float /\ has_shape 2 1 [[0]; [0.5]]%float /\
  has_shape 2 1 [[0]; [0.125]]%float.
Proof. unfold has_shape. repeat split; repeat constructor. Qed.

Lemma create_dicts_of_ptdf_losses_succeeds_witness :
  ditem "reference_bus" (system two_bus_network) = Ok (VStr "bus1") /\
  has_shape 1 2 [[0; -1]]%float /\ has_shape 1 2 [[0; 0.125]]%float /\
  length [0.5%float] = 1 /\
  has_shape 2 1 [[0]; [0.25]]%float /\ has_shape 2 1 [[0]; [0.5]]%float /\
  has_shape 2 1 [[0]; [0.125]]%float /\
  is_ok (@create_dicts_of_ptdf_losses two_bus_tx_calc two_bus_network SOLUTION) = true.
Proof.
  destruct two_bus_shapes as (H1 & H2 & H3 & H4 & H5).
  split; [reflexivity|]. split; [exact H1|]. split; [exact H2|]. split; [reflexivity|].
  split; [exact H3|]. split; [exact H4|]. split; [exact H5|].
  by apply (@create_dicts_of_ptdf_losses_succeeds two_bus_tx_calc two_bus_network
              SOLUTION (VStr "bus1") [[0; -1]]%float [[0; 0.125]]%float [0.5%float]
              [[0]; [0.25]]%float [[0]; [0.5]]%float
              [[0]; [0.125]]%float [[0]; [0.25]]%float).
Defined.

(** ** The extraction, field by field *)

Lemma save_bus_unwritten g m branches b e e' :
  save_bus g m branches b e = Ok e' ->
  (is_btheta g = false -> dget "va" e' = dget "va" e) /\
  (is_btheta g = false -> is_ptdf g = false -> dget "lmp" e' = dget "lmp" e).
Proof.
  unfold save_bus. intros Hs. inv_ok.
  destruct g as [| |f]; simpl in *; inv_ok.
  - by split.
  - destruct (branch_terms_loop _ _ _ _ _ _ Hs (dget_dset_eq _ _ _))
      as (x & _ & _ & Hother).
    split; [|done]. intros _.
    by rewrite Hother, !dget_dset, !dget_dpop, !dget_dset.
  - split; intros; by rewrite !dget_dpop, !dget_dset.
Qed.

(** X14: the extraction writes result fields and nothing else.  Loads
    and shunts are returned as they were; the system data changes only at
    [total_cost]; generators, buses and branches keep their names and
    their order; a generator changes only at [pg], a branch only at [pf],
    a bus only at [pl], [qlmp], [lmp] and [va], so that the sensitivity
    rows and every input attribute survive the solve. *)
Theorem save_results_frame g m md md' :
  save_results g m md = Ok md' ->
  elements md' load = elements md load /\
  elements md' shunt = elements md shunt /\
  same_outside ["total_cost"] (system md) (system md') /\
  (forall t, dkeys (elements md' t) = dkeys (elements md t)) /\
  (forall n e', dget n (elements md' generator) = Some e' ->
     exists e, dget n (elements md generator) = Some e /\ same_outside ["pg"] e e') /\
  (forall b e', dget b (elements md' bus) = Some e' ->
     exists e, dget b (elements md bus) = Some e /\
               same_outside ["pl"; "qlmp"; "lmp"; "va"] e e') /\
  (forall k e', dget k (elements md' branch) = Some e' ->
     exists e, dget k (elements md branch) = Some e /\ same_outside ["pf"] e e').
Proof.
  intros Hs. pose proof (save_results_spec _ _ _ _ Hs)
    as ((v & _ & Hsys) & Hgen & Hbus & Hbranch & _).
  unfold save_results in Hs. inv_ok.
  destruct md as [sys bs ks gs ls ss]. simpl in *.
  split; [done|]. split; [done|]. split.
  { intros k Hk. simpl in Hk. apply dget_dset_ne. intros <-. tauto. }
  split.
  { intros t. destruct t; simpl; try done; by eapply for_items_keys. }
  split.
  { intros n e' He'. destruct (Hgen n e' He') as (e & v0 & He & _ & ->).
    exists e. split; [done|]. intros k Hk. simpl in Hk.
    apply dget_dset_ne. intros <-. tauto. }
  split.
  { intros b e' He'. destruct (Hbus b e' He') as (e & He & Hsb).
    exists e. split; [done|].
    destruct (save_bus_spec _ _ _ _ _ _ Hsb) as (_ & _ & _ & _ & Hother).
    intros k Hk. simpl in Hk. apply Hother; intros ->; tauto. }
  intros k e' He'. destruct (Hbranch k e' He') as (e & v0 & He & _ & ->).
  exists e. split; [done|]. intros a' Hk. simpl in Hk.
  apply dget_dset_ne. intros <-. tauto.
Qed.

Lemma two_bus_ptdf_extraction :
  save_results ptdf_generator two_bus_ptdf_model two_bus_with_dicts
  = Ok two_bus_ptdf_extracted.
Proof. vm_compute. reflexivity. Qed.

Lemma two_bus_btheta_extraction :
  save_results btheta_generator two_bus_btheta_model two_bus_network
  = Ok two_bus_btheta_extracted.
Proof. vm_compute. reflexivity. Qed.

Lemma save_results_frame_witness :
  save_results ptdf_generator two_bus_ptdf_model two_bus_with_dicts
    = Ok two_bus_ptdf_extracted /\
  elements two_bus_ptdf_extracted load = elements two_bus_with_dicts load /\
  elements two_bus_ptdf_extracted shunt = elements two_bus_with_dicts shunt /\
  same_outside ["total_cost"] (system two_bus_with_dicts)
    (system two_bus_ptdf_extracted) /\
  (forall t, dkeys (elements two_bus_ptdf_extracted t)
             = dkeys (elements two_bus_with_dicts t)) /\
  (forall n e', dget n (elements two_bus_ptdf_extracted generator) = Some e' ->
     exists e, dget n (elements two_bus_with_dicts generator) = Some e /\
               same_outside ["pg"] e e') /\
  (forall b e', dget b (elements two_bus_ptdf_extracted bus) = Some e' ->
     exists e, dget b (elements two_bus_with_dicts bus) = Some e /\
               same_outside ["pl"; "qlmp"; "lmp"; "va"] e e') /\
  (forall k e', dget k (elements two_bus_ptdf_extracted branch) = Some e' ->
     exists e, dget k (elements two_bus_with_dicts branch) = Some e /\
               same_outside ["pf"] e e').
Proof.
  split; [exact two_bus_ptdf_extraction|].
  exact (save_results_frame ptdf_generator two_bus_ptdf_model two_bus_with_dicts
           two_bus_ptdf_extracted two_bus_ptdf_extraction).
Defined.

(** X15: the marginal price and the angle are written only for the
    builders the extraction recognises.  With the PTDF-based builder the
    [va] of every bus stays what it was before the solve, and with any
    other model generator both [lmp] and [va] stay what they were: a
    value left by an earlier solve is handed back unchanged. *)
Theorem save_results_leaves_lmp_and_va g m md md' :
  save_results g m md = Ok md' ->
  is_btheta g = false ->
  forall b e', dget b (elements md' bus) = Some e' ->
    exists e, dget b (elements md bus) = Some e /\
              dget "va" e' = dget "va" e /\
              (is_ptdf g = false -> dget "lmp" e' = dget "lmp" e).
Proof.
  intros Hs Hg b e' He'.
  destruct (save_results_spec _ _ _ _ Hs) as (_ & _ & Hbus & _).
  destruct (Hbus b e' He') as (e & He & Hsb).
  destruct (save_bus_unwritten _ _ _ _ _ _ Hsb) as [Hva Hlmp].
  exists e. split; [done|]. split; [by apply Hva|]. intros Hp. by apply Hlmp.
Qed.

(** X16: with the angle-based builder the extraction keeps the buses
    of the snapshot, by name and in order, and writes on every one of
    them the marginal price and the angle: the price is the dual of that
    bus's own balance constraint [eq_p_balance[b]], taken as it is, and
    the angle is the value of the bus's angle variable. *)
Theorem save_results_btheta_values m md md' :
  save_results btheta_generator m md = Ok md' ->
  attribute_names md' bus = attribute_names md bus /\
  forall b, In b (attribute_names md bus) ->
    exists e' x v,
      dget b (elements md' bus) = Some e' /\
      dual_of_member "eq_p_balance" b m = Ok x /\ dget "lmp" e' = Some (VFloat x) /\
      var_item_value "va" b m = Ok v /\ dget "va" e' = Some v.
Proof.
  intros Hs. pose proof (save_results_names _ _ _ _ Hs bus) as Hnames.
  split; [done|]. intros b Hb.
  rewrite <- Hnames in Hb. apply dkeys_In_dget in Hb as [e' He'].
  destruct (save_results_spec _ _ _ _ Hs) as (_ & _ & Hbus & _).
  destruct (Hbus b e' He') as (e & He & Hsb).
  destruct (save_bus_spec _ _ _ _ _ _ Hsb) as (_ & _ & Hbt & _).
  destruct (Hbt eq_refl) as (x & v & Hx & Hlmp & Hv & Hva).
  by exists e', x, v.
Qed.

Lemma price_loop_rows m b branches p x :
  for_each (fun price kk =>
      ptdf ← row_item "ptdf_r" b (snd kk);
      flow_dual ← dual_of_member "eq_pf_branch" (fst kk) m;
      ldf ← row_item "ldf" b (snd kk);
      loss_dual ← dual_of_member "eq_pfl_branch" (fst kk) m;
      Ok (price + ptdf * flow_dual + ldf * loss_dual)%float) branches p = Ok x ->
  forall k e, In (k, e) branches ->
    is_ok (row_item "ptdf_r" b e) = true /\ is_ok (row_item "ldf" b e) = true /\
    is_ok (dual_of_member "eq_pf_branch" k m) = true /\
    is_ok (dual_of_member "eq_pfl_branch" k m) = true.
Proof.
  revert p. induction branches as [|[k0 e0] branches IH]; intros p Hl k e Hin;
    simpl in *; [done|].
  inv_ok. simpl in *. inv_ok. destruct Hin as [[= <- <-]|Hin].
  - rewrite Ha0, Ha1, Ha2, Ha3. by repeat split.
  - by eapply IH.
Qed.

(** X17: the PTDF-based extraction needs the sensitivity rows.  It goes
    through only if every branch of the snapshot carries a [ptdf_r] and
    an [ldf] entry for every bus, and the solved model a dual for the
    flow and the loss constraint of every branch (as soon as the
    snapshot has a bus); a missing row or entry is a failure, not a
    price without that term. *)
Theorem ptdf_extraction_needs_rows m md md' :
  save_results ptdf_generator m md = Ok md' ->
  forall b k e,
    In b (dkeys (elements md bus)) -> In (k, e) (elements md branch) ->
    is_ok (row_item "ptdf_r" b e) = true /\ is_ok (row_item "ldf" b e) = true /\
    is_ok (dual_of_member "eq_pf_branch" k m) = true /\
    is_ok (dual_of_member "eq_pfl_branch" k m) = true.
Proof.
  intros Hs b k e Hb Hk.
  destruct (save_results_spec _ _ _ _ Hs) as (_ & _ & Hbus & _ & Hhas).
  assert (Hb' : dhas b (elements md' bus) = true).
  { rewrite Hhas. apply dhas_dget. by apply dkeys_In_dget. }
  apply dhas_dget in Hb' as [e' He'].
  destruct (Hbus b e' He') as (e0 & _ & Hsb).
  destruct (save_bus_spec _ _ _ _ _ _ Hsb) as (_ & _ & _ & Hpt & _).
  destruct (Hpt eq_refl) as (x & Hx & _).
  unfold ptdf_marginal_price in Hx. inv_ok.
  by eapply price_loop_rows.
Qed.

Lemma save_results_leaves_lmp_and_va_witness :
  save_results ptdf_generator two_bus_ptdf_model two_bus_with_dicts
    = Ok two_bus_ptdf_extracted /\
  is_btheta ptdf_generator = false /\
  forall b e', dget b (elements two_bus_ptdf_extracted bus) = Some e' ->
    exists e, dget b (elements two_bus_with_dicts bus) = Some e /\
              dget "va" e' = dget "va" e /\
              (is_ptdf ptdf_generator = false -> dget "lmp" e' = dget "lmp" e).
Proof.
  split; [exact two_bus_ptdf_extraction|]. split; [reflexivity|].
  exact (save_results_leaves_lmp_and_va ptdf_generator two_bus_ptdf_model
           two_bus_with_dicts two_bus_ptdf_extracted two_bus_ptdf_extraction eq_refl).
Defined.

Lemma save_results_btheta_values_witness :
  save_results btheta_generator two_bus_btheta_model two_bus_network
    = Ok two_bus_btheta_extracted /\
  attribute_names two_bus_btheta_extracted bus = attribute_names two_bus_network bus /\
  forall b, In b (attribute_names two_bus_network bus) ->
    exists e' x v,
      dget b (elements two_bus_btheta_extracted bus) = Some e' /\
      dual_of_member "eq_p_balance" b two_bus_btheta_model = Ok x /\
      dget "lmp" e' = Some (VFloat x) /\
      var_item_value "va" b two_bus_btheta_model = Ok v /\ dget "va" e' = Some v.
Proof.
  split; [exact two_bus_btheta_extraction|].
  exact (save_results_btheta_values two_bus_btheta_model two_bus_network
           two_bus_btheta_extracted two_bus_btheta_extraction).
Defined.

Lemma ptdf_extraction_needs_rows_witness :
  save_results ptdf_generator two_bus_ptdf_model two_bus_with_dicts
    = Ok two_bus_ptdf_extracted /\
  forall b k e,
    In b (dkeys (elements two_bus_with_dicts bus)) ->
    In (k, e) (elements two_bus_with_dicts branch) ->
    is_ok (row_item "ptdf_r" b e) = true /\ is_ok (row_item "ldf" b e) = true /\
    is_ok (dual_of_member "eq_pf_branch" k two_bus_ptdf_model) = true /\
    is_ok (dual_of_member "eq_pfl_branch" k two_bus_ptdf_model) = true.
Proof.
  split; [exact two_bus_ptdf_extraction|].
  exact (ptdf_extraction_needs_rows two_bus_ptdf_model two_bus_with_dicts
           two_bus_ptdf_extracted two_bus_ptdf_extraction).
Defined.

(** ** The solve as a whole *)

Section SolveWholeFacts.
Context `{TxCalc} `{EgretLibrary} `{SolverBackend}.

Lemma solve_dcopf_losses_steps a solver timelimit tee labels options g rm rr kwargs w w' ret :
  solve_dcopf_losses a solver timelimit tee labels options g rm rr kwargs w
    = (w', Ok ret) ->
  exists m0 r w1 m results w2,
    call_generator g a kwargs w = (w1, Ok (m0, r)) /\
    _solve_model (setattr_component "dual" (CSuffix []) m0) solver
      (Some 0x1.0624dd2f1a9fcp-10%float) timelimit tee labels options w1
      = (w2, Ok (m, results)) /\
    solver_log w' = solver_log w2 /\
    ret = (if rm && rr then ReturnMdModelResults r m results
           else if rm then ReturnMdModel r m
           else if rr then ReturnMdResults r results
           else ReturnMd r).
Proof.
  unfold solve_dcopf_losses. intros Hs.
  apply eff_bind_ok in Hs as ([m0 r] & w1 & Hgen & Hs). simpl in Hs.
  apply eff_bind_ok in Hs as ([m results] & w2 & Hsolve & Hs). simpl in Hs.
  apply eff_bind_ok in Hs as (u & w3 & Hsave & Hs).
  apply update_md_ok in Hsave as (md1 & md2 & Hmd1 & Hsave & ->).
  apply eff_bind_ok in Hs as (u' & w4 & Hun & Hs).
  apply update_md_ok in Hun as (md2' & md3 & Hmd2 & Hun & ->). simpl in *.
  injection Hs as <- <-. simpl.
  by exists m0, r, w1, m, results, w2.
Qed.

(** X18: there is no partial-result mode.  When [solve_dcopf_losses]
    returns with one of the two builders, the solver was named by a
    string and built by [SolverFactory]; the blocking solve request, made
    with that solver (gap 0.001, the caller's time limit and options) on
    the model the builder returned with its [dual] suffix, answered with
    a model and a results object whose termination condition is one of
    [safe_termination_conditions]; it was the only request issued, and
    the model and the results object handed back under [return_model]
    and [return_results] are the ones of that answer. *)
Theorem solve_returns_only_on_accepted_status
  a solver timelimit tee labels options g rm rr kwargs w w' ret :
  g = btheta_generator \/ g = ptdf_generator ->
  solve_dcopf_losses a solver timelimit tee labels options g rm rr kwargs w
    = (w', Ok ret) ->
  exists name s m0 w1 m results r,
    solver = SolverName name /\
    SolverFactory name = Ok s /\
    call_generator g a kwargs w = (w1, Ok (m0, r)) /\
    solve_request
      (_set_options s (Some 0x1.0624dd2f1a9fcp-10%float) timelimit options)
      (setattr_component "dual" (CSuffix []) m0) tee labels = Ok (m, results) /\
    termination_condition results ∈ safe_termination_conditions /\
    length (solver_log w') = S (length (solver_log w)) /\
    ret = (if rm && rr then ReturnMdModelResults r m results
           else if rm then ReturnMdModel r m
           else if rr then ReturnMdResults r results
           else ReturnMd r).
Proof.
  intros Hg Hs. apply solve_dcopf_losses_steps in Hs
    as (m0 & r & w1 & m & results & w2 & Hgen & Hsolve & Hlog & ->).
  pose proof Hgen as Hgen'.
  apply (call_generator_ok _ _ _ _ _ _ _ Hg) in Hgen as (_ & md & _ & Hlog1).
  apply solve_model_ok_inv in Hsolve
    as (name & s & -> & Hfactory & Hrequest & Hsafe & _ & Hlen).
  exists name, s, m0, w1, m, results, r.
  repeat (split; [done|]). split; [|done].
  by rewrite Hlog, Hlen, Hlog1.
Qed.

End SolveWholeFacts.

Lemma solve_returns_only_on_accepted_status_witness :
  (btheta_generator = btheta_generator \/ btheta_generator = ptdf_generator) /\
  two_bus_solve btheta_generator
    = (fst (two_bus_solve btheta_generator),
       Ok (ok_or (ReturnMd 1%positive) (snd (two_bus_solve btheta_generator)))) /\
  exists name s m0 w1 m results r,
    SolverName "ipopt" = SolverName name /\
    @SolverFactory two_bus_backend name = Ok s /\
    @call_generator two_bus_tx_calc example_library btheta_generator 1%positive
      no_kwargs two_bus_world = (w1, Ok (m0, r)) /\
    @solve_request two_bus_backend
      (_set_options s (Some 0x1.0624dd2f1a9fcp-10%float) None None)
      (setattr_component "dual" (CSuffix []) m0) true false = Ok (m, results) /\
    termination_condition results ∈ safe_termination_conditions /\
    length (solver_log (fst (two_bus_solve btheta_generator)))
      = S (length (solver_log two_bus_world)) /\
    ok_or (ReturnMd 1%positive) (snd (two_bus_solve btheta_generator))
      = (if true && false then ReturnMdModelResults r m results
         else if true then ReturnMdModel r m
         else if false then ReturnMdResults r results
         else ReturnMd r).
Proof.
  split; [by left|]. split; [vm_compute; reflexivity|].
  apply (@solve_returns_only_on_accepted_status two_bus_tx_calc example_library
           two_bus_backend 1%positive (SolverName "ipopt") None true false None
           btheta_generator true false no_kwargs two_bus_world).
  - by left.
  - vm_compute. reflexivity.
Defined.

(** ** What the builders ask of the snapshot and fix in the model *)

Lemma attribute_origin md t a d k v :
  attribute md t a = Ok d -> dget k d = Some v ->
  exists e, In (k, e) (elements md t) /\ dget a e = Some v.
Proof.
  unfold attribute. intros Ha Hk.
  match type of Ha with
  | match ?o with _ => _ end = _ => destruct o as [|kv kvs] eqn:Hom; [done|]
  end.
  apply Ok_inj in Ha. subst d.
  apply dict_of_dget in Hk. rewrite <- Hom in Hk.
  apply list_elem_of_In, list_elem_of_omap in Hk as ([k' e] & Hin & Hv).
  simpl in Hv. destruct (dget a e) as [v'|] eqn:Hv'; [|done].
  simpl in Hv. injection Hv as -> ->.
  exists e. split; [by apply list_elem_of_In|done].
Qed.

Lemma dget_map_values {V W} (f : V -> W) (d : dict V) k :
  dget k (map (fun kv => (fst kv, f (snd kv))) d) = f <$> dget k d.
Proof.
  induction d as [|[k0 v0] d IH]; simpl; [done|].
  by destruct (String.eqb k k0).
Qed.

Lemma fix_all_spec name model model' data :
  fix_all name model = Ok model' ->
  dget name model = Some (CVar data) ->
  model' = dset name
             (CVar (map (fun kv =>
                (fst kv, mkVarData (var_value (snd kv)) (var_lb (snd kv))
                                   (var_ub (snd kv)) true)) data)) model.
Proof.
  unfold fix_all, getattr_component. intros Hf Hd. rewrite Hd in Hf. simpl in Hf.
  by apply Ok_inj in Hf.
Qed.

Section BuilderInputFacts.
Context `{TxCalc} `{EgretLibrary} `{SolverBackend}.

Lemma btheta_losses_formulation_inputs md relaxation_type angle_limits slack model :
  btheta_losses_formulation md relaxation_type angle_limits slack = Ok model ->
  exists ref,
    dget "reference_bus" (system md) = Some (VStr ref) /\
    In ref (attribute_names md bus) /\
    forall b, In b (attribute_names md bus) ->
      exists e v, In (b, e) (elements md bus) /\ dget "va" e = Some v.
Proof.
  unfold btheta_losses_formulation. intros Hf. inv_ok.
  match goal with
  | Hd : declare_var_va _ _ _ _ = Ok _ |- _ =>
      unfold declare_var_va in Hd;
      apply declare_var_indexed_inv in Hd as (_ & _ & data & Hc & ->)
  end.
  apply construct_indexed_var_inv in Hc as [Hcov Hmem].
  match goal with
  | Hd : declare_var_dva ?m0 _ _ = Ok ?m |- _ =>
      unfold declare_var_dva in Hd;
      assert (Hdva : dget "va" m = Some (CVar data))
        by (eapply declare_var_keeps; [exact Hd|apply dget_dset_eq])
  end.
  match goal with
  | Hs : (if slack then _ else _) = Ok ?m |- _ =>
      assert (Hslack : dget "va" m = Some (CVar data))
  end.
  { destruct slack; inv_ok; [|done]. eapply add_components_keeps; eassumption. }
  match goal with
  | Hr : fix_reference_angle _ _ _ = Ok _ |- _ =>
      apply fix_reference_angle_spec in Hr
        as (b & x & data' & vd & -> & -> & Hva & Hb & ->)
  end.
  rewrite Hslack in Hva. injection Hva as <-.
  exists b.
  repeat match goal with
    | Hd : ditem _ (system md) = Ok _ |- _ =>
        unfold ditem in Hd;
        match type of Hd with
        | match ?o with _ => _ end = _ => destruct o eqn:?; [|discriminate Hd]
        end; apply Ok_inj in Hd; subst
    end.
  split; [done|]. split; [by apply (Hmem b vd)|].
  intros b' Hb'. apply Hcov, dhas_dget in Hb' as [vd' Hvd'].
  destruct (Hmem b' vd' Hvd') as (_ & _ & _ & lu & Hlu & _).
  unfold ditem in Hlu.
  match type of Hlu with
  | context [dget b' ?bounds] => destruct (dget b' bounds) as [lu'|] eqn:Hbounds; [|done]
  end.
  apply dict_of_dget, in_map_iff in Hbounds as (k & [= <- _] & Hk).
  apply dkeys_In_dget in Hk as [v Hv].
  match goal with
  | Ha : attribute md bus "va" = Ok _ |- _ =>
      destruct (attribute_origin _ _ _ _ _ _ Ha Hv) as (e & He & Hve)
  end.
  by exists e, v.
Qed.

(** X19: the angle-based builder returns a model only for a snapshot
    whose reference bus is the name of one of its buses and whose buses
    all carry a [va] attribute; a reference bus outside the bus set, or
    a bus without an angle, makes the build fail.  ([va] is declared
    over the bus names through [decl.declare_var], with the bounds
    dictionary built from the buses that have an angle.) *)
Theorem btheta_builder_needs_reference_bus a rt al fs w w' model r :
  create_btheta_losses_dcopf_model a rt al fs w = (w', Ok (model, r)) ->
  exists md ref,
    heap w' !! r = Some md /\
    dget "reference_bus" (system md) = Some (VStr ref) /\
    In ref (attribute_names md bus) /\
    forall b, In b (attribute_names md bus) ->
      exists e v, In (b, e) (elements md bus) /\ dget "va" e = Some v.
Proof.
  intros Hc. apply create_btheta_ok in Hc as (-> & md & Hheap & _ & Hform).
  apply btheta_losses_formulation_inputs in Hform as (ref & Href & Hin & Hva).
  exists md, ref. split; [rewrite Hheap; apply lookup_insert_eq|]. by repeat split.
Qed.

Lemma declared_pl_is_fixed names loads model0 model1 model2 :
  declare_var_pl model0 names loads = Ok model1 ->
  fix_all "pl" model1 = Ok model2 ->
  exists data,
    dget "pl" model2 = Some (CVar data) /\
    forall b, In b names ->
      exists vd, dget b data = Some vd /\ var_fixed vd = true /\
                 var_value vd = dget b loads.
Proof.
  unfold declare_var_pl. intros Hd Hf.
  apply declare_var_indexed_inv in Hd as (_ & _ & data & Hc & ->).
  apply construct_indexed_var_inv in Hc as [Hcov Hmem].
  rewrite (fix_all_spec _ _ _ data Hf) by apply dget_dset_eq.
  eexists. split; [apply dget_dset_eq|].
  intros b Hb. apply Hcov, dhas_dget in Hb as [vd Hvd].
  rewrite (dget_map_values
             (fun v => mkVarData (var_value v) (var_lb v) (var_ub v) true) data b), Hvd.
  simpl. eexists. split; [done|]. split; [done|].
  simpl. by destruct (Hmem b vd Hvd) as (_ & _ & -> & _).
Qed.

Lemma pl_members_kept data model model' names loads :
  dget "pl" model = Some (CVar data) ->
  dget "pl" model' = Some (CVar data) ->
  (forall b, In b names ->
     exists vd, dget b data = Some vd /\ var_fixed vd = true /\
                var_value vd = dget b loads) ->
  forall b : string, In b names ->
    exists vd, var_item "pl" b model' = Ok vd /\ var_fixed vd = true /\
               var_value vd = dget b loads.
Proof.
  intros _ Hm' Hall b Hb. destruct (Hall b Hb) as (vd & Hvd & Hf & Hv).
  exists vd. split; [|done]. rewrite (var_item_of_data _ _ _ _ Hm').
  unfold ditem. by rewrite Hvd.
Qed.

Lemma btheta_losses_formulation_pl md relaxation_type angle_limits slack model :
  btheta_losses_formulation md relaxation_type angle_limits slack = Ok model ->
  exists loads,
    dict_of_bus_loads (elements md bus) (elements md load) = Ok loads /\
    forall b, In b (attribute_names md bus) ->
      exists vd, var_item "pl" b model = Ok vd /\ var_fixed vd = true /\
                 var_value vd = dget b (fst loads).
Proof.
  unfold btheta_losses_formulation. intros Hf. inv_ok.
  match goal with
  | Hd : declare_var_pl _ _ _ = Ok _, Hx : fix_all "pl" _ = Ok _ |- _ =>
      destruct (declared_pl_is_fixed _ _ _ _ _ Hd Hx) as (data & Hpl & Hall)
  end.
  eexists. split; [eassumption|].
  eapply pl_members_kept; [exact Hpl| |exact Hall].
  match goal with
  | Hr : fix_reference_angle _ _ _ = Ok _ |- _ =>
      apply fix_reference_angle_spec in Hr
        as (b & x & data' & vd & -> & -> & Hva & Hb & ->)
  end.
  eapply add_components_keeps; [eassumption|].
  eapply add_components_keeps; [eassumption|].
  rewrite dget_dset_ne by done.
  match goal with
  | Hs : (if slack then _ else _) = Ok _ |- _ =>
      destruct slack; inv_ok;
        [eapply add_components_keeps; [eassumption|]|]
  end.
  all: match goal with
       | Hd : declare_var_dva _ _ _ = Ok _ |- _ =>
           unfold declare_var_dva in Hd; eapply declare_var_keeps; [exact Hd|]
       end.
  all: match goal with
       | Hd : declare_var_va _ _ _ _ = Ok _ |- _ =>
           unfold declare_var_va in Hd; eapply declare_var_keeps; [exact Hd|]
       end.
  all: exact Hpl.
Qed.

Lemma ptdf_losses_formulation_pl md slack model :
  ptdf_losses_formulation md slack = Ok model ->
  exists loads,
    dict_of_bus_loads (elements md bus) (elements md load) = Ok loads /\
    forall b, In b (attribute_names md bus) ->
      exists vd, var_item "pl" b model = Ok vd /\ var_fixed vd = true /\
                 var_value vd = dget b (fst loads).
Proof.
  unfold ptdf_losses_formulation. intros Hf. inv_ok.
  match goal with
  | Hd : declare_var_pl _ _ _ = Ok _, Hx : fix_all "pl" _ = Ok _ |- _ =>
      destruct (declared_pl_is_fixed _ _ _ _ _ Hd Hx) as (data & Hpl & Hall)
  end.
  eexists. split; [eassumption|].
  eapply pl_members_kept; [exact Hpl| |exact Hall].
  eapply add_components_keeps; [eassumption|].
  match goal with
  | Hs : (if slack then _ else _) = Ok _ |- _ =>
      destruct slack; inv_ok;
        [eapply add_components_keeps; [eassumption|]|]
  end.
  all: eapply add_components_keeps; [eassumption|exact Hpl].
Qed.

(** X20: in the model either builder returns, the load [pl] of every
    bus of the snapshot is a fixed variable, whose value is the one
    [dict_of_bus_loads] gives for that bus (none when it has no entry
    there): loads are data of the model, not decisions. *)
Theorem builders_fix_the_loads g a kwargs w w' model r :
  g = btheta_generator \/ g = ptdf_generator ->
  call_generator g a kwargs w = (w', Ok (model, r)) ->
  exists md loads,
    heap w' !! r = Some md /\
    dict_of_bus_loads (elements md bus) (elements md load) = Ok loads /\
    forall b, In b (attribute_names md bus) ->
      exists vd, var_item "pl" b model = Ok vd /\ var_fixed vd = true /\
                 var_value vd = dget b (fst loads).
Proof.
  intros [->| ->]; simpl.
  - intros Hc. apply create_btheta_ok in Hc as (-> & md & Hheap & _ & Hform).
    apply btheta_losses_formulation_pl in Hform as (loads & Hl & Hall).
    exists md, loads. split; [rewrite Hheap; apply lookup_insert_eq|done].
  - destruct (kw_relaxation_type kwargs), (kw_include_angle_diff_limits kwargs);
      try done.
    intros Hc. apply create_ptdf_ok in Hc as (-> & md & Hheap & _ & Hform).
    apply ptdf_losses_formulation_pl in Hform as (loads & Hl & Hall).
    exists md, loads. split; [rewrite Hheap; apply lookup_insert_eq|done].
Qed.

End BuilderInputFacts.

Lemma btheta_builder_needs_reference_bus_witness :
  two_bus_build_btheta
    = (fst two_bus_build_btheta,
       Ok (fst (ok_or (ConcreteModel, 1%positive) (snd two_bus_build_btheta)),
           2%positive)) /\
  exists md ref,
    heap (fst two_bus_build_btheta) !! 2%positive = Some md /\
    dget "reference_bus" (system md) = Some (VStr ref) /\
    In ref (attribute_names md bus) /\
    forall b, In b (attribute_names md bus) ->
      exists e v, In (b, e) (elements md bus) /\ dget "va" e = Some v.
Proof.
  split; [vm_compute; reflexivity|].
  apply (@btheta_builder_needs_reference_bus example_library 1%positive SOC
           false false two_bus_world (fst two_bus_build_btheta)
           (fst (ok_or (ConcreteModel, 1%positive) (snd two_bus_build_btheta)))
           2%positive).
  vm_compute. reflexivity.
Defined.

Lemma builders_fix_the_loads_witness :
  (btheta_generator = btheta_generator \/ btheta_generator = ptdf_generator) /\
  two_bus_build_btheta
    = (fst two_bus_build_btheta,
       Ok (fst (ok_or (ConcreteModel, 1%positive) (snd two_bus_build_btheta)),
           2%positive)) /\
  exists md loads,
    heap (fst two_bus_build_btheta) !! 2%positive = Some md /\
    @dict_of_bus_loads example_library (elements md bus) (elements md load)
      = Ok loads /\
    forall b, In b (attribute_names md bus) ->
      exists vd,
        var_item "pl" b
          (fst (ok_or (ConcreteModel, 1%positive) (snd two_bus_build_btheta)))
          = Ok vd /\
        var_fixed vd = true /\ var_value vd = dget b (fst loads).
Proof.
  split; [by left|]. split; [vm_compute; reflexivity|].
  apply (@builders_fix_the_loads two_bus_tx_calc example_library btheta_generator 1%positive
           no_kwargs two_bus_world).
  - by left.
  - vm_compute. reflexivity.
Defined.

(** ** The time mapping of attributes *)

Section UcTimeMappingFacts.
Import UcTimeMapping.

Lemma init_rule_element md_timeperiods _data ks t :
  ks <> [] ->
  init_rule md_timeperiods _data (ks ++ [t]) =
    (present ← py_in (element_key ks) _data;
     if present : bool then
       att ← getitem _data (SKey (element_key ks));
       get_time_attr md_timeperiods att t
     else Return PNone).
Proof.
  intros Hks. unfold init_rule. rewrite last_snoc, removelast_last.
  by destruct ks.
Qed.

Lemma init_rule_dict md_timeperiods d ks t :
  ks <> [] ->
  init_rule md_timeperiods (PDict d) (ks ++ [t]) =
    match dlookup (element_key ks) d with
    | Some att => get_time_attr md_timeperiods att t
    | None => Return PNone
    end.
Proof.
  intros Hks. rewrite init_rule_element by done. simpl.
  by destruct (dlookup (element_key ks) d).
Qed.

Lemma is_time_series_tag a :
  is_time_series a = true <->
  dlookup (KStr "data_type") a = Some (PStr "time_series").
Proof.
  unfold is_time_series.
  destruct (dlookup (KStr "data_type") a) as [[| | | |s| |]|]; try by split.
  destruct (String.eqb_spec s "time_series") as [->|Hne]; split; try done.
  intros [= ->]. done.
Qed.

Lemma norm_index_inside (i : Z) (len : nat) :
  (0 <= i < Z.of_nat len)%Z -> norm_index i len = Some (Z.to_nat i).
Proof.
  intros Hi. unfold norm_index.
  destruct (Z.ltb_spec i 0); [lia|].
  destruct (Z.leb_spec 0 i); [|lia].
  destruct (Z.ltb_spec i (Z.of_nat len)); [done|lia].
Qed.

Lemma norm_index_wraps (i : Z) (len : nat) :
  (- Z.of_nat len <= i < 0)%Z ->
  norm_index i len = norm_index (i + Z.of_nat len) len.
Proof.
  intros Hi. unfold norm_index.
  destruct (Z.ltb_spec i 0); [|lia].
  destruct (Z.ltb_spec (i + Z.of_nat len) 0); [lia|done].
Qed.

Lemma norm_index_outside (i : Z) (len : nat) :
  (i < - Z.of_nat len \/ Z.of_nat len <= i)%Z -> norm_index i len = None.
Proof.
  intros Hi. unfold norm_index.
  destruct (Z.ltb_spec i 0).
  - destruct (Z.leb_spec 0 (i + Z.of_nat len)); [|done].
    destruct (Z.ltb_spec (i + Z.of_nat len) (Z.of_nat len)); [lia|done].
  - destruct (Z.leb_spec 0 i); [|done].
    destruct (Z.ltb_spec i (Z.of_nat len)); [lia|done].
Qed.

Lemma get_time_attr_series md_timeperiods a vs t :
  time_series a vs ->
  get_time_attr md_timeperiods (PDict a) (KInt t) =
    (period ← getitem md_timeperiods (SKey (KInt (t - 1)));
     getitem (PList vs) (subscript_of period)).
Proof.
  intros [Hs Hv]. unfold get_time_attr. rewrite Hs. simpl. by rewrite Hv.
Qed.

Lemma dlookup_tuple_in_string_keys ks d :
  Forall (fun kv : pykey * pyval => exists s, fst kv = KStr s) d ->
  dlookup (KTuple ks) d = None.
Proof.
  induction 1 as [|[k v] d [s Hk] _ IH]; [done|].
  simpl in Hk. subst k. done.
Qed.

(** X21: for data that is a dictionary of elements, the rule never
    raises on an element without entry or with an entry that is not a
    dictionary: it gives [None] for the first and the entry itself for
    the second, whatever the time component is (an integer outside the
    periods, or no integer at all). *)
Theorem rule_of_constant_attribute md_timeperiods d ks t :
  ks <> [] ->
  exists rule,
    build_uc_time_mapping md_timeperiods (PDict d) = Some rule /\
    (dlookup (element_key ks) d = None -> rule (ks ++ [t]) = Return PNone) /\
    (forall v, dlookup (element_key ks) d = Some v -> not_dict v ->
               rule (ks ++ [t]) = Return v).
Proof.
  intros Hks. eexists. split; [done|]. rewrite init_rule_dict by done.
  split.
  - by intros ->.
  - intros v -> Hv. by destruct v.
Qed.

Lemma rule_of_constant_attribute_witness :
  exists rule,
    build_uc_time_mapping example_periods example_demand = Some rule /\
    rule [KStr "b2"; KStr "noon"] = Return (PFloat 4).
Proof.
  destruct (rule_of_constant_attribute example_periods
              [ (KStr "b1",
                 PDict [ (KStr "data_type", PStr "time_series");
                         (KStr "values", PList [PFloat 10; PFloat 12; PFloat 9]) ]);
                (KStr "b2", PFloat 4);
                (KStr "b3", PDict [ (KStr "p", PFloat 1) ]) ]
              [KStr "b2"] (KStr "noon") ltac:(done))
    as (rule & Hrule & _ & Hconst).
  exists rule. split; [exact Hrule|].
  apply Hconst; [vm_compute; reflexivity|exact I].
Defined.

(** X22: for an element whose entry is a time series with a list of
    values, and periods that are positions in that list, the rule called
    with the time [t >= 1] gives the value the series holds at the
    position named by the [t]-th period: times count from one. *)
Theorem rule_of_time_series (tps : list pyval) d ks a vs (t p : Z) v :
  ks <> [] ->
  dlookup (element_key ks) d = Some (PDict a) ->
  time_series a vs ->
  (1 <= t)%Z ->
  tps !! Z.to_nat (t - 1) = Some (PInt p) ->
  (0 <= p)%Z ->
  vs !! Z.to_nat p = Some v ->
  init_rule (PList tps) (PDict d) (ks ++ [KInt t]) = Return v.
Proof.
  intros Hks Hd Hs Ht Htp Hp Hv.
  rewrite init_rule_dict, Hd, (get_time_attr_series _ _ vs) by done.
  simpl. apply lookup_lt_Some in Htp as Hlt.
  rewrite norm_index_inside by lia. rewrite Htp. simpl.
  apply lookup_lt_Some in Hv as Hlt'.
  rewrite norm_index_inside by lia. by rewrite Hv.
Qed.

Lemma rule_of_time_series_witness :
  init_rule example_periods example_demand [KStr "b1"; KInt 2] = Return (PFloat 12).
Proof.
  apply (rule_of_time_series [PInt 0; PInt 1; PInt 2]
           [ (KStr "b1",
              PDict [ (KStr "data_type", PStr "time_series");
                      (KStr "values", PList [PFloat 10; PFloat 12; PFloat 9]) ]);
             (KStr "b2", PFloat 4);
             (KStr "b3", PDict [ (KStr "p", PFloat 1) ]) ]
           [KStr "b1"]
           [ (KStr "data_type", PStr "time_series");
             (KStr "values", PList [PFloat 10; PFloat 12; PFloat 9]) ]
           [PFloat 10; PFloat 12; PFloat 9] 2 1 (PFloat 12)).
  - done.
  - vm_compute; reflexivity.
  - split; vm_compute; reflexivity.
  - lia.
  - vm_compute; reflexivity.
  - lia.
  - vm_compute; reflexivity.
Defined.

(** X23: the time of a series is not checked against the periods
    beyond what list indexing does.  With [n] periods, a time [t] with
    [-n < t <= 0] is answered as the time [t + n] (so time 0 reads the
    last period), and a time above [n] or not above [-n] raises
    [IndexError]. *)
Theorem time_index_range (tps : list pyval) a vs (t : Z) :
  time_series a vs ->
  let n := Z.of_nat (length tps) in
  ((- n < t <= 0)%Z ->
     get_time_attr (PList tps) (PDict a) (KInt t) =
     get_time_attr (PList tps) (PDict a) (KInt (t + n))) /\
  ((t <= - n \/ n < t)%Z ->
     get_time_attr (PList tps) (PDict a) (KInt t) = Raised PyIndexError).
Proof.
  intros Hs n. rewrite !(get_time_attr_series _ _ vs) by done. simpl. split.
  - intros Ht. rewrite (norm_index_wraps (t - 1)) by lia.
    by replace (t - 1 + Z.of_nat (length tps))%Z with (t + n - 1)%Z by lia.
  - intros Ht. by rewrite norm_index_outside by lia.
Qed.

Lemma time_index_range_witness :
  get_time_attr example_periods
    (PDict [ (KStr "data_type", PStr "time_series");
             (KStr "values", PList [PFloat 10; PFloat 12; PFloat 9]) ])
    (KInt 0) = Return (PFloat 9).
Proof.
  destruct (time_index_range [PInt 0; PInt 1; PInt 2]
              [ (KStr "data_type", PStr "time_series");
                (KStr "values", PList [PFloat 10; PFloat 12; PFloat 9]) ]
              [PFloat 10; PFloat 12; PFloat 9] 0) as [Hwrap _].
  - split; vm_compute; reflexivity.
  - unfold example_periods. rewrite Hwrap by (simpl; lia).
    vm_compute. reflexivity.
Defined.

(** X24: a dictionary that is not tagged as a time series is refused:
    when the entry of the element is a dictionary whose ['data_type'] is
    missing or is not the string ['time_series'], the rule raises the
    exception that carries this dictionary, for every time and every
    list of periods. *)
Theorem rule_of_other_dictionary md_timeperiods d ks a t :
  ks <> [] ->
  dlookup (element_key ks) d = Some (PDict a) ->
  dlookup (KStr "data_type") a <> Some (PStr "time_series") ->
  init_rule md_timeperiods (PDict d) (ks ++ [t]) = Raised (PyException (PDict a)).
Proof.
  intros Hks Hd Htag. rewrite init_rule_dict, Hd by done.
  unfold get_time_attr.
  destruct (is_time_series a) eqn:Hs; [|done].
  by apply is_time_series_tag in Hs.
Qed.

Lemma rule_of_other_dictionary_witness :
  init_rule example_periods example_demand [KStr "b3"; KInt 1] =
  Raised (PyException (PDict [ (KStr "p", PFloat 1) ])).
Proof.
  apply (rule_of_other_dictionary example_periods
           [ (KStr "b1",
              PDict [ (KStr "data_type", PStr "time_series");
                      (KStr "values", PList [PFloat 10; PFloat 12; PFloat 9]) ]);
             (KStr "b2", PFloat 4);
             (KStr "b3", PDict [ (KStr "p", PFloat 1) ]) ]
           [KStr "b3"] [ (KStr "p", PFloat 1) ] (KInt 1)).
  - done.
  - vm_compute; reflexivity.
  - vm_compute. discriminate.
Defined.

(** X25: several element components are looked up as one tuple, never
    one by one: on data whose keys are all strings, a call with two or
    more components before the time finds nothing and gives [None],
    whatever the components and the time are. *)
Theorem rule_of_tuple_on_string_keys md_timeperiods d ks t :
  Forall (fun kv : pykey * pyval => exists s, fst kv = KStr s) d ->
  2 <= length ks ->
  init_rule md_timeperiods (PDict d) (ks ++ [t]) = Return PNone.
Proof.
  intros Hd Hlen.
  assert (Hks : ks <> []) by (intros ->; simpl in Hlen; lia).
  rewrite init_rule_dict by done.
  assert (Hkey : element_key ks = KTuple ks).
  { destruct ks as [|k1 [|k2 ks']]; simpl in Hlen; [lia|lia|done]. }
  by rewrite Hkey, dlookup_tuple_in_string_keys.
Qed.

Lemma rule_of_tuple_on_string_keys_witness :
  init_rule example_periods example_demand [KStr "b1"; KStr "b2"; KInt 1] =
  Return PNone.
Proof.
  apply (rule_of_tuple_on_string_keys example_periods
           [ (KStr "b1",
              PDict [ (KStr "data_type", PStr "time_series");
                      (KStr "values", PList [PFloat 10; PFloat 12; PFloat 9]) ]);
             (KStr "b2", PFloat 4);
             (KStr "b3", PDict [ (KStr "p", PFloat 1) ]) ]
           [KStr "b1"; KStr "b2"] (KInt 1)).
  - repeat constructor; simpl; eauto.
  - simpl. lia.
Defined.

End UcTimeMappingFacts.

(** ** Tagging a model more than once *)

Section UcUtilsSequenceFacts.
Import UcUtils.

Lemma add_model_attr_accepted attr requires func st :
  ~ refused attr requires (st_model st) ->
  add_model_attr attr requires func st =
    (let mr := func_body func (dset attr (AStr (func_name func)) (st_model st)) in
     (mkState (fst mr) (st_calls st ++ [func_name func]), snd mr)).
Proof.
  intros Hn. unfold add_model_attr.
  destruct (dget attr (st_model st)) as [v|] eqn:Hattr.
  - destruct Hn. left. unfold dhas. by rewrite Hattr.
  - destruct (check_loop_cases (func_name func) requires (st_model st) (dkeys requires))
      as [[-> _]|[_ Hbad]]; [done|done|].
    destruct Hn. by right.
Qed.

Lemma attr_in_name name allowed :
  attr_in (AStr name) allowed = true <-> In name allowed.
Proof.
  simpl. rewrite existsb_exists. split.
  - intros (x & Hin & Heq). apply String.eqb_eq in Heq. by subst.
  - intros Hin. exists name. split; [done|apply String.eqb_refl].
Qed.

(** X26: one kind per attribute.  Once a wrapped function was accepted
    for [attr] and its body left the tag in place, every later wrapped
    function for the same [attr] is refused whatever it requires: the
    exception names the first function as the kind already present, the
    later function is not invoked and the model stays as the first left
    it. *)
Theorem second_kind_is_refused attr requires func requires2 func2 st :
  ~ refused attr requires (st_model st) ->
  (forall m, dget attr m = Some (AStr (func_name func)) ->
             dget attr (fst (func_body func m)) = Some (AStr (func_name func))) ->
  let st1 := fst (add_model_attr attr requires func st) in
  st_calls st1 = st_calls st ++ [func_name func] /\
  add_model_attr attr requires2 func2 st1 =
    (st1, Raise (Exception ("Exception adding " +:+ func_name func2 +:+
                            "! Model already has " +:+ attr +:+ " " +:+
                            func_name func +:+
                            "! You may only add one type of " +:+ attr +:+ "!"))).
Proof.
  intros Hn Hkeep st1. subst st1.
  rewrite add_model_attr_accepted by done. simpl. split; [done|].
  unfold add_model_attr. simpl.
  by rewrite (Hkeep _ (dget_dset_eq _ _ _)).
Qed.

Lemma second_kind_is_refused_witness :
  st_calls example_tagged_state = ["garver_3bin_vars"] /\
  add_model_attr "status_vars" [] example_other_status_block example_tagged_state =
    (example_tagged_state,
     Raise (Exception ("Exception adding CA_1bin_vars! Model already has " +:+
                       "status_vars garver_3bin_vars! " +:+
                       "You may only add one type of status_vars!"))).
Proof.
  apply (second_kind_is_refused "status_vars" [] example_status_block []
           example_other_status_block (mkState [] [])).
  - intros [Hhas|(b & [] & _)]. vm_compute in Hhas. discriminate.
  - intros m Hm. exact Hm.
Defined.

(** X27: a requirement is met by an earlier tag.  After a function was
    accepted for [attr] and kept its tag, a function for another
    attribute that requires [attr] to be one of [allowed] runs on the
    model tagged with its own name exactly when the first function's
    name is in [allowed]; otherwise it is refused with the list of the
    allowed kinds and is not invoked. *)
Theorem requirement_met_by_earlier_tag attr attr2 requires func allowed func2 st :
  ~ refused attr requires (st_model st) ->
  (forall m, dget attr m = Some (AStr (func_name func)) ->
             dget attr (fst (func_body func m)) = Some (AStr (func_name func))) ->
  let st1 := fst (add_model_attr attr requires func st) in
  dget attr2 (st_model st1) = None ->
  let out := add_model_attr attr2 [(attr, Some allowed)] func2 st1 in
  (In (func_name func) allowed ->
     let mr := func_body func2 (dset attr2 (AStr (func_name func2)) (st_model st1)) in
     out = (mkState (fst mr) (st_calls st ++ [func_name func; func_name func2]),
            snd mr)) /\
  (~ In (func_name func) allowed ->
     out = (st1, Raise (Exception
                          ("Exception adding " +:+ func_name func2 +:+ "! " +:+
                           func_name func2 +:+ " requires one of: " +:+
                           String.concat ", " allowed +:+
                           ", to be added first.")))).
Proof.
  intros Hn Hkeep st1 Hfree out. subst out st1.
  revert Hfree. rewrite add_model_attr_accepted by done. simpl. intros Hfree.
  pose proof (Hkeep _ (dget_dset_eq attr (AStr (func_name func)) (st_model st))) as Htag.
  unfold add_model_attr. simpl. rewrite Hfree. simpl.
  unfold check_required, ditem. rewrite Htag. simpl. rewrite String.eqb_refl. simpl.
  split.
  - intros Hin. apply attr_in_name in Hin. simpl in Hin. rewrite Hin. simpl.
    by rewrite <- app_assoc.
  - intros Hin.
    destruct (existsb (String.eqb (func_name func)) allowed) eqn:Hex; [|done].
    destruct Hin. by apply attr_in_name.
Qed.

Lemma requirement_met_by_earlier_tag_witness :
  st_calls (fst (add_model_attr "uptime_downtime"
                   [("status_vars", Some ["garver_3bin_vars"; "garver_2bin_vars"])]
                   example_uptime_block example_tagged_state)) =
  ["garver_3bin_vars"; "rajan_takriti_UT_DT"].
Proof.
  destruct (requirement_met_by_earlier_tag "status_vars" "uptime_downtime" []
              example_status_block ["garver_3bin_vars"; "garver_2bin_vars"]
              example_uptime_block (mkState [] [])) as [Hrun _].
  - intros [Hhas|(b & [] & _)]. vm_compute in Hhas. discriminate.
  - intros m Hm. exact Hm.
  - vm_compute. reflexivity.
  - cbv zeta in Hrun. unfold example_tagged_state.
    rewrite Hrun by (simpl; auto). reflexivity.
Defined.

End UcUtilsSequenceFacts.
